(** * Cashback engine of [sale_service.js]: embedding and properties

    The service ([class SaleService]) matches a sale against campaigns,
    computes the cashback of every qualifying campaign, keeps the best one,
    and later spends or restores the earned balance.  This development
    embeds the functions of [src/sale_service.js] that carry this logic and
    states the behaviour of each.

    Conventions of the embedding.
    - A JavaScript exception is a value of [Js.exn]; a function that can
      throw returns [Js.result].
    - Monetary amounts, prices and quantities are JavaScript numbers holding
      integers (minor currency units); they are elements of [Z].  The single
      expression that leaves the integers, [unitPrice * (percent / 100)], is
      evaluated in binary64 ([Js.Number]); the percentage is a double, and
      prices and percentages are taken where that product is finite.
    - The Mongo collection of sales is a list of documents ([Doc.t]); a
      query is a filter over it, an update rewrites the matching document.
    - Collaborators outside the file (campaign source, user directory, ban
      list, clock) are arguments of the functions that call them. *)

From Stdlib Require Import ZArith List String Ascii Bool Lia Floats Permutation.
Import ListNotations.

Open Scope string_scope.
Open Scope Z_scope.
Open Scope list_scope.

Set Implicit Arguments.

(** ** JavaScript values and control flow *)

Module Js.

(** [throw new Error(msg)] and the [TypeError] raised by the engine when a
    property of [undefined] is read. *)
Inductive exn : Type :=
| Error (msg : string)
| TypeError.

Inductive result (A : Type) : Type :=
| Ok (a : A)
| Throw (e : exn).

Arguments Ok {A} a.
Arguments Throw {A} e.

Definition bind {A B : Type} (r : result A) (k : A -> result B) : result B :=
  match r with
  | Ok a => k a
  | Throw e => Throw e
  end.

(** [Array.prototype.forEach] with a callback that rewrites the element in
    place and may throw: elements are visited in order and the first
    exception ends the loop. *)
Fixpoint forEach {A : Type} (f : A -> result A) (l : list A) : result (list A) :=
  match l with
  | [] => Ok []
  | x :: rest =>
      bind (f x) (fun x' => bind (forEach f rest) (fun rest' => Ok (x' :: rest')))
  end.

(** [Array.prototype.includes] on an array of strings. *)
Fixpoint includes (l : list string) (s : string) : bool :=
  match l with
  | [] => false
  | x :: rest => String.eqb x s || includes rest s
  end.

(** Truthiness of an optional number: [undefined] and [0] are falsy. *)
Definition truthy (o : option Z) : bool :=
  match o with
  | Some z => negb (z =? 0)
  | None => false
  end.

(** Truthiness of an optional string: [undefined] and [''] are falsy. *)
Definition truthyS (o : option string) : bool :=
  match o with
  | Some EmptyString => false
  | Some _ => true
  | None => false
  end.

(** [String.prototype.split(sep)] for a one-character separator. *)
Fixpoint split (sep : ascii) (s : string) : list string :=
  match s with
  | EmptyString => [EmptyString]
  | String c rest =>
      if Ascii.eqb c sep then EmptyString :: split sep rest
      else match split sep rest with
           | h :: t => String c h :: t
           | [] => [String c EmptyString]
           end
  end.

(** White space removed by [String.prototype.trim], within ASCII:
    TAB, LF, VT, FF, CR and SPACE. *)
Definition isWhiteSpace (c : ascii) : bool :=
  let n := nat_of_ascii c in
  (Nat.leb 9 n && Nat.leb n 13) || Nat.eqb n 32.

Fixpoint trimStart (s : string) : string :=
  match s with
  | EmptyString => EmptyString
  | String c rest => if isWhiteSpace c then trimStart rest else s
  end.

Fixpoint trimEnd (s : string) : string :=
  match s with
  | EmptyString => EmptyString
  | String c rest =>
      match trimEnd rest with
      | EmptyString => if isWhiteSpace c then EmptyString else String c EmptyString
      | rest' => String c rest'
      end
  end.

Definition trim (s : string) : string := trimEnd (trimStart s).

(** [x.trim()] where [x] comes from an array destructuring and is
    [undefined] when the array is too short. *)
Definition trimOf (x : option string) : result string :=
  match x with
  | Some s => Ok (trim s)
  | None => Throw TypeError
  end.

(** Binary64 arithmetic of the JavaScript [Number] type, for the one
    expression of the service whose intermediate value is not an integer. *)
Module Number.

(** The double nearest to an integer (exact below [2^53]). *)
Definition ofZ (z : Z) : float :=
  SF2Prim (binary_normalize prec emax z 0 false).

(** [Math.floor] of a finite double, as an integer.  [_.floor(x)] of lodash
    with its default precision is [Math.floor(x)].  [None] stands for the
    non-finite results ([NaN], [Infinity]). *)
Definition floor (x : float) : option Z :=
  match Prim2SF x with
  | S754_zero _ => Some 0
  | S754_finite s m e =>
      let n := if s then Z.neg m else Z.pos m in
      Some (if 0 <=? e then n * 2 ^ e else n / 2 ^ (- e))
  | S754_infinity _ => None
  | S754_nan => None
  end.

(** Truthiness of a number held as a double: [0], [-0] and [NaN] are falsy. *)
Definition truthyF (x : float) : bool :=
  negb (PrimFloat.eqb x 0%float) && PrimFloat.eqb x x.

End Number.

End Js.

Notation "x <- r ;; k" := (Js.bind r (fun x => k))
  (at level 61, r at next level, right associativity).

(** ** Data model *)

(** A line item of a sale.  [model], [colorCode] and [size] are written by
    the normalizer and read by the rule matcher as facets; a facet that the
    item does not carry is [None] ([undefined]).  [totalPrice] is written by
    the normalizer before anything reads it.  [matchedCampaigns] is created
    empty by the matcher when the item has none, so the absent array and the
    empty one are both [[]].  [unitCashback] and [totalCashback] are present
    or deleted. *)
Module Item.

Record t : Type := mk {
  partnumber : string;
  unitPrice : Z;
  quantity : Z;
  group : option string;
  category1 : option string;
  category2 : option string;
  category3 : option string;
  category4 : option string;
  gender : option string;
  colorCode : option string;
  model : option string;
  size : option string;
  totalPrice : Z;
  matchedCampaigns : list string;
  eligible : bool;
  unitCashback : option Z;
  totalCashback : option Z
}.

(** [item[ruleKey]] for the facet names used by the rule matcher. *)
Definition get (i : t) (k : string) : option string :=
  if String.eqb k "group" then group i
  else if String.eqb k "category1" then category1 i
  else if String.eqb k "category2" then category2 i
  else if String.eqb k "category3" then category3 i
  else if String.eqb k "category4" then category4 i
  else if String.eqb k "gender" then gender i
  else if String.eqb k "colorCode" then colorCode i
  else if String.eqb k "model" then model i
  else if String.eqb k "size" then size i
  else None.

Definition set_facets (i : t) (m c s : string) (tp : Z) : t :=
  mk (partnumber i) (unitPrice i) (quantity i) (group i) (category1 i)
     (category2 i) (category3 i) (category4 i) (gender i)
     (Some c) (Some m) (Some s) tp
     (matchedCampaigns i) (eligible i) (unitCashback i) (totalCashback i).

Definition set_matching (i : t) (mc : list string) (e : bool) : t :=
  mk (partnumber i) (unitPrice i) (quantity i) (group i) (category1 i)
     (category2 i) (category3 i) (category4 i) (gender i)
     (colorCode i) (model i) (size i) (totalPrice i)
     mc e (unitCashback i) (totalCashback i).

Definition set_cashback (i : t) (e : bool) (u tc : option Z) : t :=
  mk (partnumber i) (unitPrice i) (quantity i) (group i) (category1 i)
     (category2 i) (category3 i) (category4 i) (gender i)
     (colorCode i) (model i) (size i) (totalPrice i)
     (matchedCampaigns i) e u tc.

(** [delete item.totalCashback; delete item.unitCashback]. *)
Definition delete_cashback (i : t) : t :=
  set_cashback i (eligible i) None None.

Definition set_eligible (i : t) (e : bool) : t :=
  set_cashback i e (unitCashback i) (totalCashback i).

End Item.

(** An eligibility rule of a campaign: one optional value per facet. *)
Module Rule.

Record t : Type := mk {
  group : option string;
  category1 : option string;
  category2 : option string;
  category3 : option string;
  category4 : option string;
  gender : option string;
  colorCode : option string;
  model : option string;
  size : option string
}.

(** [rule[ruleKey]]. *)
Definition get (r : t) (k : string) : option string :=
  if String.eqb k "group" then group r
  else if String.eqb k "category1" then category1 r
  else if String.eqb k "category2" then category2 r
  else if String.eqb k "category3" then category3 r
  else if String.eqb k "category4" then category4 r
  else if String.eqb k "gender" then gender r
  else if String.eqb k "colorCode" then colorCode r
  else if String.eqb k "model" then model r
  else if String.eqb k "size" then size r
  else None.

End Rule.

(** An entry of the payment allow-list of a campaign.  [flags] is [None]
    when the field is [undefined] or the empty string. *)
Module AllowedPayment.

Record t : Type := mk {
  type : string;
  flags : option (list string)
}.

End AllowedPayment.

(** A payment method used on a sale. *)
Module Payment.

Record t : Type := mk {
  type : string;
  flag : option string
}.

End Payment.

(** A campaign snapshot, with the fields read by the engine.  An optional
    number is [None] when the campaign does not define it. *)
Module Campaign.

Record t : Type := mk {
  code : string;
  salesChannel : list string;
  subsidiariesList : option (list string);
  paymentMethod : list AllowedPayment.t;
  rules : list Rule.t;
  percentCashback : option float;
  valueCashback : Z;
  cashbackLimit : option Z;
  minSaleValue : option Z;
  maxProductsCart : option Z;
  cpfParticipationLimit : option Z;
  daysToCreditPdv : option Z;
  daysToCreditEcom : Z;
  daysToRescue : Z
}.

End Campaign.

(** The sale under evaluation ([createData], [processSale.data] and its
    clones).  [origin] is [sale.order.origin]; [customerId] is
    [sale.customer.id]; [invoiceKey] is [sale.invoice.key]; dates are
    instants in milliseconds. *)
Module Sale.

Record t : Type := mk {
  salesChannel : string;
  origin : string;
  paymentMethod : list Payment.t;
  items : list Item.t;
  matchedCampaigns : list string;
  usedCampaign : option string;
  totalCashback : Z;
  customerId : string;
  invoiceKey : option string;
  usedCashback : bool;
  usedCashbackValue : Z;
  verification : Z;
  creditDate : option Z;
  expirateDate : option Z
}.

Definition set_items (s : t) (l : list Item.t) : t :=
  mk (salesChannel s) (origin s) (paymentMethod s) l (matchedCampaigns s)
     (usedCampaign s) (totalCashback s) (customerId s) (invoiceKey s)
     (usedCashback s) (usedCashbackValue s) (verification s)
     (creditDate s) (expirateDate s).

Definition set_matchedCampaigns (s : t) (m : list string) : t :=
  mk (salesChannel s) (origin s) (paymentMethod s) (items s) m
     (usedCampaign s) (totalCashback s) (customerId s) (invoiceKey s)
     (usedCashback s) (usedCashbackValue s) (verification s)
     (creditDate s) (expirateDate s).

Definition set_usedCampaign (s : t) (c : string) : t :=
  mk (salesChannel s) (origin s) (paymentMethod s) (items s)
     (matchedCampaigns s) (Some c) (totalCashback s) (customerId s)
     (invoiceKey s) (usedCashback s) (usedCashbackValue s) (verification s)
     (creditDate s) (expirateDate s).

Definition set_totalCashback (s : t) (v : Z) : t :=
  mk (salesChannel s) (origin s) (paymentMethod s) (items s)
     (matchedCampaigns s) (usedCampaign s) v (customerId s)
     (invoiceKey s) (usedCashback s) (usedCashbackValue s) (verification s)
     (creditDate s) (expirateDate s).

Definition set_dates (s : t) (credit expirate : Z) : t :=
  mk (salesChannel s) (origin s) (paymentMethod s) (items s)
     (matchedCampaigns s) (usedCampaign s) (totalCashback s) (customerId s)
     (invoiceKey s) (usedCashback s) (usedCashbackValue s) (verification s)
     (Some credit) (Some expirate).

End Sale.

(** An entry of [cashbackUseHistory], kept on the record the balance was
    taken from: [saleId] is the redemption that consumed it. *)
Module UseEntry.

Record t : Type := mk {
  usedValue : Z;
  invoiceKey : option string;
  saleId : nat;
  date : Z
}.

End UseEntry.

(** An entry of [history], kept on the redemption: [saleId] is the record
    the balance came from and [from] its invoice key. *)
Module FontEntry.

Record t : Type := mk {
  usedValue : Z;
  from : option string;
  saleId : nat;
  date : Z
}.

End FontEntry.

(** Summary of a candidate kept in [saleWithOtherCampaigns]. *)
Module Alternative.

Record t : Type := mk {
  usedCampaign : option string;
  creditDate : option Z;
  expirateDate : option Z;
  totalCashback : Z
}.

End Alternative.

(** The status of a stored sale. *)
Module Status.

Inductive t : Type := PENDING | AVAILABLE | USED | CANCELED | EXPIRED.

Definition eqb (a b : t) : bool :=
  match a, b with
  | PENDING, PENDING | AVAILABLE, AVAILABLE | USED, USED
  | CANCELED, CANCELED | EXPIRED, EXPIRED => true
  | _, _ => false
  end.

End Status.

(** A document of the sales collection. *)
Module Doc.

Record t : Type := mk {
  _id : nat;
  cpf : string;
  status : Status.t;
  invoiceKey : option string;
  usedCampaign : option string;
  totalCashback : option Z;
  availableCashback : option Z;
  creditDate : option Z;
  expirateDate : option Z;
  cashbackUseHistory : list UseEntry.t;
  history : list FontEntry.t;
  usedCashback : bool;
  usedCashbackValue : Z;
  items : list Item.t;
  matchedCampaigns : list string;
  saleWithOtherCampaigns : list Alternative.t;
  userInMycash : bool
}.

End Doc.

(** The calendar operations the service takes from [date-fns] and from the
    time zone of the process.  [startOfLocalDay d] stands for
    [_updateHours(offset, startOfDay(_updateHours(0 - offset, d)))] and
    [endOfLocalDay] for the same with [endOfDay]. *)
Module Calendar.

Record t : Type := mk {
  addDays : Z -> Z -> Z;
  startOfLocalDay : Z -> Z;
  endOfLocalDay : Z -> Z
}.

End Calendar.

(** ** Item Normalizer: [_processItems] *)

Module Normalizer.

(** The callback of [items.forEach] in [_processItems]: the part number is
    split on ['.'], the first three segments are destructured and trimmed in
    the order model, colorCode, size, and the line total is derived. *)
Definition processItem (item : Item.t) : Js.result Item.t :=
  let parts := Js.split "." (Item.partnumber item) in
  model <- Js.trimOf (nth_error parts 0) ;;
  colorCode <- Js.trimOf (nth_error parts 1) ;;
  size <- Js.trimOf (nth_error parts 2) ;;
  Js.Ok (Item.set_facets item model colorCode size
           (Item.unitPrice item * Item.quantity item)).

Definition _processItems (items : list Item.t) : Js.result (list Item.t) :=
  Js.forEach processItem items.



End Normalizer.

(** ** Campaign Rule Matcher *)

Module Matcher.

Definition _checkSalesChannelRule (campaign : Campaign.t) (sale : Sale.t) : bool :=
  Js.includes (Campaign.salesChannel campaign) (Sale.salesChannel sale).

Definition _checkSubsidiariesChannelRule (campaign : Campaign.t) (sale : Sale.t) : bool :=
  match Campaign.subsidiariesList campaign with
  | None => true
  | Some l =>
      if (Z.of_nat (List.length l) <? 1) then true
      else Js.includes l (Sale.origin sale)
  end.

(** One round of the [forEach] of [_checkPaymentMethodRule]: the first
    allowed entry of the same type is looked up; [result] is lowered when
    there is none, or when a card entry with flags does not list the flag. *)
Definition checkPayment (campaign : Campaign.t) (result : bool) (pM : Payment.t) : bool :=
  match filter (fun p => String.eqb (AllowedPayment.type p) (Payment.type pM))
               (Campaign.paymentMethod campaign) with
  | [] => false
  | paymentMethod :: _ =>
      if Js.includes ["CREDIT_CARD"; "DEBIT_CARD"] (AllowedPayment.type paymentMethod)
      then match AllowedPayment.flags paymentMethod with
           | Some flags =>
               match Payment.flag pM with
               | Some f => if Js.includes flags f then result else false
               | None => false
               end
           | None => result
           end
      else result
  end.

Definition _checkPaymentMethodRule (campaign : Campaign.t) (sale : Sale.t) : bool :=
  fold_left (checkPayment campaign) (Sale.paymentMethod sale) true.

Definition rulesKeys : list string :=
  ["group"; "category1"; "category2"; "category3"; "category4";
   "gender"; "colorCode"; "model"; "size"].

(** [rule[ruleKey] != item[ruleKey]] for a rule value that is a string. *)
Definition differs (r : option string) (i : option string) : bool :=
  match r, i with
  | Some a, Some b => negb (String.eqb a b)
  | None, None => false
  | _, _ => true
  end.

(** The inner [rulesKeys.forEach]: [eligible] starts [true] and is lowered
    by every facet that the rule sets to a truthy value different from the
    item's. *)
Definition followsRule (rule : Rule.t) (item : Item.t) : bool :=
  fold_left
    (fun eligible ruleKey =>
       if Js.truthyS (Rule.get rule ruleKey)
          && differs (Rule.get rule ruleKey) (Item.get item ruleKey)
       then false else eligible)
    rulesKeys true.

(** The [rules.forEach] for one item: every rule the item follows pushes
    the campaign code on the item and raises [hasOneProductOnRule]. *)
Definition checkItem (campaign : Campaign.t) (st : list Item.t * bool) (item : Item.t)
  : list Item.t * bool :=
  let item0 := Item.set_matching item (Item.matchedCampaigns item) false in
  let '(item', has) :=
    fold_left
      (fun (acc : Item.t * bool) rule =>
         let '(it, h) := acc in
         if followsRule rule it
         then (Item.set_matching it (Item.matchedCampaigns it ++ [Campaign.code campaign])
                 (Item.eligible it), true)
         else (it, h))
      (Campaign.rules campaign) (item0, snd st) in
  (fst st ++ [item'], has).

(** Returns [hasOneProductOnRule] and the sale with its items annotated. *)
Definition _checkItemsThatFollowRules (campaign : Campaign.t) (sale : Sale.t)
  : bool * Sale.t :=
  let '(items', has) := fold_left (checkItem campaign) (Sale.items sale) ([], false) in
  (has, Sale.set_items sale items').

(** The [reduce] of [_checkMaxsalesCartRule]: quantities of the items whose
    [matchedCampaigns] includes the campaign code. *)
Definition totalItems (campaign : Campaign.t) (sale : Sale.t) : Z :=
  fold_left
    (fun prev cur =>
       if Js.includes (Item.matchedCampaigns cur) (Campaign.code campaign)
       then prev + Item.quantity cur else prev)
    (Sale.items sale) 0.

Definition _checkMaxsalesCartRule (campaign : Campaign.t) (sale : Sale.t) : bool :=
  let totalItems := totalItems campaign sale in
  match Campaign.maxProductsCart campaign with
  | Some m => if negb (m =? 0) && (totalItems >? m) then false else true
  | None => true
  end.

(** The [reduce] of [_checkMinSaleValueRule]: line totals of the items
    whose [matchedCampaigns] includes the campaign code. *)
Definition totalValue (campaign : Campaign.t) (sale : Sale.t) : Z :=
  fold_left
    (fun prev cur =>
       if Js.includes (Item.matchedCampaigns cur) (Campaign.code campaign)
       then prev + Item.totalPrice cur else prev)
    (Sale.items sale) 0.

Definition _checkMinSaleValueRule (campaign : Campaign.t) (sale : Sale.t) : bool :=
  let totalValue := totalValue campaign sale in
  match Campaign.minSaleValue campaign with
  | Some m => if negb (m =? 0) && (totalValue <? m) then false else true
  | None => true
  end.

(** [cpf.replace(/\D/g, '')]: the decimal digits of the string. *)
Fixpoint digits (s : string) : string :=
  match s with
  | EmptyString => EmptyString
  | String c rest =>
      let n := nat_of_ascii c in
      if Nat.leb 48 n && Nat.leb n 57 then String c (digits rest) else digits rest
  end.

Definition optEqb (o : option string) (s : string) : bool :=
  match o with
  | Some x => String.eqb x s
  | None => false
  end.

(** [countDocuments({ cpf, usedCampaign })]. *)
Definition countDocuments (store : list Doc.t) (cpf campaignCode : string) : Z :=
  Z.of_nat (List.length
    (filter (fun d => String.eqb (Doc.cpf d) cpf && optEqb (Doc.usedCampaign d) campaignCode)
            store)).

Definition _checkCpfParticipationLimit (store : list Doc.t)
  (campaignCode : string) (cpfParticipationLimit : Z) (cpf : string) : bool :=
  let cpf := digits cpf in
  let participations := countDocuments store cpf campaignCode in
  if participations >=? cpfParticipationLimit then false else true.

(** The object returned by [_checkSaleCampaign]. *)
Record verdict : Type := mkVerdict {
  isValid : bool;
  reason : option string
}.

Definition invalid (r : string) : verdict := mkVerdict false (Some r).

Definition _checkSaleCampaign (store : list Doc.t)
  (campaign : Campaign.t) (sale : Sale.t) (cpf : string) : verdict * Sale.t :=
  if negb (_checkSalesChannelRule campaign sale) then
    (invalid "FAIL_SALES_CHANNEL_RULE", sale)
  else if negb (_checkSubsidiariesChannelRule campaign sale) then
    (invalid "FAIL_SALES_SUBSIDIARIES_RULE", sale)
  else if negb (_checkPaymentMethodRule campaign sale) then
    (invalid "FAIL_PAYMENT_METHOD_RULE", sale)
  else
    let '(followed, sale) := _checkItemsThatFollowRules campaign sale in
    if negb followed then
      (invalid "FAIL_ITEMS_RULE", sale)
    else if Js.truthy (Campaign.maxProductsCart campaign)
            && negb (_checkMaxsalesCartRule campaign sale) then
      (invalid "FAIL_MAX_SALES_CART_RULE", sale)
    else if Js.truthy (Campaign.minSaleValue campaign)
            && negb (_checkMinSaleValueRule campaign sale) then
      (invalid "FAIL_MIN_VALUE_RULE", sale)
    else if match Campaign.cpfParticipationLimit campaign with
            | Some limit =>
                negb (limit =? 0)
                && negb (_checkCpfParticipationLimit store (Campaign.code campaign) limit cpf)
            | None => false
            end then
      (invalid "FAIL_CPF_PARTICIPATION_LIMIT_RULE", sale)
    else
      (mkVerdict true None,
       Sale.set_matchedCampaigns sale (Sale.matchedCampaigns sale ++ [Campaign.code campaign])).

(** The first check that fails in an ordered list of checks, each given
    with its outcome and the reason it reports. *)
Fixpoint firstFailure (checks : list (bool * string)) : option string :=
  match checks with
  | [] => None
  | (passed, code) :: rest => if passed then firstFailure rest else Some code
  end.

(** The participation check of a campaign: it applies when the campaign
    sets a limit. *)
Definition participationAllowed (store : list Doc.t) (campaign : Campaign.t)
  (cpf : string) : bool :=
  match Campaign.cpfParticipationLimit campaign with
  | Some limit =>
      if limit =? 0 then true
      else _checkCpfParticipationLimit store (Campaign.code campaign) limit cpf
  | None => true
  end.

(** The seven checks of a campaign on a sale, in the order of the
    specification.  The cart and value checks read the items as the item
    check has annotated them. *)
Definition orderedChecks (store : list Doc.t) (campaign : Campaign.t)
  (sale : Sale.t) (cpf : string) : list (bool * string) :=
  let annotated := snd (_checkItemsThatFollowRules campaign sale) in
  [ (_checkSalesChannelRule campaign sale, "FAIL_SALES_CHANNEL_RULE");
    (_checkSubsidiariesChannelRule campaign sale, "FAIL_SALES_SUBSIDIARIES_RULE");
    (_checkPaymentMethodRule campaign sale, "FAIL_PAYMENT_METHOD_RULE");
    (fst (_checkItemsThatFollowRules campaign sale), "FAIL_ITEMS_RULE");
    (_checkMaxsalesCartRule campaign annotated, "FAIL_MAX_SALES_CART_RULE");
    (_checkMinSaleValueRule campaign annotated, "FAIL_MIN_VALUE_RULE");
    (participationAllowed store campaign cpf, "FAIL_CPF_PARTICIPATION_LIMIT_RULE") ].

(** Number of rules of the campaign that an item follows. *)
Definition followed (campaign : Campaign.t) (item : Item.t) : nat :=
  List.length (filter (fun rule => followsRule rule item) (Campaign.rules campaign)).

(** The item as the item check leaves it: the code pushed once per rule
    followed, [eligible] lowered. *)
Definition annotate (campaign : Campaign.t) (item : Item.t) : Item.t :=
  Item.set_matching item
    (Item.matchedCampaigns item ++ repeat (Campaign.code campaign) (followed campaign item))
    false.

(** Whether the annotated item counts for the campaign: its list held the
    code already, or it follows a rule. *)
Definition counts (campaign : Campaign.t) (item : Item.t) : bool :=
  Js.includes (Item.matchedCampaigns item) (Campaign.code campaign)
  || (0 <? followed campaign item)%nat.

(** Equality of a rule value and an item value. *)
Definition sameFacet (r i : option string) : bool :=
  match r, i with
  | Some a, Some b => String.eqb a b
  | None, None => true
  | _, _ => false
  end.

End Matcher.

(** ** Cashback Calculator: [_processSale] *)

Module Calculator.

(** [_.floor(item.unitPrice * (campaign.percentCashback / 100))], computed
    as the service does: the percentage is divided by 100 and multiplied by
    the price in binary64, then floored.  A non-finite product (a price or
    percentage beyond the range of amounts) has no integer value and is
    given as 0. *)
Definition unitCashbackOf (unitPrice : Z) (percentCashback : float) : Z :=
  match Js.Number.floor
          (PrimFloat.mul (Js.Number.ofZ unitPrice)
                         (PrimFloat.div percentCashback (Js.Number.ofZ 100))) with
  | Some z => z
  | None => 0
  end.

(** The callback of [sale.items.forEach] in percentage mode, with the
    running [total]. *)
Definition percentItem (code : string) (percentCashback : float)
  (st : list Item.t * Z) (item : Item.t) : list Item.t * Z :=
  let '(done, total) := st in
  if Js.includes (Item.matchedCampaigns item) code then
    let unitCashback := unitCashbackOf (Item.unitPrice item) percentCashback in
    let totalCashback := unitCashback * Item.quantity item in
    (done ++ [Item.set_cashback item true (Some unitCashback) (Some totalCashback)],
     total + totalCashback)
  else
    (done ++ [Item.set_cashback item false None None], total).

(** Lines 76 to 94: the mode of the campaign.  Returns the sale and the
    local [total], which only the percentage mode raises. *)
Definition applyMode (campaign : Campaign.t) (sale : Sale.t) : Sale.t * Z :=
  match Campaign.percentCashback campaign with
  | Some pct =>
      if Js.Number.truthyF pct then
        let '(items, total) :=
          fold_left (percentItem (Campaign.code campaign) pct) (Sale.items sale) ([], 0) in
        (Sale.set_totalCashback (Sale.set_items sale items) total, total)
      else (Sale.set_totalCashback sale (Campaign.valueCashback campaign), 0)
  | None => (Sale.set_totalCashback sale (Campaign.valueCashback campaign), 0)
  end.

(** Lines 96 to 103: the cap, tested against the local [total]. *)
Definition applyLimit (campaign : Campaign.t) (st : Sale.t * Z) : Sale.t :=
  let '(sale, total) := st in
  match Campaign.cashbackLimit campaign with
  | Some cashbackLimit =>
      if negb (cashbackLimit =? 0) && (cashbackLimit <? total) then
        Sale.set_items (Sale.set_totalCashback sale cashbackLimit)
          (map Item.delete_cashback (Sale.items sale))
      else sale
  | None => sale
  end.

(** Lines 55 to 74: credit and expiration dates. *)
Definition applyDates (calendar : Calendar.t) (campaign : Campaign.t) (sale : Sale.t)
  : Sale.t :=
  let verificationDate := Calendar.startOfLocalDay calendar (Sale.verification sale) in
  let creditDate :=
    if String.eqb (Sale.salesChannel sale) "PDV"
       && Js.truthy (Campaign.daysToCreditPdv campaign)
    then Calendar.addDays calendar verificationDate
           (match Campaign.daysToCreditPdv campaign with Some d => d | None => 0 end)
    else Calendar.addDays calendar verificationDate (Campaign.daysToCreditEcom campaign) in
  let expirateDate :=
    Calendar.endOfLocalDay calendar
      (Calendar.addDays calendar creditDate (Campaign.daysToRescue campaign)) in
  Sale.set_dates sale creditDate expirateDate.

(** [_processSale], without the [campaignData] snapshot, which is only
    reported to the event sink. *)
Definition _processSale (calendar : Calendar.t) (campaign : Campaign.t) (sale : Sale.t)
  : Sale.t :=
  let sale := Sale.set_usedCampaign sale (Campaign.code campaign) in
  let sale := applyDates calendar campaign sale in
  applyLimit campaign (applyMode campaign sale).

(** The item as the percentage mode leaves it. *)
Definition markItem (code : string) (percentCashback : float) (item : Item.t) : Item.t :=
  if Js.includes (Item.matchedCampaigns item) code then
    let unitCashback := unitCashbackOf (Item.unitPrice item) percentCashback in
    Item.set_cashback item true (Some unitCashback)
      (Some (unitCashback * Item.quantity item))
  else Item.set_cashback item false None None.

(** The total of the percentage mode: the sum of [totalCashback] over the
    items whose [matchedCampaigns] includes the code. *)
Definition computedTotal (code : string) (percentCashback : float)
  (items : list Item.t) : Z :=
  fold_right Z.add 0
    (map (fun item =>
            if Js.includes (Item.matchedCampaigns item) code
            then unitCashbackOf (Item.unitPrice item) percentCashback * Item.quantity item
            else 0)
         items).


(** What the specification asks of the unit cashback: the floor of the
    exact value of [unitPrice * percent / 100], for an integral percent. *)
Definition exactUnitCashback (unitPrice percent : Z) : Z :=
  (unitPrice * percent) / 100.

End Calculator.

(** ** Campaign Selector *)

Module Selector.

(** [_.sortBy(sales, ['totalCashback'])]: a stable sort in ascending order
    of the key (lodash documents [sortBy] as stable).  An element goes
    before the first element of the sorted tail whose key is not smaller. *)
Fixpoint insert (x : Sale.t) (sorted : list Sale.t) : list Sale.t :=
  match sorted with
  | [] => [x]
  | y :: rest =>
      if Sale.totalCashback x <=? Sale.totalCashback y then x :: y :: rest
      else y :: insert x rest
  end.

Fixpoint sortBy (sales : list Sale.t) : list Sale.t :=
  match sales with
  | [] => []
  | x :: rest => insert x (sortBy rest)
  end.

(** [Array.prototype.pop]: the last element, [undefined] on the empty
    array. *)
Fixpoint pop (l : list Sale.t) : option Sale.t :=
  match l with
  | [] => None
  | [x] => Some x
  | _ :: rest => pop rest
  end.

Definition _findSaleWithBetterCampaign (sales : list Sale.t) : option Sale.t :=
  pop (sortBy sales).

Definition _markEligibleItemsBasedOnUsedCampaign (sale : Sale.t) : Sale.t :=
  Sale.set_items sale
    (map (fun item =>
            Item.set_eligible item
              (match Sale.usedCampaign sale with
               | Some c => Js.includes (Item.matchedCampaigns item) c
               | None => false
               end))
         (Sale.items sale)).

(** The summary of a candidate stored in [saleWithOtherCampaigns]. *)
Definition summary (sale : Sale.t) : Alternative.t :=
  Alternative.mk (Sale.usedCampaign sale) (Sale.creditDate sale)
    (Sale.expirateDate sale) (Sale.totalCashback sale).

End Selector.

(** ** Evaluation of a sale against the candidate campaigns *)

Module Evaluation.

(** An entry of [invalidCampaigns]. *)
Record rejection : Type := mkRejection {
  reason : option string;
  campaign : string
}.

(** The [for await] loop of [_calculeCashback]: the sale is shared by all
    the rounds, so the annotations of one campaign are seen by the next. *)
Fixpoint checkAll (store : list Doc.t) (campaigns : list Campaign.t)
  (sale : Sale.t) (customerId : string)
  (validCampaigns : list Campaign.t) (invalidCampaigns : list rejection)
  : list Campaign.t * list rejection * Sale.t :=
  match campaigns with
  | [] => (validCampaigns, invalidCampaigns, sale)
  | campaign :: rest =>
      let '(v, sale) := Matcher._checkSaleCampaign store campaign sale customerId in
      if Matcher.isValid v
      then checkAll store rest sale customerId (validCampaigns ++ [campaign]) invalidCampaigns
      else checkAll store rest sale customerId validCampaigns
             (invalidCampaigns ++ [mkRejection (Matcher.reason v) (Campaign.code campaign)])
  end.

(** [_calculeCashback]: every valid campaign is applied to its own deep
    copy of the sale.  The list of campaigns is an array, so the test
    [!campaigns] is false. *)
Definition _calculeCashback (calendar : Calendar.t) (store : list Doc.t)
  (campaigns : list Campaign.t) (sale : Sale.t) (customerId : string)
  : Js.result (list Sale.t * list rejection) :=
  items <- Normalizer._processItems (Sale.items sale) ;;
  let sale := Sale.set_items sale items in
  let '(validCampaigns, invalidCampaigns, sale) :=
    checkAll store campaigns sale customerId [] [] in
  if (Z.of_nat (List.length validCampaigns) <? 1) then
    Js.Throw (Js.Error "SALE_NOT_MATCH_ANY_CAMPAIGN")
  else
    Js.Ok (map (fun validCampaign => Calculator._processSale calendar validCampaign sale)
               validCampaigns,
           invalidCampaigns).

End Evaluation.

(** ** Ledger: balance, allocation, redemption and cancellation *)

Module Ledger.

(** The sales collection.  Mongo keeps [_id] unique in a collection. *)
Definition store : Type := list Doc.t.

(** The value [$sum] reads from [availableCashback]: a missing field adds
    nothing. *)
Definition availableOf (d : Doc.t) : Z :=
  match Doc.availableCashback d with
  | Some a => a
  | None => 0
  end.

(** [_getBalance]: the aggregation yields one group when some document
    matches and none otherwise ([balanceAgg] is then [undefined]). *)
Definition _getBalance (st : store) (cpf : string) : option Z :=
  match filter (fun d => String.eqb (Doc.cpf d) cpf
                         && Status.eqb (Doc.status d) Status.AVAILABLE) st with
  | [] => None
  | matched => Some (fold_left (fun sum d => sum + availableOf d) matched 0)
  end.

(** [(balanceAgg && balanceAgg.balance) || 0]. *)
Definition balanceOf (balanceAgg : option Z) : Z :=
  match balanceAgg with
  | Some balance => if balance =? 0 then 0 else balance
  | None => 0
  end.

(** The filter of the [find] in [_useCashback]:
    [{ cpf, status: 'AVAILABLE', availableCashback: { $gt: 0 } }]. *)
Definition hasCashback (cpf : string) (d : Doc.t) : bool :=
  String.eqb (Doc.cpf d) cpf
  && Status.eqb (Doc.status d) Status.AVAILABLE
  && match Doc.availableCashback d with
     | Some a => a >? 0
     | None => false
     end.

(** Order of two dates in a Mongo sort: a missing date is the smallest. *)
Definition dateLeb (a b : option Z) : bool :=
  match a, b with
  | None, _ => true
  | Some _, None => false
  | Some x, Some y => x <=? y
  end.

(** [{ sort: { expirateDate: -1 } }]: descending [expirateDate], the
    latest expiration first.  Documents of equal date keep their order. *)
Fixpoint insertDesc (x : Doc.t) (sorted : list Doc.t) : list Doc.t :=
  match sorted with
  | [] => [x]
  | y :: rest =>
      if dateLeb (Doc.expirateDate y) (Doc.expirateDate x) then x :: y :: rest
      else y :: insertDesc x rest
  end.

Fixpoint sortDesc (l : list Doc.t) : list Doc.t :=
  match l with
  | [] => []
  | x :: rest => insertDesc x (sortDesc rest)
  end.

Definition findWithCashback (st : store) (cpf : string) : list Doc.t :=
  sortDesc (filter (hasCashback cpf) st).

(** [_createOrAddCashbackUseHistory]; the clock gives [date]. *)
Definition _createOrAddCashbackUseHistory (now : Z) (usedValue : Z)
  (invoiceKey : option string) (cashbackUseHistory : list UseEntry.t) (saleId : nat)
  : list UseEntry.t :=
  cashbackUseHistory ++ [UseEntry.mk usedValue invoiceKey saleId now].

Definition _createCashbackFontHistory (now : Z) (usedValue : Z)
  (invoiceKey : option string) (saleId : nat) : FontEntry.t :=
  FontEntry.mk usedValue invoiceKey saleId now.

(** Assignment of [availableCashback] and [cashbackUseHistory]. *)
Definition debit (d : Doc.t) (available : option Z) (h : list UseEntry.t) : Doc.t :=
  Doc.mk (Doc._id d) (Doc.cpf d) (Doc.status d) (Doc.invoiceKey d)
    (Doc.usedCampaign d) (Doc.totalCashback d) available
    (Doc.creditDate d) (Doc.expirateDate d) h (Doc.history d)
    (Doc.usedCashback d) (Doc.usedCashbackValue d) (Doc.items d)
    (Doc.matchedCampaigns d) (Doc.saleWithOtherCampaigns d) (Doc.userInMycash d).

(** The [while (usedValueAux)] loop of [_useCashback], from position [i] of
    [salesWithCashback] on (the argument is the rest of the array).  When
    the array is exhausted [salesWithCashback[i]] is [undefined] and reading
    its balance raises a [TypeError]. *)
Fixpoint consume (now : Z) (invoiceKey : option string) (saleId : nat)
  (salesWithCashback : list Doc.t) (usedValueAux : Z)
  (history : list FontEntry.t) (usedSales : list Doc.t)
  : Js.result (list FontEntry.t * list Doc.t) :=
  if usedValueAux =? 0 then Js.Ok (history, usedSales)
  else
    match salesWithCashback with
    | [] => Js.Throw Js.TypeError
    | sale :: rest =>
        match Doc.availableCashback sale with
        | Some available =>
            if available >=? usedValueAux then
              let sale' :=
                debit sale (Some (available - usedValueAux))
                  (_createOrAddCashbackUseHistory now usedValueAux invoiceKey
                     (Doc.cashbackUseHistory sale) saleId) in
              consume now invoiceKey saleId rest 0
                (history ++ [_createCashbackFontHistory now usedValueAux
                               (Doc.invoiceKey sale) (Doc._id sale)])
                (usedSales ++ [sale'])
            else if usedValueAux >? available then
              let sale' :=
                debit sale (Some 0)
                  (_createOrAddCashbackUseHistory now available invoiceKey
                     (Doc.cashbackUseHistory sale) saleId) in
              consume now invoiceKey saleId rest (usedValueAux - available)
                (history ++ [_createCashbackFontHistory now available
                               (Doc.invoiceKey sale) (Doc._id sale)])
                (usedSales ++ [sale'])
            else
              consume now invoiceKey saleId rest usedValueAux history (usedSales ++ [sale])
        | None =>
            consume now invoiceKey saleId rest usedValueAux history (usedSales ++ [sale])
        end
    end.

(** [updateOne({ _id }, { $set: { availableCashback, cashbackUseHistory } })]. *)
Definition updateOne (st : store) (usedSale : Doc.t) : store :=
  map (fun d =>
         if Nat.eqb (Doc._id d) (Doc._id usedSale)
         then debit d (Doc.availableCashback usedSale) (Doc.cashbackUseHistory usedSale)
         else d)
      st.

(** [_useCashback]: the documents are found, debited in memory, and
    written back once the loop has ended. *)
Definition _useCashback (now : Z) (usedValue : Z) (cpf : string)
  (invoiceKey : option string) (saleId : nat) (st : store)
  : Js.result (list FontEntry.t) * store :=
  let salesWithCashback := findWithCashback st cpf in
  match consume now invoiceKey saleId salesWithCashback usedValue [] [] with
  | Js.Throw e => (Js.Throw e, st)
  | Js.Ok (history, usedSales) => (Js.Ok history, fold_left updateOne usedSales st)
  end.

(** A received sale ([processSale]): the submission [data] and the [cpf]
    it is filed under, which [createAllSales] sets to the customer id of
    the submission. *)
Record received : Type := mkReceived {
  cpf : string;
  data : Sale.t
}.

(** The collaborators of [_generateCashback]: the clock, the calendar, the
    ban list, the campaign source (active, then expired campaigns of a
    date) and the user directory. *)
Record env : Type := mkEnv {
  now : Z;
  calendar : Calendar.t;
  isUserInBannedList : string -> bool;
  activeCampaigns : Z -> list Campaign.t;
  expiredCampaigns : Z -> list Campaign.t;
  getUserByCpf : string -> bool
}.

(** The [_id] given to a created document: one the collection does not
    hold. *)
Definition freshId (st : store) : nat :=
  S (fold_right Nat.max 0%nat (map Doc._id st)).

Definition optStringEqb (a b : option string) : bool :=
  match a, b with
  | Some x, Some y => String.eqb x y
  | None, None => true
  | _, _ => false
  end.

(** [findOne({ invoiceKey })]. *)
Definition findByInvoiceKey (st : store) (key : option string) : option Doc.t :=
  find (fun d => optStringEqb (Doc.invoiceKey d) key) st.

(** [findOne({ _id: id })]. *)
Definition findOne (st : store) (id : nat) : option Doc.t :=
  find (fun d => Nat.eqb (Doc._id d) id) st.

(** [findByIdAndUpdate(id, { $set: ... })] for an update [f]. *)
Definition findByIdAndUpdate (st : store) (id : nat) (f : Doc.t -> Doc.t) : store :=
  map (fun d => if Nat.eqb (Doc._id d) id then f d else d) st.

(** The document created from [_createUsedCashbackSale]. *)
Definition usedCashbackDoc (id : nat) (sale : Sale.t) : Doc.t :=
  Doc.mk id (Sale.customerId sale) Status.USED (Sale.invoiceKey sale)
    None None None None None [] [] (Sale.usedCashback sale)
    (Sale.usedCashbackValue sale) (Sale.items sale) [] [] false.

Definition set_history (h : list FontEntry.t) (user : bool) (d : Doc.t) : Doc.t :=
  Doc.mk (Doc._id d) (Doc.cpf d) (Doc.status d) (Doc.invoiceKey d)
    (Doc.usedCampaign d) (Doc.totalCashback d) (Doc.availableCashback d)
    (Doc.creditDate d) (Doc.expirateDate d) (Doc.cashbackUseHistory d) h
    (Doc.usedCashback d) (Doc.usedCashbackValue d) (Doc.items d)
    (Doc.matchedCampaigns d) (Doc.saleWithOtherCampaigns d) user.

(** The document upserted for an earning: [data] of [_generateCashback]. *)
Definition pendingDoc (id : nat) (best : Sale.t) (others : list Sale.t) (user : bool)
  : Doc.t :=
  Doc.mk id (Sale.customerId best) Status.PENDING (Sale.invoiceKey best)
    (Sale.usedCampaign best) (Some (Sale.totalCashback best)) None
    (Sale.creditDate best) (Sale.expirateDate best) [] [] false 0
    (Sale.items best) (Sale.matchedCampaigns best)
    (map Selector.summary others) user.

(** [_generateCashback].  The result is the stored document; the messages
    to the notification and event sinks are not part of the state.  The
    upsert of an earning inserts, since the test before it has found no
    document of that invoice key. *)
Definition _generateCashback (e : env) (processSale : received) (st : store)
  : Js.result (option Doc.t) * store :=
  let balance := balanceOf (_getBalance st (cpf processSale)) in
  let sale := data processSale in
  if Sale.usedCashback sale then
    if balance <? Sale.usedCashbackValue sale then
      (Js.Throw (Js.Error "INSUFFICIENT_FUNDS"), st)
    else
      let created := usedCashbackDoc (freshId st) sale in
      let st := st ++ [created] in
      match _useCashback (now e) (Sale.usedCashbackValue sale) (Sale.customerId sale)
              (Sale.invoiceKey sale) (Doc._id created) st with
      | (Js.Throw x, st) => (Js.Throw x, st)
      | (Js.Ok history, st) =>
          let user := getUserByCpf e (Sale.customerId sale) in
          let st := findByIdAndUpdate st (Doc._id created) (set_history history user) in
          (Js.Ok (findOne st (Doc._id created)), st)
      end
  else
    match findByInvoiceKey st (Sale.invoiceKey sale) with
    | Some _ => (Js.Throw (Js.Error "CONFLICT_DUPLICATE_INVOICE_KEY_ERROR"), st)
    | None =>
        if isUserInBannedList e (Sale.customerId sale) then
          (Js.Throw (Js.Error "USER_FOUND_BANNEDLIST"), st)
        else
          let campaigns :=
            activeCampaigns e (Sale.verification sale)
            ++ expiredCampaigns e (Sale.verification sale) in
          match Evaluation._calculeCashback (calendar e) st campaigns sale
                  (Sale.customerId sale) with
          | Js.Throw x => (Js.Throw x, st)
          | Js.Ok (saleWithCashback, _) =>
              match Selector._findSaleWithBetterCampaign saleWithCashback with
              | None => (Js.Throw Js.TypeError, st)
              | Some saleWithBestCashback =>
                  let best :=
                    Selector._markEligibleItemsBasedOnUsedCampaign saleWithBestCashback in
                  let user := getUserByCpf e (Sale.customerId sale) in
                  match findByInvoiceKey st (Sale.invoiceKey sale) with
                  | Some _ =>
                      (Js.Throw (Js.Error "CONFLICT_DUPLICATE_INVOICE_KEY_ERROR"), st)
                  | None =>
                      if negb (Js.truthyS (Sale.invoiceKey best)) then
                        (Js.Throw (Js.Error "CONFLICT_DUPLICATE_INVOICE_KEY_ERROR"), st)
                      else
                        let newSale :=
                          pendingDoc (freshId st) best saleWithCashback user in
                        (Js.Ok (Some newSale), st ++ [newSale])
                  end
              end
          end
    end.

(** The update of one source record in [cancel], on a document: the
    [$match] keeps the record named by the history entry unless it is
    EXPIRED, the [$set] adds the entry's value back and filters the use
    history. *)
Definition restoreDoc (id : nat) (h : FontEntry.t) (d : Doc.t) : Doc.t :=
  if Nat.eqb (Doc._id d) (FontEntry.saleId h)
     && negb (Status.eqb (Doc.status d) Status.EXPIRED)
  then debit d (Some (availableOf d + FontEntry.usedValue h))
         (filter (fun item => negb (Nat.eqb (UseEntry.saleId item) id))
                 (Doc.cashbackUseHistory d))
  else d.


(** The aggregation pipeline with its [$merge]: the matched record is
    replaced in the collection. *)
Definition restore (id : nat) (st : store) (h : FontEntry.t) : store :=
  map (restoreDoc id h) st.

Definition set_status (s : Status.t) (d : Doc.t) : Doc.t :=
  Doc.mk (Doc._id d) (Doc.cpf d) s (Doc.invoiceKey d)
    (Doc.usedCampaign d) (Doc.totalCashback d) (Doc.availableCashback d)
    (Doc.creditDate d) (Doc.expirateDate d) (Doc.cashbackUseHistory d)
    (Doc.history d) (Doc.usedCashback d) (Doc.usedCashbackValue d) (Doc.items d)
    (Doc.matchedCampaigns d) (Doc.saleWithOtherCampaigns d) (Doc.userInMycash d).

(** [{ $set: { status: 'CANCELED' },
       $unset: { creditDate, expirateDate, availableCashback } }]. *)
Definition void (d : Doc.t) : Doc.t :=
  Doc.mk (Doc._id d) (Doc.cpf d) Status.CANCELED (Doc.invoiceKey d)
    (Doc.usedCampaign d) (Doc.totalCashback d) None
    None None (Doc.cashbackUseHistory d)
    (Doc.history d) (Doc.usedCashback d) (Doc.usedCashbackValue d) (Doc.items d)
    (Doc.matchedCampaigns d) (Doc.saleWithOtherCampaigns d) (Doc.userInMycash d).

(** [cancel(id)]. *)
Definition cancel (id : nat) (st : store) : Js.result unit * store :=
  match findOne st id with
  | None => (Js.Throw (Js.Error "SALE_NOT_FOUND"), st)
  | Some sale =>
      if Status.eqb (Doc.status sale) Status.CANCELED then (Js.Ok tt, st)
      else if Status.eqb (Doc.status sale) Status.AVAILABLE then
        (Js.Throw (Js.Error "CANT_CANCEL_AVAILABLE_SALE"), st)
      else if Status.eqb (Doc.status sale) Status.EXPIRED then
        (Js.Throw (Js.Error "CANT_CANCEL_EXPIRED_SALE"), st)
      else if Doc.usedCashback sale then
        let history := Doc.history sale in
        let st := fold_left (restore id) history st in
        (Js.Ok tt, findByIdAndUpdate st id (set_status Status.CANCELED))
      else
        (Js.Ok tt, findByIdAndUpdate st id void)
  end.

(** The aggregate available balance of a customer: the sum of
    [availableCashback] over the AVAILABLE records. *)
Definition aggregateBalance (st : store) (cpf : string) : Z :=
  fold_right Z.add 0
    (map availableOf
         (filter (fun d => String.eqb (Doc.cpf d) cpf
                           && Status.eqb (Doc.status d) Status.AVAILABLE) st)).

(** The filter applied to [cashbackUseHistory] by a cancellation of [id]. *)
Definition notUsedBy (id : nat) (item : UseEntry.t) : bool :=
  negb (Nat.eqb (UseEntry.saleId item) id).

(** The amount a cancellation gives back to the record [docId]: the sum of
    the entries of the redemption's history that name it. *)
Definition restoredTo (history : list FontEntry.t) (docId : nat) : Z :=
  fold_right Z.add 0
    (map FontEntry.usedValue
         (filter (fun h => Nat.eqb (FontEntry.saleId h) docId) history)).

(** What the cancellation of the redemption [id], whose history is
    [history], does to a record [d] of the collection, [d'] being the record
    afterwards:
    - the record keeps its [_id]; the canceled sale becomes CANCELED and no
      other record changes status;
    - an EXPIRED record is left as it is;
    - a record that is not EXPIRED and is named by an entry gets
      [availableCashback] raised by the entries that name it, and loses the
      use-history entries of the canceled sale;
    - when the entries name distinct records, the raise is exactly the
      value of the entry;
    - a record that no entry names is left as it is. *)
Definition restored (id : nat) (history : list FontEntry.t) (d d' : Doc.t) : Prop :=
  Doc._id d' = Doc._id d
  /\ (Doc._id d = id -> Doc.status d' = Status.CANCELED)
  /\ (Doc._id d <> id -> Doc.status d' = Doc.status d)
  /\ (Doc.status d = Status.EXPIRED -> Doc._id d <> id -> d' = d)
  /\ (Doc.status d <> Status.EXPIRED ->
      (exists h, In h history /\ FontEntry.saleId h = Doc._id d) ->
      Doc.availableCashback d'
      = Some (availableOf d + restoredTo history (Doc._id d))
      /\ Doc.cashbackUseHistory d' = filter (notUsedBy id) (Doc.cashbackUseHistory d))
  /\ (forall h, In h history -> FontEntry.saleId h = Doc._id d ->
                Doc.status d <> Status.EXPIRED ->
                NoDup (map FontEntry.saleId history) ->
                Doc.availableCashback d' = Some (availableOf d + FontEntry.usedValue h))
  /\ ((forall h, In h history -> FontEntry.saleId h <> Doc._id d) ->
      Doc._id d <> id -> d' = d).

End Ledger.

(** ** Accounts: vocabulary for the state of a customer's records *)

Module Account.

(** The record counts in the balance of [cpf]: it is filed under [cpf] and
    AVAILABLE (the [$match] of [_getBalance]). *)
Definition counted (cpf : string) (d : Doc.t) : bool :=
  String.eqb (Doc.cpf d) cpf && Status.eqb (Doc.status d) Status.AVAILABLE.



(** No AVAILABLE balance is negative. *)
Definition sound (st : Ledger.store) : Prop :=
  Forall (fun d => 0 <= Ledger.availableOf d) st.





End Account.

(** ** Wallet: the read side of the ledger *)

Module Wallet.

(** The two deadlines that [wallet] derives from the clock with
    [date-fns] and the time zone of the process: [rescuesFrom now] stands
    for [_updateHours(offset, startOfDay(sub(now, { months: 2 })))] and
    [expiresBy now] for [_updateHours(offset, endOfDay(add(now, { months: 1 })))]. *)
Record horizon : Type := mkHorizon {
  rescuesFrom : Z -> Z;
  expiresBy : Z -> Z
}.

(** The value [$sum] reads from [totalCashback]. *)
Definition totalOf (d : Doc.t) : Z :=
  match Doc.totalCashback d with
  | Some t => t
  | None => 0
  end.

(** [{ cpf, creditDate: { $gte: since } }]: a record without the date
    does not match. *)
Definition creditedSince (cpf : string) (since : Z) (d : Doc.t) : bool :=
  String.eqb (Doc.cpf d) cpf
  && match Doc.creditDate d with
     | Some c => since <=? c
     | None => false
     end.

(** [{ cpf, status: 'AVAILABLE', expirateDate: { $lte: deadline } }]. *)
Definition expiringBy (cpf : string) (deadline : Z) (d : Doc.t) : bool :=
  String.eqb (Doc.cpf d) cpf
  && Status.eqb (Doc.status d) Status.AVAILABLE
  && match Doc.expirateDate d with
     | Some x => x <=? deadline
     | None => false
     end.

Definition _getLastRescues (h : horizon) (st : Ledger.store) (cpf : string) (now : Z)
  : option Z :=
  match filter (creditedSince cpf (rescuesFrom h now)) st with
  | [] => None
  | matched => Some (fold_left (fun sum d => sum + totalOf d) matched 0)
  end.

Definition _getCloseToExpire (h : horizon) (st : Ledger.store) (cpf : string) (now : Z)
  : option Z :=
  match filter (expiringBy cpf (expiresBy h now)) st with
  | [] => None
  | matched => Some (fold_left (fun sum d => sum + Ledger.availableOf d) matched 0)
  end.

(** The object returned by [wallet]. *)
Record summary : Type := mkSummary {
  balance : Z;
  lastRescues : Z;
  closeToExpire : Z
}.

(** [wallet]; each field is [(agg && agg.value) || 0].  The update sent to
    the user directory is not part of the state. *)
Definition wallet (h : horizon) (st : Ledger.store) (cpf : string) (now : Z) : summary :=
  let balanceAgg := Ledger._getBalance st cpf in
  let lastRescuesAgg := _getLastRescues h st cpf now in
  let closeToExpireAgg := _getCloseToExpire h st cpf now in
  mkSummary (Ledger.balanceOf balanceAgg) (Ledger.balanceOf lastRescuesAgg)
            (Ledger.balanceOf closeToExpireAgg).

End Wallet.

(** ** Directory: [userRegistered] *)

Module Directory.

(** The result of [updateMany]: the documents matched and those changed. *)
Record updated : Type := mkUpdated {
  matchedCount : nat;
  modifiedCount : nat
}.

(** [updateMany({ cpf }, { $set: { userInMycash: true } })]. *)
Definition userRegistered (cpf : string) (st : Ledger.store) : updated * Ledger.store :=
  let matched := filter (fun d => String.eqb (Doc.cpf d) cpf) st in
  (mkUpdated (List.length matched)
     (List.length (filter (fun d => negb (Doc.userInMycash d)) matched)),
   map (fun d =>
          if String.eqb (Doc.cpf d) cpf
          then Ledger.set_history (Doc.history d) true d
          else d)
       st).

End Directory.

(** ** Batch: [processUnprocessedSales] *)

Module Batch.








End Batch.

(** ** Simulation: [simulateCashback] *)

Module Simulation.

(** What ends a call: an exception of the evaluation, or the
    [ReferenceError] the engine raises when an undeclared name is read. *)
Inductive exn : Type :=
| Raised (e : Js.exn)
| ReferenceError (name : string).

(** The object the function builds for its caller. *)
Record simulated : Type := mkSimulated {
  saleWithBetterCampaign : Sale.t;
  invalidCampaigns : list Evaluation.rejection;
  saleWithOtherCampaigns : list Alternative.t
}.

Inductive result : Type :=
| Returned (r : simulated)
| Thrown (e : exn).

(** [simulateCashback], given the campaigns [_getActivesCampaigns]
    answers and the ban list.  The returned object reads
    [saleWithCashback], a name the function does not declare (the
    candidates are bound to [campaignsWithCashback]). *)
Definition simulateCashback (calendar : Calendar.t) (store : list Doc.t)
  (campaigns : list Campaign.t) (isUserInBannedList : string -> bool)
  (simulateData : Sale.t) : result :=
  match Evaluation._calculeCashback calendar store campaigns simulateData
          (Sale.customerId simulateData) with
  | Js.Throw e => Thrown (Raised e)
  | Js.Ok (campaignsWithCashback, invalidCampaigns) =>
      if isUserInBannedList (Sale.customerId simulateData) then
        Thrown (Raised (Js.Error "USER_FOUND_BANNEDLIST"))
      else
        match Selector._findSaleWithBetterCampaign campaignsWithCashback with
        | None => Thrown (Raised Js.TypeError)
        | Some saleWithBetterCampaign =>
            let saleWithBetterCampaign :=
              Selector._markEligibleItemsBasedOnUsedCampaign saleWithBetterCampaign in
            Thrown (ReferenceError "saleWithCashback")
        end
  end.

End Simulation.

(** ** Independence of the campaigns of one evaluation *)

Module Independence.

(** Two items look the same to the checks of the campaign [code]: they
    have the same facets, quantity and prices, and the code is in the
    [matchedCampaigns] of both or of neither. *)
Definition sameItem (code : string) (i i' : Item.t) : Prop :=
  (forall k, Item.get i' k = Item.get i k)
  /\ Item.unitPrice i' = Item.unitPrice i
  /\ Item.quantity i' = Item.quantity i
  /\ Item.totalPrice i' = Item.totalPrice i
  /\ Js.includes (Item.matchedCampaigns i') code
     = Js.includes (Item.matchedCampaigns i) code.

Definition sameSale (code : string) (s s' : Sale.t) : Prop :=
  Sale.salesChannel s' = Sale.salesChannel s
  /\ Sale.origin s' = Sale.origin s
  /\ Sale.paymentMethod s' = Sale.paymentMethod s
  /\ Forall2 (sameItem code) (Sale.items s) (Sale.items s').

(** The verdict on a campaign checked alone on the sale. *)
Definition alone (store : list Doc.t) (sale : Sale.t) (customerId : string)
  (campaign : Campaign.t) : Matcher.verdict :=
  fst (Matcher._checkSaleCampaign store campaign sale customerId).

(** The campaigns that are valid when checked alone, in order. *)
Definition accepted (store : list Doc.t) (sale : Sale.t) (customerId : string)
  (campaigns : list Campaign.t) : list Campaign.t :=
  filter (fun c => Matcher.isValid (alone store sale customerId c)) campaigns.

(** The rejections of the others, each with the reason found alone. *)
Definition refused (store : list Doc.t) (sale : Sale.t) (customerId : string)
  (campaigns : list Campaign.t) : list Evaluation.rejection :=
  map (fun c => Evaluation.mkRejection (Matcher.reason (alone store sale customerId c))
                  (Campaign.code c))
      (filter (fun c => negb (Matcher.isValid (alone store sale customerId c))) campaigns).

(** The items of [s] are those of [s0] after the item check of the
    campaign: same price and quantity, and the code is in
    [matchedCampaigns] exactly when the item counts for the campaign. *)
Definition marked (campaign : Campaign.t) (s0 s : Sale.t) : Prop :=
  Forall2 (fun i0 i =>
             Item.unitPrice i = Item.unitPrice i0
             /\ Item.quantity i = Item.quantity i0
             /\ Js.includes (Item.matchedCampaigns i) (Campaign.code campaign)
                = Matcher.counts campaign i0)
          (Sale.items s0) (Sale.items s).

(** The percentage of the campaign over the items that count for it. *)
Definition percentageTotal (campaign : Campaign.t) (percentCashback : float)
  (items : list Item.t) : Z :=
  fold_right Z.add 0
    (map (fun item =>
            if Matcher.counts campaign item
            then Calculator.unitCashbackOf (Item.unitPrice item) percentCashback
                 * Item.quantity item
            else 0)
         items).

(** The total after the cap. *)
Definition capped (campaign : Campaign.t) (total : Z) : Z :=
  match Campaign.cashbackLimit campaign with
  | Some limit => if negb (limit =? 0) && (limit <? total) then limit else total
  | None => total
  end.

End Independence.

(** ** Sample data *)

Module Sample.

(** An item with given part number, price and quantity and nothing else. *)
Definition rawItem (partnumber : string) (unitPrice quantity : Z) : Item.t :=
  Item.mk partnumber unitPrice quantity None None None None None None
    None None None 0 [] false None None.

(** A normalized item already matched to the campaigns [matched]. *)
Definition matchedItem (unitPrice quantity : Z) (matched : list string) : Item.t :=
  Item.mk "A1.RED.M" unitPrice quantity None None None None None None
    (Some "RED") (Some "A1") (Some "M") (unitPrice * quantity) matched false None None.

(** A calendar in which the local day is the UTC day (86400000 ms). *)
Definition utc : Calendar.t :=
  Calendar.mk (fun d n => d + n * 86400000)
              (fun d => d / 86400000 * 86400000)
              (fun d => d / 86400000 * 86400000 + 86399999).

(** A campaign of the e-commerce channel with one rule that asks nothing. *)
Definition campaign (code : string) (percentCashback : option float)
  (valueCashback : Z) (cashbackLimit : option Z) : Campaign.t :=
  Campaign.mk code ["ECOM"] None [AllowedPayment.mk "PIX" None]
    [Rule.mk None None None None None None None None None]
    percentCashback valueCashback cashbackLimit None None None None 1 30.

(** An e-commerce sale of the customer ["11122233344"]. *)
Definition sale (items : list Item.t) : Sale.t :=
  Sale.mk "ECOM" "SITE" [Payment.mk "PIX" None] items [] None 0
    "11122233344" (Some "NF-1") false 0 0 None None.

(** A candidate with a given campaign and total. *)
Definition candidate (code : string) (total : Z) : Sale.t :=
  Sale.set_totalCashback (Sale.set_usedCampaign (sale []) code) total.

(** An earned record of the customer ["11122233344"]. *)
Definition earned (id : nat) (status : Status.t) (available expirate : Z) : Doc.t :=
  Doc.mk id "11122233344" status (Some "NF-E") (Some "C10") (Some 1000)
    (Some available) (Some 0) (Some expirate) [] [] false 0 [] [] [] true.

(** A redemption of [value] by the same customer. *)
Definition redemption (value : Z) : Ledger.received :=
  Ledger.mkReceived "11122233344"
    (Sale.mk "ECOM" "SITE" [Payment.mk "PIX" None] [] [] None 0
       "11122233344" (Some "NF-R") true value 0 None None).

(** Collaborators that know no campaign and no user. *)
Definition quiet : Ledger.env :=
  Ledger.mkEnv 0 utc (fun _ => false) (fun _ => []) (fun _ => []) (fun _ => false).

(** A campaign source with two active campaigns and an expired one, and a
    directory that knows every customer. *)
Definition shop : Ledger.env :=
  Ledger.mkEnv 0 utc (fun _ => false)
    (fun _ => [campaign "P10" (Some 10%float) 0 None; campaign "FIX" None 150 None])
    (fun _ => [campaign "OLD" (Some 5%float) 0 None])
    (fun _ => true).

(** A purchase of two lines. *)
Definition purchase : Ledger.received :=
  Ledger.mkReceived "11122233344"
    (sale [rawItem "A1.RED.M" 1000 2; rawItem "B2.BLUE.G" 199 1]).

(** A campaign with two rules: the color RED, and the model A1 with a
    color facet that is the empty string. *)
Definition twoRules : Campaign.t :=
  Campaign.mk "TWO" ["ECOM"] None [AllowedPayment.mk "PIX" None]
    [Rule.mk None None None None None None (Some "RED") None None;
     Rule.mk None None None None None None (Some "") (Some "A1") None]
    (Some 10%float) 0 None None None None None 1 30.

(** The record [id] of a collection turned EXPIRED, as the sweep that runs
    outside the service does. *)
Definition expire (id : nat) (st : Ledger.store) : Ledger.store :=
  Ledger.findByIdAndUpdate st id (Ledger.set_status Status.EXPIRED).

(** The collection after a redemption of 1000 against balances 300 and
    700: the redemption is the document 3. *)
Definition afterRedemption : Ledger.store :=
  snd (Ledger._generateCashback quiet (redemption 1000)
         [earned 1 Status.AVAILABLE 300 10; earned 2 Status.AVAILABLE 700 20]).

End Sample.

(** ** Further sample data *)

Module Fixture.

Import Sample.

(** A campaign of the store channel only. *)
Definition storeOnly : Campaign.t :=
  Campaign.mk "PDV1" ["PDV"] None [AllowedPayment.mk "PIX" None]
    [Rule.mk None None None None None None None None None]
    (Some 20%float) 0 None None None None None 1 30.


Definition offers : list Campaign.t :=
  [campaign "P10" (Some 10%float) 0 None; storeOnly; campaign "FIX" None 150 None].

Definition cart : Sale.t :=
  sale [rawItem "A1.RED.M" 1000 2; rawItem "B2.BLUE.G" 199 1].

Definition candidatesOf (r : Js.result (list Sale.t * list Evaluation.rejection))
  : list Sale.t :=
  match r with
  | Js.Ok (candidates, _) => candidates
  | Js.Throw _ => []
  end.

Definition rejectedOf (r : Js.result (list Sale.t * list Evaluation.rejection))
  : list Evaluation.rejection :=
  match r with
  | Js.Ok (_, rejected) => rejected
  | Js.Throw _ => []
  end.

(** The cart evaluated against the three offers on an empty collection. *)
Definition evaluated : Js.result (list Sale.t * list Evaluation.rejection) :=
  Evaluation._calculeCashback utc [] offers cart "11122233344".


(** The document and the collection of a result of [_generateCashback]. *)
Definition storedDoc (r : Js.result (option Doc.t) * Ledger.store) : Doc.t :=
  match fst r with
  | Js.Ok (Some doc) => doc
  | _ => earned 0 Status.CANCELED 0 0
  end.

End Fixture.

(** * Properties *)

Unset Implicit Arguments.

(** ** Item Normalizer *)

Module NormalizerFacts.

Import Normalizer Sample.

(** [split] never yields the empty array. *)
Lemma split_not_nil (sep : ascii) (s : string) : Js.split sep s <> [].
Proof.
  destruct s as [|c rest]; simpl; [discriminate|].
  destruct (Ascii.eqb c sep); [discriminate|].
  destruct (Js.split sep rest); discriminate.
Qed.

(** Joining the segments with the separator gives the string back. *)
Lemma split_join (sep : ascii) (s : string) :
  String.concat (String sep EmptyString) (Js.split sep s) = s.
Proof.
  induction s as [|c rest IH]; simpl; [reflexivity|].
  destruct (Ascii.eqb c sep) eqn:E.
  - apply Ascii.eqb_eq in E; subst c.
    pose proof (split_not_nil sep rest) as Hn.
    destruct (Js.split sep rest) as [|h t]; [contradiction|].
    simpl in *. now rewrite IH.
  - pose proof (split_not_nil sep rest) as Hn.
    destruct (Js.split sep rest) as [|h t]; [contradiction|].
    destruct t as [|h' t']; simpl in *; now rewrite <- IH.
Qed.







End NormalizerFacts.

(** ** Campaign Rule Matcher *)

Module MatcherFacts.

Import Matcher.

Lemma includes_app (l1 l2 : list string) (s : string) :
  Js.includes (l1 ++ l2) s = Js.includes l1 s || Js.includes l2 s.
Proof.
  induction l1 as [|x l1 IH]; simpl; [reflexivity|].
  now rewrite IH, orb_assoc.
Qed.

Lemma includes_repeat (s : string) (k : nat) :
  Js.includes (repeat s k) s = (0 <? k)%nat.
Proof.
  destruct k; simpl; [reflexivity|].
  now rewrite String.eqb_refl.
Qed.

Lemma includes_In (l : list string) (s : string) :
  Js.includes l s = true <-> In s l.
Proof.
  induction l as [|x l IH]; simpl; [split; [discriminate | tauto]|].
  rewrite orb_true_iff, IH, String.eqb_eq. tauto.
Qed.

Lemma followsRule_set_matching (rule : Rule.t) (item : Item.t)
  (mc : list string) (e : bool) :
  followsRule rule (Item.set_matching item mc e) = followsRule rule item.
Proof. reflexivity. Qed.

Lemma set_matching_twice (item : Item.t) (m1 m2 : list string) (e1 e2 : bool) :
  Item.set_matching (Item.set_matching item m1 e1) m2 e2 = Item.set_matching item m2 e2.
Proof. reflexivity. Qed.

(** The [rules.forEach] of one item, in closed form. *)
Lemma rules_forEach (code : string) (rules : list Rule.t) (item : Item.t)
  (mc : list string) (e h : bool) :
  fold_left
    (fun (acc : Item.t * bool) rule =>
       let '(it, h) := acc in
       if followsRule rule it
       then (Item.set_matching it (Item.matchedCampaigns it ++ [code]) (Item.eligible it), true)
       else (it, h))
    rules (Item.set_matching item mc e, h)
  = (Item.set_matching item
       (mc ++ repeat code (List.length (filter (fun rule => followsRule rule item) rules))) e,
     h || (0 <? List.length (filter (fun rule => followsRule rule item) rules))%nat).
Proof.
  revert mc h. induction rules as [|rule rules IH]; intros mc h; simpl.
  - now rewrite app_nil_r, orb_false_r.
  - rewrite followsRule_set_matching.
    destruct (followsRule rule item); simpl.
    + rewrite set_matching_twice, IH, <- app_assoc. simpl.
      now rewrite orb_true_r.
    + apply IH.
Qed.

Lemma checkItem_closed (campaign : Campaign.t) (done : list Item.t) (has : bool)
  (item : Item.t) :
  checkItem campaign (done, has) item
  = (done ++ [annotate campaign item], has || (0 <? followed campaign item)%nat).
Proof.
  unfold checkItem, annotate, followed. simpl fst; simpl snd.
  now rewrite rules_forEach.
Qed.

Lemma items_forEach (campaign : Campaign.t) (items done : list Item.t) (has : bool) :
  fold_left (checkItem campaign) items (done, has)
  = (done ++ map (annotate campaign) items,
     has || existsb (fun item => (0 <? followed campaign item)%nat) items).
Proof.
  revert done has. induction items as [|item items IH]; intros done has; simpl.
  - now rewrite app_nil_r, orb_false_r.
  - rewrite checkItem_closed, IH, <- app_assoc, orb_assoc. reflexivity.
Qed.

(** [_checkItemsThatFollowRules] in closed form. *)
Lemma checkItemsThatFollowRules_closed (campaign : Campaign.t) (sale : Sale.t) :
  _checkItemsThatFollowRules campaign sale
  = (existsb (fun item => (0 <? followed campaign item)%nat) (Sale.items sale),
     Sale.set_items sale (map (annotate campaign) (Sale.items sale))).
Proof.
  unfold _checkItemsThatFollowRules. now rewrite items_forEach.
Qed.

Lemma annotate_counts (campaign : Campaign.t) (item : Item.t) :
  Js.includes (Item.matchedCampaigns (annotate campaign item)) (Campaign.code campaign)
  = counts campaign item.
Proof.
  unfold annotate, counts. simpl.
  now rewrite includes_app, includes_repeat.
Qed.

(** A [reduce] that adds a value of the items that count, over the
    annotated items. *)
Lemma reduce_annotated (campaign : Campaign.t) (value : Item.t -> Z)
  (Hvalue : forall item, value (annotate campaign item) = value item)
  (items : list Item.t) (prev : Z) :
  fold_left
    (fun prev cur =>
       if Js.includes (Item.matchedCampaigns cur) (Campaign.code campaign)
       then prev + value cur else prev)
    (map (annotate campaign) items) prev
  = prev + fold_right Z.add 0
             (map (fun item => if counts campaign item then value item else 0) items).
Proof.
  revert prev.
  induction items as [|item items IH]; intros prev; cbn [map fold_left fold_right]; [lia|].
  rewrite annotate_counts, Hvalue.
  destruct (counts campaign item); rewrite IH; lia.
Qed.

(** The inner [rulesKeys.forEach] as a conjunction over the facets. *)
Lemma followsRule_forallb (rule : Rule.t) (item : Item.t) :
  followsRule rule item
  = forallb (fun k => negb (Js.truthyS (Rule.get rule k)
                            && differs (Rule.get rule k) (Item.get item k)))
            rulesKeys.
Proof.
  unfold followsRule.
  assert (H : forall keys b,
    fold_left
      (fun eligible ruleKey =>
         if Js.truthyS (Rule.get rule ruleKey)
            && differs (Rule.get rule ruleKey) (Item.get item ruleKey)
         then false else eligible) keys b
    = b && forallb (fun k => negb (Js.truthyS (Rule.get rule k)
                                   && differs (Rule.get rule k) (Item.get item k))) keys).
  { induction keys as [|k keys IH]; intros b; simpl.
    - now rewrite andb_true_r.
    - rewrite IH.
      destruct (Js.truthyS (Rule.get rule k) && differs (Rule.get rule k) (Item.get item k));
        simpl; [now rewrite andb_false_r | reflexivity]. }
  now rewrite H.
Qed.

Lemma differs_sameFacet (r i : option string) :
  Js.truthyS r = true -> differs r i = negb (sameFacet r i).
Proof.
  destruct r as [a|]; [|discriminate]. intros _.
  destruct i as [b|]; reflexivity.
Qed.

(** A rule is followed exactly when every facet it sets to a truthy value
    equals the item's; a facet that is absent or falsy asks nothing. *)
Lemma followsRule_iff (rule : Rule.t) (item : Item.t) :
  followsRule rule item = true <->
  (forall k, In k rulesKeys -> Js.truthyS (Rule.get rule k) = true ->
             sameFacet (Rule.get rule k) (Item.get item k) = true).
Proof.
  rewrite followsRule_forallb, forallb_forall. split; intros H k Hk.
  - intros Ht. specialize (H k Hk).
    rewrite Ht, (differs_sameFacet _ (Item.get item k) Ht) in H. simpl in H.
    now destruct (sameFacet (Rule.get rule k) (Item.get item k)).
  - destruct (Js.truthyS (Rule.get rule k)) eqn:Ht; [|reflexivity].
    rewrite (differs_sameFacet _ (Item.get item k) Ht), (H k Hk Ht). reflexivity.
Qed.

Lemma cart_gate (campaign : Campaign.t) (sale : Sale.t) :
  Js.truthy (Campaign.maxProductsCart campaign) && negb (_checkMaxsalesCartRule campaign sale)
  = negb (_checkMaxsalesCartRule campaign sale).
Proof.
  unfold _checkMaxsalesCartRule, Js.truthy.
  destruct (Campaign.maxProductsCart campaign) as [m|]; [|reflexivity].
  destruct (m =? 0); reflexivity.
Qed.

Lemma value_gate (campaign : Campaign.t) (sale : Sale.t) :
  Js.truthy (Campaign.minSaleValue campaign) && negb (_checkMinSaleValueRule campaign sale)
  = negb (_checkMinSaleValueRule campaign sale).
Proof.
  unfold _checkMinSaleValueRule, Js.truthy.
  destruct (Campaign.minSaleValue campaign) as [m|]; [|reflexivity].
  destruct (m =? 0); reflexivity.
Qed.

Lemma participation_gate (store : list Doc.t) (campaign : Campaign.t) (cpf : string) :
  match Campaign.cpfParticipationLimit campaign with
  | Some limit =>
      negb (limit =? 0)
      && negb (_checkCpfParticipationLimit store (Campaign.code campaign) limit cpf)
  | None => false
  end = negb (participationAllowed store campaign cpf).
Proof.
  unfold participationAllowed.
  destruct (Campaign.cpfParticipationLimit campaign) as [limit|]; [|reflexivity].
  destruct (limit =? 0); reflexivity.
Qed.

(** C6: [_checkSaleCampaign] runs the seven checks in the order sales
    channel, subsidiaries, payment method, item rules, cart size, minimum
    value, participation limit; a rejected pair reports the reason of the
    first check of that order that fails, and an accepted pair has the
    campaign code appended to the [matchedCampaigns] of the sale. *)
Theorem checkSaleCampaign_first_failure (store : list Doc.t)
  (campaign : Campaign.t) (sale : Sale.t) (cpf : string) :
  let annotated := snd (_checkItemsThatFollowRules campaign sale) in
  match firstFailure (orderedChecks store campaign sale cpf) with
  | Some code =>
      fst (_checkSaleCampaign store campaign sale cpf) = mkVerdict false (Some code)
  | None =>
      _checkSaleCampaign store campaign sale cpf
      = (mkVerdict true None,
         Sale.set_matchedCampaigns annotated
           (Sale.matchedCampaigns annotated ++ [Campaign.code campaign]))
  end.
Proof.
  unfold _checkSaleCampaign, orderedChecks, firstFailure, invalid.
  destruct (_checkSalesChannelRule campaign sale); simpl; [|reflexivity].
  destruct (_checkSubsidiariesChannelRule campaign sale); simpl; [|reflexivity].
  destruct (_checkPaymentMethodRule campaign sale); simpl; [|reflexivity].
  destruct (_checkItemsThatFollowRules campaign sale) as [followed annotated]; simpl.
  destruct followed; simpl; [|reflexivity].
  rewrite cart_gate, value_gate, participation_gate.
  destruct (_checkMaxsalesCartRule campaign annotated); simpl; [|reflexivity].
  destruct (_checkMinSaleValueRule campaign annotated); simpl; [|reflexivity].
  destruct (participationAllowed store campaign cpf); reflexivity.
Qed.

(** C10: the item check pushes the campaign code on an item once per rule
    the item follows, so the list can hold the code several times; the cart
    and value sums test membership and add each item once; a rule is
    followed when every facet it sets to a truthy value equals the item's,
    so an absent or falsy facet (the empty string) asks nothing. *)
Theorem item_matching_pushes_once_per_rule (campaign : Campaign.t) (sale : Sale.t) :
  let annotated := snd (_checkItemsThatFollowRules campaign sale) in
  map Item.matchedCampaigns (Sale.items annotated)
  = map (fun item =>
           Item.matchedCampaigns item
           ++ repeat (Campaign.code campaign) (followed campaign item))
        (Sale.items sale)
  /\ totalItems campaign annotated
     = fold_right Z.add 0
         (map (fun item => if counts campaign item then Item.quantity item else 0)
              (Sale.items sale))
  /\ totalValue campaign annotated
     = fold_right Z.add 0
         (map (fun item => if counts campaign item then Item.totalPrice item else 0)
              (Sale.items sale))
  /\ (forall rule item,
        followsRule rule item = true <->
        (forall k, In k rulesKeys -> Js.truthyS (Rule.get rule k) = true ->
                   sameFacet (Rule.get rule k) (Item.get item k) = true))
  /\ (forall rule item k,
        Rule.get rule k = Some EmptyString ->
        Js.truthyS (Rule.get rule k)
        && differs (Rule.get rule k) (Item.get item k) = false).
Proof.
  intros annotated. subst annotated.
  rewrite checkItemsThatFollowRules_closed. simpl snd.
  repeat split.
  - simpl. rewrite map_map. reflexivity.
  - unfold totalItems. simpl Sale.items.
    now rewrite (reduce_annotated campaign Item.quantity (fun _ => eq_refl)).
  - unfold totalValue. simpl Sale.items.
    now rewrite (reduce_annotated campaign Item.totalPrice (fun _ => eq_refl)).
  - apply followsRule_iff.
  - apply followsRule_iff.
  - intros rule item k ->. reflexivity.
Qed.

End MatcherFacts.

(** ** Cashback Calculator *)

Module CalculatorFacts.

Import Calculator Sample.

(** The [forEach] of the percentage mode in closed form. *)
Lemma percent_forEach (code : string) (pct : float) (items done : list Item.t) (total : Z) :
  fold_left (percentItem code pct) items (done, total)
  = (done ++ map (markItem code pct) items, total + computedTotal code pct items).
Proof.
  revert done total.
  induction items as [|item items IH]; intros done total;
    cbn [fold_left map computedTotal fold_right].
  - now rewrite app_nil_r, Z.add_0_r.
  - unfold percentItem at 2, markItem at 1.
    destruct (Js.includes (Item.matchedCampaigns item) code);
      rewrite IH, <- app_assoc; unfold computedTotal; simpl; f_equal; lia.
Qed.

(** Percentage mode: every item whose [matchedCampaigns] includes the code
    is made eligible with [unitCashback] the floored binary64 product and
    [totalCashback = unitCashback * quantity]; every other item is made
    ineligible and loses both fields; [sale.totalCashback] is the sum over
    the matched items. *)
Lemma applyMode_percent (campaign : Campaign.t) (sale : Sale.t) (pct : float) :
  Campaign.percentCashback campaign = Some pct ->
  Js.Number.truthyF pct = true ->
  applyMode campaign sale
  = (Sale.set_totalCashback
       (Sale.set_items sale (map (markItem (Campaign.code campaign) pct) (Sale.items sale)))
       (computedTotal (Campaign.code campaign) pct (Sale.items sale)),
     computedTotal (Campaign.code campaign) pct (Sale.items sale)).
Proof.
  intros Hp Ht. unfold applyMode. rewrite Hp, Ht, percent_forEach. reflexivity.
Qed.

(** Fixed mode: the total is the campaign's value and the local [total]
    stays 0. *)
Lemma applyMode_fixed (campaign : Campaign.t) (sale : Sale.t) :
  Campaign.percentCashback campaign = None ->
  applyMode campaign sale
  = (Sale.set_totalCashback sale (Campaign.valueCashback campaign), 0).
Proof.
  intros Hp. unfold applyMode. now rewrite Hp.
Qed.


(** C3 at the failing input: a 29 percent campaign and a matched item of
    unit price 100.  The service computes [100 * (29 / 100)] in binary64,
    which is [28.999999999999996], and floors it to 28; the floor of the
    exact value [100 * 29 / 100] is 29. *)
Theorem percent_unit_cashback_at_29_percent :
  let campaign := campaign "C29" (Some 29%float) 0 None in
  let sale' := _processSale utc campaign (sale [matchedItem 100 1 ["C29"]]) in
  map Item.eligible (Sale.items sale') = [true]
  /\ map Item.unitCashback (Sale.items sale') = [Some 28]
  /\ map Item.totalCashback (Sale.items sale') = [Some 28]
  /\ Sale.totalCashback sale' = 28
  /\ exactUnitCashback 100 29 = 29.
Proof.
  vm_compute. repeat split; reflexivity.
Qed.




End CalculatorFacts.

(** ** Campaign Selector *)

Module SelectorFacts.

Import Selector Sample.

Lemma insert_not_nil (x : Sale.t) (s : list Sale.t) : insert x s <> [].
Proof.
  destruct s as [|y s]; simpl; [discriminate|].
  destruct (Sale.totalCashback x <=? Sale.totalCashback y); discriminate.
Qed.

Lemma pop_cons (y : Sale.t) (s : list Sale.t) : s <> [] -> pop (y :: s) = pop s.
Proof. destruct s; [contradiction | reflexivity]. Qed.

Lemma pop_In (s : list Sale.t) (m : Sale.t) : pop s = Some m -> In m s.
Proof.
  induction s as [|y s IH]; [discriminate|].
  destruct s as [|z s]; simpl in *.
  - intros [= ->]. now left.
  - intros H. right. apply IH, H.
Qed.

Lemma In_insert (x y : Sale.t) (s : list Sale.t) : In y (insert x s) -> y = x \/ In y s.
Proof.
  induction s as [|z s IH]; simpl.
  - intros [->|[]]. now left.
  - destruct (Sale.totalCashback x <=? Sale.totalCashback z); simpl.
    + intros [->|[->|H]]; auto.
    + intros [->|H]; auto. destruct (IH H); auto.
Qed.

Lemma In_sortBy (y : Sale.t) (l : list Sale.t) : In y (sortBy l) -> In y l.
Proof.
  induction l as [|x l IH]; simpl; [tauto|].
  intros H. destruct (In_insert _ _ _ H) as [->|H']; auto.
Qed.

(** An element greater than all the others ends up last. *)
Lemma pop_insert_greatest (x : Sale.t) (s : list Sale.t) :
  Forall (fun y => Sale.totalCashback y < Sale.totalCashback x) s ->
  pop (insert x s) = Some x.
Proof.
  induction 1 as [|y s Hy _ IH]; simpl; [reflexivity|].
  apply Z.leb_gt in Hy. rewrite Hy.
  now rewrite pop_cons by apply insert_not_nil.
Qed.

(** An element that is not greater than some other does not end up last. *)
Lemma pop_insert_covered (x : Sale.t) (s : list Sale.t) :
  Exists (fun y => Sale.totalCashback x <= Sale.totalCashback y) s ->
  pop (insert x s) = pop s.
Proof.
  induction s as [|y s IH]; intros H; [inversion H|]. simpl insert.
  destruct (Sale.totalCashback x <=? Sale.totalCashback y) eqn:E.
  - now rewrite pop_cons by discriminate.
  - inversion H as [? ? Hy | ? ? Hs]; subst.
    + apply Z.leb_gt in E. lia.
    + rewrite pop_cons by apply insert_not_nil.
      rewrite (IH Hs). symmetry. apply pop_cons.
      intros ->. inversion Hs.
Qed.

(** The selected sale splits the candidates: none before it has a greater
    total and all after it have a smaller one. *)
Lemma findSaleWithBetterCampaign_split (sales : list Sale.t) :
  sales <> [] ->
  exists best before after,
    _findSaleWithBetterCampaign sales = Some best
    /\ sales = before ++ best :: after
    /\ Forall (fun s => Sale.totalCashback s <= Sale.totalCashback best) before
    /\ Forall (fun s => Sale.totalCashback s < Sale.totalCashback best) after.
Proof.
  unfold _findSaleWithBetterCampaign.
  induction sales as [|x rest IH]; intros Hne; [contradiction|].
  destruct rest as [|x' rest'].
  - exists x, [], []. repeat split; constructor.
  - destruct IH as (m & before & after & Hpop & Hsplit & Hb & Ha); [discriminate|].
    remember (x' :: rest') as rest eqn:Hrest. simpl sortBy.
    destruct (Z.lt_ge_cases (Sale.totalCashback m) (Sale.totalCashback x)) as [Hlt|Hge].
    + exists x, [], rest. repeat split; [|constructor|].
      * apply pop_insert_greatest. apply Forall_forall. intros y Hy.
        apply In_sortBy in Hy. rewrite Hsplit in Hy.
        apply in_app_or in Hy. rewrite Forall_forall in Hb, Ha.
        destruct Hy as [Hy|[<-|Hy]]; [specialize (Hb _ Hy) | | specialize (Ha _ Hy)]; lia.
      * rewrite Hsplit. apply Forall_forall. intros y Hy.
        apply in_app_or in Hy. rewrite Forall_forall in Hb, Ha.
        destruct Hy as [Hy|[<-|Hy]]; [specialize (Hb _ Hy) | | specialize (Ha _ Hy)]; lia.
    + exists m, (x :: before), after. repeat split.
      * rewrite pop_insert_covered; [exact Hpop|].
        apply Exists_exists. exists m. split; [apply pop_In, Hpop | lia].
      * now rewrite Hsplit.
      * constructor; [lia | exact Hb].
      * exact Ha.
Qed.



End SelectorFacts.

(** ** Ledger *)

Module LedgerFacts.

Import Ledger Sample.

Lemma fold_left_sum (l : list Doc.t) (acc : Z) :
  fold_left (fun sum d => sum + availableOf d) l acc
  = acc + fold_right Z.add 0 (map availableOf l).
Proof.
  revert acc. induction l as [|d l IH]; intros acc; simpl; [lia|].
  rewrite IH. lia.
Qed.

(** The balance read by the service is the aggregate available balance. *)
Lemma balanceOf_getBalance (st : store) (cpf : string) :
  balanceOf (_getBalance st cpf) = aggregateBalance st cpf.
Proof.
  unfold _getBalance, aggregateBalance.
  destruct (filter _ st) as [|d l] eqn:E; [reflexivity|].
  unfold balanceOf. rewrite fold_left_sum.
  destruct (0 + fold_right Z.add 0 (map availableOf (d :: l)) =? 0) eqn:Z0.
  - apply Z.eqb_eq in Z0. lia.
  - lia.
Qed.

(** C2: a redemption whose amount exceeds the aggregate available balance
    of the customer (the [cpf] the received sale is filed under) fails with
    [INSUFFICIENT_FUNDS] and leaves the collection as it was: the test
    precedes every write. *)
Theorem redemption_insufficient_funds (e : env) (processSale : received) (st : store) :
  Sale.usedCashback (data processSale) = true ->
  aggregateBalance st (cpf processSale) < Sale.usedCashbackValue (data processSale) ->
  _generateCashback e processSale st
  = (Js.Throw (Js.Error "INSUFFICIENT_FUNDS"), st).
Proof.
  intros Hused Hlt. unfold _generateCashback.
  rewrite Hused, balanceOf_getBalance.
  apply Z.ltb_lt in Hlt. now rewrite Hlt.
Qed.

(** C2 at work: balances 300 and 700, redemption of 1001. *)
Lemma redemption_insufficient_funds_witness :
  _generateCashback quiet (redemption 1001)
    [earned 1 Status.AVAILABLE 300 10; earned 2 Status.AVAILABLE 700 20]
  = (Js.Throw (Js.Error "INSUFFICIENT_FUNDS"),
     [earned 1 Status.AVAILABLE 300 10; earned 2 Status.AVAILABLE 700 20]).
Proof.
  apply (redemption_insufficient_funds quiet (redemption 1001)
           [earned 1 Status.AVAILABLE 300 10; earned 2 Status.AVAILABLE 700 20]).
  - reflexivity.
  - vm_compute. reflexivity.
Defined.

(** C1 at the failing input: record 1 expires at instant 10 with balance
    300, record 2 expires at instant 20 with balance 700.  A redemption of
    300 is taken from record 2, the later expiration, and record 1 is not
    touched; a redemption of 1000 takes 700 from record 2 first and 300 from
    record 1 second. *)
Theorem useCashback_takes_latest_expiration_first :
  let st := [earned 1 Status.AVAILABLE 300 10; earned 2 Status.AVAILABLE 700 20] in
  map Doc._id (findWithCashback st "11122233344") = [2%nat; 1%nat]
  /\ (let '(history, st') := _useCashback 0 300 "11122233344" (Some "NF-R") 9 st in
      history = Js.Ok [FontEntry.mk 300 (Some "NF-E") 2 0]
      /\ map Doc.availableCashback st' = [Some 300; Some 400])
  /\ (let '(history, st') := _useCashback 0 1000 "11122233344" (Some "NF-R") 9 st in
      history = Js.Ok [FontEntry.mk 700 (Some "NF-E") 2 0; FontEntry.mk 300 (Some "NF-E") 1 0]
      /\ map Doc.availableCashback st' = [Some 0; Some 0]).
Proof.
  vm_compute. repeat split; reflexivity.
Qed.

(** *** Cancellation *)

Lemma findOne_Some (st : store) (id : nat) (sale : Doc.t) :
  findOne st id = Some sale -> In sale st /\ Doc._id sale = id.
Proof.
  unfold findOne. intros H. apply find_some in H.
  destruct H as [Hin Heq]. apply Nat.eqb_eq in Heq. now split.
Qed.

Lemma findOne_None (st : store) (id : nat) :
  (forall d, In d st -> Doc._id d <> id) -> findOne st id = None.
Proof.
  unfold findOne. induction st as [|d st IH]; intros H; simpl; [reflexivity|].
  destruct (Nat.eqb (Doc._id d) id) eqn:E.
  - apply Nat.eqb_eq in E. exfalso. apply (H d); [now left | exact E].
  - apply IH. intros d' Hd'. apply H. now right.
Qed.

(** C7, the error of the specification against the code: for a missing
    sale the service throws [SALE_NOT_FOUND], not [NOT_FOUND]. *)
Lemma cancel_missing_sale_error :
  cancel 7 [] = (Js.Throw (Js.Error "SALE_NOT_FOUND"), [])
  /\ fst (cancel 7 []) <> Js.Throw (Js.Error "NOT_FOUND").
Proof.
  split; [reflexivity | discriminate].
Qed.

(** C7, as the code has it: [cancel] of an id that no sale has fails with
    [SALE_NOT_FOUND]; of an AVAILABLE sale, with
    [CANT_CANCEL_AVAILABLE_SALE]; of an EXPIRED sale, with
    [CANT_CANCEL_EXPIRED_SALE]; of a CANCELED sale it succeeds and changes
    nothing, also when repeated; no failing case changes the collection. *)
Theorem cancel_guards (id : nat) (st : store) :
  ((forall d, In d st -> Doc._id d <> id) ->
   cancel id st = (Js.Throw (Js.Error "SALE_NOT_FOUND"), st))
  /\ (forall sale, findOne st id = Some sale ->
      (Doc.status sale = Status.AVAILABLE ->
       cancel id st = (Js.Throw (Js.Error "CANT_CANCEL_AVAILABLE_SALE"), st))
      /\ (Doc.status sale = Status.EXPIRED ->
          cancel id st = (Js.Throw (Js.Error "CANT_CANCEL_EXPIRED_SALE"), st))
      /\ (Doc.status sale = Status.CANCELED ->
          cancel id st = (Js.Ok tt, st)
          /\ cancel id (snd (cancel id st)) = (Js.Ok tt, st))).
Proof.
  split.
  - intros H. unfold cancel. now rewrite (findOne_None st id H).
  - intros sale Hfind.
    assert (Hc : Doc.status sale = Status.CANCELED -> cancel id st = (Js.Ok tt, st)).
    { intros Hs. unfold cancel. now rewrite Hfind, Hs. }
    split; [|split].
    + intros Hs. unfold cancel. now rewrite Hfind, Hs.
    + intros Hs. unfold cancel. now rewrite Hfind, Hs.
    + intros Hs. split; [exact (Hc Hs)|].
      rewrite (Hc Hs). exact (Hc Hs).
Qed.

(** C7 at work. *)
Lemma cancel_guards_witness :
  cancel 5 [earned 1 Status.AVAILABLE 300 10] =
    (Js.Throw (Js.Error "SALE_NOT_FOUND"), [earned 1 Status.AVAILABLE 300 10])
  /\ cancel 1 [earned 1 Status.AVAILABLE 300 10] =
      (Js.Throw (Js.Error "CANT_CANCEL_AVAILABLE_SALE"), [earned 1 Status.AVAILABLE 300 10])
  /\ cancel 1 [earned 1 Status.EXPIRED 300 10] =
      (Js.Throw (Js.Error "CANT_CANCEL_EXPIRED_SALE"), [earned 1 Status.EXPIRED 300 10])
  /\ cancel 1 [earned 1 Status.CANCELED 300 10] =
      (Js.Ok tt, [earned 1 Status.CANCELED 300 10]).
Proof.
  split; [|split; [|split]].
  - apply (proj1 (cancel_guards 5 [earned 1 Status.AVAILABLE 300 10])).
    intros d [<-|[]]. discriminate.
  - apply (proj1 (proj2 (cancel_guards 1 [earned 1 Status.AVAILABLE 300 10])
                    (earned 1 Status.AVAILABLE 300 10) eq_refl)).
    reflexivity.
  - apply (proj1 (proj2 (proj2 (cancel_guards 1 [earned 1 Status.EXPIRED 300 10])
                    (earned 1 Status.EXPIRED 300 10) eq_refl))).
    reflexivity.
  - apply (proj2 (proj2 (proj2 (cancel_guards 1 [earned 1 Status.CANCELED 300 10])
                    (earned 1 Status.CANCELED 300 10) eq_refl))).
    reflexivity.
Defined.

Lemma debit_debit (d : Doc.t) (a b : option Z) (h k : list UseEntry.t) :
  debit (debit d a h) b k = debit d b k.
Proof. reflexivity. Qed.

Lemma filter_twice {A : Type} (f : A -> bool) (l : list A) :
  filter f (filter f l) = filter f l.
Proof.
  induction l as [|x l IH]; simpl; [reflexivity|].
  destruct (f x) eqn:E; simpl; [rewrite E|]; now rewrite ?IH.
Qed.

Lemma restoredTo_cons (h : FontEntry.t) (hs : list FontEntry.t) (docId : nat) :
  restoredTo (h :: hs) docId
  = (if Nat.eqb docId (FontEntry.saleId h) then FontEntry.usedValue h else 0)
    + restoredTo hs docId.
Proof.
  unfold restoredTo. simpl. rewrite (Nat.eqb_sym docId).
  destruct (Nat.eqb (FontEntry.saleId h) docId); simpl; lia.
Qed.

(** A record that an entry has already restored, after the other entries. *)
Lemma restoreDoc_fold_restored (id : nat) (d : Doc.t) (hs : list FontEntry.t)
  (a : Z) (uses : list UseEntry.t) :
  Doc.status d <> Status.EXPIRED ->
  fold_left (fun d h => restoreDoc id h d) hs (debit d (Some a) (filter (notUsedBy id) uses))
  = debit d (Some (a + restoredTo hs (Doc._id d))) (filter (notUsedBy id) uses).
Proof.
  intros Hs. revert a. induction hs as [|h hs IH]; intros a.
  - simpl. unfold restoredTo. simpl. now rewrite Z.add_0_r.
  - cbn [fold_left]. rewrite restoredTo_cons. unfold restoreDoc at 2.
    cbn [Doc._id Doc.status debit].
    destruct (Nat.eqb (Doc._id d) (FontEntry.saleId h)); cbn [andb].
    + destruct (Status.eqb (Doc.status d) Status.EXPIRED) eqn:E.
      * destruct (Doc.status d); try discriminate. contradiction.
      * cbn [negb]. rewrite debit_debit.
        change (filter (fun item => negb (Nat.eqb (UseEntry.saleId item) id)))
          with (filter (notUsedBy id)).
        cbn [Doc.cashbackUseHistory debit]. rewrite filter_twice.
        unfold availableOf at 1. cbn [Doc.availableCashback debit].
        rewrite IH. f_equal. f_equal. lia.
    + rewrite IH. f_equal.
Qed.

(** A record after all the entries of the history. *)
Lemma restoreDoc_fold (id : nat) (d : Doc.t) (hs : list FontEntry.t) :
  fold_left (fun d h => restoreDoc id h d) hs d
  = if negb (Status.eqb (Doc.status d) Status.EXPIRED)
       && existsb (fun h => Nat.eqb (Doc._id d) (FontEntry.saleId h)) hs
    then debit d (Some (availableOf d + restoredTo hs (Doc._id d)))
           (filter (notUsedBy id) (Doc.cashbackUseHistory d))
    else d.
Proof.
  induction hs as [|h hs IH]; cbn [fold_left existsb].
  - now rewrite andb_false_r.
  - unfold restoreDoc at 2.
    destruct (Status.eqb (Doc.status d) Status.EXPIRED) eqn:E.
    + rewrite andb_false_r. cbn [negb andb] in *. exact IH.
    + cbn [negb andb] in *. rewrite andb_true_r.
      destruct (Nat.eqb (Doc._id d) (FontEntry.saleId h)) eqn:Eh; cbn [orb].
      * change (filter (fun item => negb (Nat.eqb (UseEntry.saleId item) id)))
          with (filter (notUsedBy id)).
        rewrite restoreDoc_fold_restored.
        -- rewrite restoredTo_cons, Eh. f_equal. f_equal. lia.
        -- intros Hx. rewrite Hx in E. discriminate.
      * rewrite IH, restoredTo_cons, Eh. reflexivity.
Qed.

Lemma restore_fold (id : nat) (hs : list FontEntry.t) (st : store) :
  fold_left (restore id) hs st
  = map (fun d => fold_left (fun d h => restoreDoc id h d) hs d) st.
Proof.
  revert st. induction hs as [|h hs IH]; intros st; cbn [fold_left].
  - now rewrite map_id.
  - rewrite IH. unfold restore. now rewrite map_map.
Qed.

Lemma restoredTo_NoDup (hs : list FontEntry.t) (h : FontEntry.t) :
  NoDup (map FontEntry.saleId hs) -> In h hs ->
  restoredTo hs (FontEntry.saleId h) = FontEntry.usedValue h.
Proof.
  assert (Hout : forall hs docId, ~ In docId (map FontEntry.saleId hs) ->
                                  restoredTo hs docId = 0).
  { clear. induction hs as [|k hs IH]; intros docId Hn; [reflexivity|].
    rewrite restoredTo_cons. simpl in Hn.
    destruct (Nat.eqb docId (FontEntry.saleId k)) eqn:E.
    - apply Nat.eqb_eq in E. exfalso. apply Hn. left. now symmetry.
    - rewrite IH; [reflexivity|]. intros Hx. apply Hn. now right. }
  induction hs as [|k hs IH]; intros Hnd Hin; [contradiction|].
  simpl in Hnd. inversion Hnd as [|? ? Hk Hnd']; subst.
  rewrite restoredTo_cons. destruct Hin as [->|Hin].
  - rewrite Nat.eqb_refl, (Hout hs _ Hk). lia.
  - destruct (Nat.eqb (FontEntry.saleId h) (FontEntry.saleId k)) eqn:E.
    + apply Nat.eqb_eq in E. exfalso. apply Hk. rewrite <- E.
      apply in_map, Hin.
    + rewrite (IH Hnd' Hin). lia.
Qed.

Lemma existsb_named (d : Doc.t) (hs : list FontEntry.t) :
  existsb (fun h => Nat.eqb (Doc._id d) (FontEntry.saleId h)) hs = true
  <-> exists h, In h hs /\ FontEntry.saleId h = Doc._id d.
Proof.
  rewrite existsb_exists. split; intros (h & Hin & Hh); exists h; split; auto.
  - apply Nat.eqb_eq in Hh. now symmetry.
  - apply Nat.eqb_eq. now symmetry.
Qed.

Lemma status_eqb_eq (a b : Status.t) : Status.eqb a b = true <-> a = b.
Proof. destruct a, b; simpl; split; congruence. Qed.

(** The record after [cancel] of a redemption. *)
Lemma canceled_record (id : nat) (hs : list FontEntry.t) (d : Doc.t) :
  restored id hs d
    (let d1 := fold_left (fun d h => restoreDoc id h d) hs d in
     if Nat.eqb (Doc._id d1) id then set_status Status.CANCELED d1 else d1).
Proof.
  rewrite restoreDoc_fold. cbv zeta.
  pose proof (existsb_named d hs) as Hnamed.
  assert (Hex : Status.eqb (Doc.status d) Status.EXPIRED = true
                <-> Doc.status d = Status.EXPIRED) by apply status_eqb_eq.
  destruct (Status.eqb (Doc.status d) Status.EXPIRED);
    destruct (existsb (fun h => Nat.eqb (Doc._id d) (FontEntry.saleId h)) hs);
    cbn [negb andb Doc._id debit];
    destruct (Nat.eqb_spec (Doc._id d) id) as [Ei|Ei];
    unfold restored;
    refine (conj _ (conj _ (conj _ (conj _ (conj _ (conj _ _))))));
    try reflexivity;
    try (intros; exfalso; congruence);
    try (intros Hs; exfalso; apply Hs, Hex; reflexivity);
    try (intros h Hin Hh Hs; exfalso; apply Hs, Hex; reflexivity).
  all: try (intros _ _; split; reflexivity).
  all: try (intros h Hin Hh _ Hnd; cbn [Doc.availableCashback debit set_status];
            rewrite <- Hh, (restoredTo_NoDup hs h Hnd Hin); reflexivity).
  all: try (intros Hall; exfalso;
            destruct (proj1 Hnamed eq_refl) as (h & Hin & Hh); apply (Hall h Hin Hh)).
  all: try (intros _ Hn; apply Hnamed in Hn; discriminate).
  all: try (intros h Hin Hh _ _;
            assert (Hn : false = true) by (apply Hnamed; eauto); discriminate).
  all: intros Hs _; apply Hex in Hs; discriminate.
Qed.

Lemma Forall2_map_r {A B : Type} (R : A -> B -> Prop) (f : A -> B) (l : list A) :
  (forall x, R x (f x)) -> Forall2 R l (map f l).
Proof.
  intros H. induction l as [|x l IH]; simpl; constructor; auto.
Qed.

(** C8: the cancellation of a redemption (a sale with [usedCashback] that
    the guards let through) succeeds, and for every entry of its history
    the source record, unless EXPIRED, has [availableCashback] raised by the
    value of the entry and has lost the use-history entries of the canceled
    sale; EXPIRED records are as before; the canceled sale is CANCELED.
    [Ledger.restored] states this for each record of the collection. *)
Theorem cancel_redemption_restores_sources (id : nat) (st : store) (sale : Doc.t) :
  findOne st id = Some sale ->
  Doc.status sale <> Status.CANCELED ->
  Doc.status sale <> Status.AVAILABLE ->
  Doc.status sale <> Status.EXPIRED ->
  Doc.usedCashback sale = true ->
  exists st',
    cancel id st = (Js.Ok tt, st')
    /\ Forall2 (restored id (Doc.history sale)) st st'.
Proof.
  intros Hfind Hc Ha He Hu. unfold cancel. rewrite Hfind, Hu.
  destruct (Doc.status sale) eqn:Hs; try contradiction; cbn [Status.eqb].
  all: eexists; split; [reflexivity|].
  all: unfold findByIdAndUpdate; rewrite restore_fold, map_map.
  all: apply Forall2_map_r; intros d; apply canceled_record.
Qed.

(** C8 at work: the redemption of 1000 taken from records 1 and 2 is
    canceled, and the balances are 300 and 700 again. *)
Lemma cancel_redemption_restores_sources_witness :
  (exists st',
     cancel 3 afterRedemption = (Js.Ok tt, st')
     /\ Forall2 (restored 3 [FontEntry.mk 700 (Some "NF-E") 2 0;
                             FontEntry.mk 300 (Some "NF-E") 1 0])
                afterRedemption st')
  /\ map Doc.availableCashback afterRedemption = [Some 0; Some 0; None]
  /\ map Doc.availableCashback (snd (cancel 3 afterRedemption))
     = [Some 300; Some 700; None]
  /\ map Doc.cashbackUseHistory (snd (cancel 3 afterRedemption)) = [[]; []; []]
  /\ map Doc.status (snd (cancel 3 afterRedemption))
     = [Status.AVAILABLE; Status.AVAILABLE; Status.CANCELED].
Proof.
  split; [|vm_compute; repeat split; reflexivity].
  refine (cancel_redemption_restores_sources 3 afterRedemption _ eq_refl _ _ _ eq_refl);
    discriminate.
Defined.

(** *** Allocation *)

Lemma consume_zero (now : Z) (key : option string) (id : nat) (sales : list Doc.t)
  (history : list FontEntry.t) (usedSales : list Doc.t) :
  consume now key id sales 0 history usedSales = Js.Ok (history, usedSales).
Proof. destruct sales; reflexivity. Qed.

Lemma sum_insertDesc (x : Doc.t) (l : list Doc.t) :
  fold_right Z.add 0 (map availableOf (insertDesc x l))
  = availableOf x + fold_right Z.add 0 (map availableOf l).
Proof.
  induction l as [|y l IH]; simpl; [reflexivity|].
  destruct (dateLeb (Doc.expirateDate y) (Doc.expirateDate x)); simpl; [reflexivity|].
  rewrite IH. lia.
Qed.

Lemma sum_sortDesc (l : list Doc.t) :
  fold_right Z.add 0 (map availableOf (sortDesc l))
  = fold_right Z.add 0 (map availableOf l).
Proof.
  induction l as [|x l IH]; simpl; [reflexivity|].
  now rewrite sum_insertDesc, IH.
Qed.

Lemma Forall_insertDesc (P : Doc.t -> Prop) (x : Doc.t) (l : list Doc.t) :
  P x -> Forall P l -> Forall P (insertDesc x l).
Proof.
  intros Hx. induction 1 as [|y l Hy Hl IH]; simpl; [repeat constructor; exact Hx|].
  destruct (dateLeb (Doc.expirateDate y) (Doc.expirateDate x)); repeat constructor; auto.
Qed.

Lemma Forall_sortDesc (P : Doc.t -> Prop) (l : list Doc.t) :
  Forall P l -> Forall P (sortDesc l).
Proof.
  induction 1 as [|x l Hx Hl IH]; simpl; [constructor|].
  now apply Forall_insertDesc.
Qed.

(** The records found for a redemption hold the whole available balance
    when no AVAILABLE record has a negative one. *)
Lemma findWithCashback_sum (st : store) (cpf : string) :
  Forall (fun d => 0 <= availableOf d) st ->
  fold_right Z.add 0 (map availableOf (findWithCashback st cpf))
  = aggregateBalance st cpf.
Proof.
  unfold findWithCashback, aggregateBalance. rewrite sum_sortDesc.
  induction 1 as [|d st Hd _ IH]; [reflexivity|].
  cbn [filter]. unfold hasCashback at 1.
  destruct (String.eqb (Doc.cpf d) cpf && Status.eqb (Doc.status d) Status.AVAILABLE);
    cbn [andb]; [|exact IH].
  assert (Hzero : match Doc.availableCashback d with
                  | Some a => a >? 0
                  | None => false
                  end = false -> availableOf d = 0).
  { unfold availableOf in *. destruct (Doc.availableCashback d) as [a|]; [|reflexivity].
    rewrite Z.gtb_ltb. intros Hn. apply Z.ltb_ge in Hn. lia. }
  destruct (match Doc.availableCashback d with
            | Some a => a >? 0
            | None => false
            end); cbn [map fold_right]; rewrite IH; [reflexivity|].
  rewrite (Hzero eq_refl). reflexivity.
Qed.

Lemma findWithCashback_positive (st : store) (cpf : string) :
  Forall (fun d => Doc.availableCashback d = Some (availableOf d) /\ 0 < availableOf d)
         (findWithCashback st cpf).
Proof.
  unfold findWithCashback. apply Forall_sortDesc, Forall_forall.
  intros d Hd. apply filter_In in Hd. destruct Hd as [_ Hd].
  unfold hasCashback in Hd. unfold availableOf.
  destruct (Doc.availableCashback d) as [a|]; [|now rewrite andb_false_r in Hd].
  apply andb_true_iff in Hd. destruct Hd as [_ Hd].
  rewrite Z.gtb_ltb in Hd. apply Z.ltb_lt in Hd. now split.
Qed.

Lemma sortDesc_Permutation (l : list Doc.t) : Permutation (sortDesc l) l.
Proof.
  assert (Hins : forall x s, Permutation (insertDesc x s) (x :: s)).
  { intros x s. induction s as [|y s IH]; simpl; [reflexivity|].
    destruct (dateLeb (Doc.expirateDate y) (Doc.expirateDate x)); [reflexivity|].
    rewrite IH. apply perm_swap. }
  induction l as [|x l IH]; simpl; [reflexivity|].
  rewrite Hins. now constructor.
Qed.

(** The records kept by the filter of the [find] have distinct ids when
    those of the collection do. *)
Lemma hasCashback_ids (cpf : string) (st : store) :
  NoDup (map Doc._id st) -> NoDup (map Doc._id (filter (hasCashback cpf) st)).
Proof.
  induction st as [|d st IH]; intros Hst; [constructor|].
  cbn [map] in Hst. apply NoDup_cons_iff in Hst. destruct Hst as [Hd Hst].
  cbn [filter]. destruct (hasCashback cpf d); [|exact (IH Hst)].
  cbn [map]. apply NoDup_cons; [|exact (IH Hst)].
  intros Hin. apply Hd. apply in_map_iff in Hin. destruct Hin as (y & Hy & Hin).
  apply filter_In in Hin. apply in_map_iff. exists y. tauto.
Qed.

(** An update that names no record of the collection changes nothing. *)
Lemma updateOne_absent (st : store) (u : Doc.t) :
  ~ In (Doc._id u) (map Doc._id st) -> updateOne st u = st.
Proof.
  unfold updateOne. induction st as [|d st IH]; simpl; intros H; [reflexivity|].
  destruct (Nat.eqb_spec (Doc._id d) (Doc._id u)) as [E|E]; [exfalso; auto|].
  rewrite IH; auto.
Qed.

Lemma updateOne_ids (st : store) (u : Doc.t) :
  map Doc._id (updateOne st u) = map Doc._id st.
Proof.
  unfold updateOne. rewrite map_map. apply map_ext. intros d.
  destruct (Nat.eqb (Doc._id d) (Doc._id u)); reflexivity.
Qed.

Lemma updateOne_other (st : store) (u s : Doc.t) :
  In s st -> Doc._id s <> Doc._id u -> In s (updateOne st u).
Proof.
  intros Hin Hne. unfold updateOne. apply in_map_iff. exists s. split; [|exact Hin].
  destruct (Nat.eqb_spec (Doc._id s) (Doc._id u)); [contradiction | reflexivity].
Qed.

Lemma updateOne_cons (d : Doc.t) (st : store) (u : Doc.t) :
  updateOne (d :: st) u
  = (if Nat.eqb (Doc._id d) (Doc._id u)
     then debit d (Doc.availableCashback u) (Doc.cashbackUseHistory u)
     else d) :: updateOne st u.
Proof. reflexivity. Qed.

Lemma aggregateBalance_cons (d : Doc.t) (st : store) (cpf : string) :
  aggregateBalance (d :: st) cpf
  = (if String.eqb (Doc.cpf d) cpf && Status.eqb (Doc.status d) Status.AVAILABLE
     then availableOf d else 0)
    + aggregateBalance st cpf.
Proof.
  unfold aggregateBalance. cbn [filter].
  destruct (String.eqb (Doc.cpf d) cpf && Status.eqb (Doc.status d) Status.AVAILABLE);
    reflexivity.
Qed.

(** Writing a new balance on one record of the customer moves the
    aggregate balance by the difference. *)
Lemma updateOne_balance (st : store) (cpf : string) (s : Doc.t) (n : Z)
  (h : list UseEntry.t) :
  NoDup (map Doc._id st) -> In s st ->
  String.eqb (Doc.cpf s) cpf && Status.eqb (Doc.status s) Status.AVAILABLE = true ->
  aggregateBalance (updateOne st (debit s (Some n) h)) cpf
  = aggregateBalance st cpf - availableOf s + n.
Proof.
  intros Hnd Hin Hm. induction st as [|d st IH]; [contradiction|].
  simpl in Hnd. inversion Hnd as [|? ? Hd Hnd']; subst.
  rewrite updateOne_cons, !aggregateBalance_cons.
  change (Doc._id (debit s (Some n) h)) with (Doc._id s).
  destruct (Nat.eqb_spec (Doc._id d) (Doc._id s)) as [E|E].
  - assert (d = s) as ->.
    { destruct Hin as [->|Hin]; [reflexivity|].
      exfalso. apply Hd. rewrite E. apply in_map, Hin. }
    rewrite updateOne_absent by exact Hd.
    cbn [Doc.cpf Doc.status Doc.availableCashback Doc.cashbackUseHistory debit].
    rewrite Hm. unfold availableOf at 1. cbn [Doc.availableCashback debit]. lia.
  - destruct Hin as [->|Hin]; [contradiction|].
    rewrite (IH Hnd' Hin). lia.
Qed.

(** The loop and the writes that follow it, on records of the customer
    that are in the collection: the history makes up the amount and the
    aggregate balance falls by it. *)
Lemma consume_balance (now : Z) (key : option string) (id : nat) (cpf : string)
  (sales : list Doc.t) :
  Forall (fun d => Doc.availableCashback d = Some (availableOf d) /\ 0 < availableOf d)
         sales ->
  NoDup (map Doc._id sales) ->
  Forall (fun d => String.eqb (Doc.cpf d) cpf
                   && Status.eqb (Doc.status d) Status.AVAILABLE = true) sales ->
  forall (usedValue : Z) (history : list FontEntry.t) (usedSales : list Doc.t)
         (st : store),
    0 <= usedValue <= fold_right Z.add 0 (map availableOf sales) ->
    NoDup (map Doc._id st) ->
    (forall s, In s sales -> In s st) ->
    exists h u,
      consume now key id sales usedValue history usedSales
      = Js.Ok (history ++ h, usedSales ++ u)
      /\ fold_right Z.add 0 (map FontEntry.usedValue h) = usedValue
      /\ aggregateBalance (fold_left updateOne u st) cpf
         = aggregateBalance st cpf - usedValue
      /\ incl (map FontEntry.saleId h) (map Doc._id sales)
      /\ NoDup (map FontEntry.saleId h).
Proof.
  induction 1 as [|sale rest [Hsome Hpos] _ IH];
    intros Hnd Hcpf usedValue history usedSales st Hv Hst Hin.
  - simpl in Hv. assert (usedValue = 0) by lia. subst.
    exists [], []. rewrite !app_nil_r. simpl.
    repeat split; [lia | apply incl_nil_l | constructor].
  - cbn [consume]. destruct (usedValue =? 0) eqn:E0.
    + apply Z.eqb_eq in E0. subst. exists [], []. rewrite !app_nil_r. simpl.
      repeat split; [lia | apply incl_nil_l | constructor].
    + apply Z.eqb_neq in E0. rewrite Hsome. cbn [map fold_right] in Hv.
      simpl in Hnd. inversion Hnd as [|? ? Hsale Hnd']; subst.
      inversion Hcpf as [|? ? Hm Hcpf']; subst.
      destruct (availableOf sale >=? usedValue) eqn:Ege.
      * rewrite consume_zero. eexists [_], [_]. split; [reflexivity|].
        split; [simpl; lia|]. split; [|split].
        -- cbn [fold_left].
           rewrite (updateOne_balance st cpf sale _ _ Hst (Hin sale (or_introl eq_refl)) Hm).
           lia.
        -- intros x [<-|[]]. now left.
        -- repeat constructor. intros [].
      * rewrite Z.geb_leb in Ege. apply Z.leb_gt in Ege.
        assert (Hgt : (usedValue >? availableOf sale) = true)
          by (rewrite Z.gtb_ltb; now apply Z.ltb_lt).
        rewrite Hgt.
        set (used := debit sale (Some 0)
                       (_createOrAddCashbackUseHistory now (availableOf sale) key
                          (Doc.cashbackUseHistory sale) id)).
        destruct (IH Hnd' Hcpf' (usedValue - availableOf sale)
                     (history ++ [_createCashbackFontHistory now (availableOf sale)
                                    (Doc.invoiceKey sale) (Doc._id sale)])
                     (usedSales ++ [used]) (updateOne st used))
          as (h & u & Hc & Hsum & Hbal & Hincl & Hnodup).
        -- lia.
        -- now rewrite updateOne_ids.
        -- intros s Hs. apply updateOne_other; [apply Hin; now right|].
           intros Heq. apply Hsale. unfold used in Heq. cbn [Doc._id debit] in Heq.
           rewrite <- Heq. apply in_map, Hs.
        -- rewrite Hc, <- !app_assoc. eexists (_ :: h), (used :: u).
           split; [reflexivity|]. split; [simpl; lia|]. split; [|split].
           ++ cbn [fold_left]. rewrite Hbal. unfold used.
              rewrite (updateOne_balance st cpf sale _ _ Hst
                         (Hin sale (or_introl eq_refl)) Hm).
              lia.
           ++ intros x [<-|Hx]; [now left | right; apply Hincl, Hx].
           ++ cbn [map]. constructor; [|exact Hnodup].
              intros Hx. apply Hsale, Hincl, Hx.
Qed.

Lemma findWithCashback_in (st : store) (cpf : string) (s : Doc.t) :
  In s (findWithCashback st cpf) ->
  In s st
  /\ String.eqb (Doc.cpf s) cpf && Status.eqb (Doc.status s) Status.AVAILABLE = true.
Proof.
  unfold findWithCashback. intros H.
  apply (Permutation_in _ (sortDesc_Permutation _)) in H.
  apply filter_In in H. destruct H as [Hin Hh]. split; [exact Hin|].
  unfold hasCashback in Hh. apply andb_true_iff in Hh. tauto.
Qed.

(** X1: with sufficient funds [_useCashback] succeeds, the values of the
    history it returns make up the amount redeemed, the aggregate balance
    of the customer falls by exactly that amount, and the entries of the
    history name distinct records. *)
Lemma useCashback_debits_amount (now usedValue : Z) (cpf : string)
  (key : option string) (id : nat) (st : store) :
  NoDup (map Doc._id st) ->
  Forall (fun d => 0 <= availableOf d) st ->
  0 <= usedValue <= aggregateBalance st cpf ->
  exists history st',
    _useCashback now usedValue cpf key id st = (Js.Ok history, st')
    /\ fold_right Z.add 0 (map FontEntry.usedValue history) = usedValue
    /\ aggregateBalance st' cpf = aggregateBalance st cpf - usedValue
    /\ NoDup (map FontEntry.saleId history).
Proof.
  intros Hnd Hst Hv. unfold _useCashback.
  rewrite <- (findWithCashback_sum st cpf Hst) in Hv.
  destruct (consume_balance now key id cpf _ (findWithCashback_positive st cpf))
    with (usedValue := usedValue) (history := @nil FontEntry.t)
         (usedSales := @nil Doc.t) (st := st)
    as (h & u & Hc & Hsum & Hbal & _ & Hnodup).
  - unfold findWithCashback.
    apply (Permutation_NoDup (Permutation_map Doc._id
             (Permutation_sym (sortDesc_Permutation _)))).
    now apply hasCashback_ids.
  - apply Forall_forall. intros s Hs. now apply findWithCashback_in in Hs.
  - exact Hv.
  - exact Hnd.
  - intros s Hs. now apply findWithCashback_in in Hs.
  - rewrite Hc. simpl. eexists _, _. repeat split; eassumption.
Qed.


End LedgerFacts.

(** ** Scenarios *)

Module Scenarios.

Import Sample.

(** The record stored for an earning is built from the selected candidate
    and keeps the summaries of all the candidates. *)
Lemma earning_record (e : Ledger.env) (processSale : Ledger.received)
  (st st' : Ledger.store) (doc : Doc.t) :
  Sale.usedCashback (Ledger.data processSale) = false ->
  Ledger._generateCashback e processSale st = (Js.Ok (Some doc), st') ->
  exists candidates rejected best,
    Evaluation._calculeCashback (Ledger.calendar e) st
      (Ledger.activeCampaigns e (Sale.verification (Ledger.data processSale))
       ++ Ledger.expiredCampaigns e (Sale.verification (Ledger.data processSale)))
      (Ledger.data processSale) (Sale.customerId (Ledger.data processSale))
    = Js.Ok (candidates, rejected)
    /\ Selector._findSaleWithBetterCampaign candidates = Some best
    /\ Doc.totalCashback doc = Some (Sale.totalCashback best)
    /\ Doc.usedCampaign doc = Sale.usedCampaign best
    /\ Doc.saleWithOtherCampaigns doc = map Selector.summary candidates
    /\ st' = st ++ [doc].
Proof.
  intros Hused. unfold Ledger._generateCashback. rewrite Hused.
  destruct (Ledger.findByInvoiceKey st _); [discriminate|].
  destruct (Ledger.isUserInBannedList e _); [discriminate|].
  destruct (Evaluation._calculeCashback _ _ _ _ _) as [[candidates rejected]|x];
    [|discriminate].
  destruct (Selector._findSaleWithBetterCampaign candidates) as [best|] eqn:Hbest;
    [|discriminate].
  destruct (negb (Js.truthyS _)); [discriminate|].
  intros [= <- <-]. exists candidates, rejected, best.
  split; [reflexivity|]. split; [exact Hbest|]. repeat split; reflexivity.
Qed.

(** A purchase evaluated against three campaigns: 10 percent yields 219,
    the fixed value 150 and 5 percent 109; the stored record is PENDING
    under the 10 percent campaign and lists the three candidates. *)
Lemma purchase_selects_best_campaign :
  match Ledger._generateCashback shop purchase [] with
  | (Js.Ok (Some doc), st) =>
      Doc.status doc = Status.PENDING
      /\ Doc.usedCampaign doc = Some "P10"
      /\ Doc.totalCashback doc = Some 219
      /\ map Item.totalCashback (Doc.items doc) = [Some 200; Some 19]
      /\ map Alternative.totalCashback (Doc.saleWithOtherCampaigns doc) = [219; 150; 109]
      /\ st = [doc]
  | _ => False
  end.
Proof. vm_compute. repeat split; reflexivity. Qed.

(** A redemption of 1000 is canceled after record 2 has expired: record 1
    gets its 300 back and loses the use entry, record 2 keeps balance 0 and
    its use entry. *)
Lemma cancel_skips_expired_source :
  let st' := snd (Ledger.cancel 3 (expire 2 afterRedemption)) in
  map Doc.availableCashback st' = [Some 300; Some 0; None]
  /\ map (fun d => List.length (Doc.cashbackUseHistory d)) st' = [0; 1; 0]%nat
  /\ map Doc.status st' = [Status.AVAILABLE; Status.EXPIRED; Status.CANCELED].
Proof. vm_compute. repeat split; reflexivity. Qed.

(** An item that follows both rules of a campaign holds its code twice,
    and still counts once in the cart sum. *)
Lemma two_rules_push_twice :
  let annotated :=
    snd (Matcher._checkItemsThatFollowRules twoRules
           (sale [matchedItem 10 3 []])) in
  map Item.matchedCampaigns (Sale.items annotated) = [["TWO"; "TWO"]]
  /\ Matcher.totalItems twoRules annotated = 3.
Proof. vm_compute. split; reflexivity. Qed.

End Scenarios.

(** ** Redemption: allocation, composition with cancellation *)

Module RedemptionFacts.

Import Ledger LedgerFacts Sample.

(** The loop on records that do not cover the amount. *)
Lemma consume_exhausted (now : Z) (key : option string) (id : nat) (sales : list Doc.t) :
  Forall (fun d => Doc.availableCashback d = Some (availableOf d) /\ 0 < availableOf d)
         sales ->
  forall (usedValue : Z) (history : list FontEntry.t) (usedSales : list Doc.t),
    fold_right Z.add 0 (map availableOf sales) < usedValue ->
    consume now key id sales usedValue history usedSales = Js.Throw Js.TypeError.
Proof.
  induction 1 as [|sale rest [Hsome Hpos] Hrest IH]; intros usedValue history usedSales Hv.
  - simpl in Hv. cbn [consume].
    destruct (usedValue =? 0) eqn:E0; [apply Z.eqb_eq in E0; lia | reflexivity].
  - cbn [map fold_right] in Hv.
    assert (Hsum : 0 <= fold_right Z.add 0 (map availableOf rest)).
    { clear - Hrest. induction Hrest as [|d l [_ Hd] _ IHl]; simpl; lia. }
    cbn [consume].
    destruct (usedValue =? 0) eqn:E0; [apply Z.eqb_eq in E0; lia|].
    rewrite Hsome.
    destruct (availableOf sale >=? usedValue) eqn:Ege.
    + rewrite Z.geb_leb in Ege. apply Z.leb_le in Ege. lia.
    + assert (Hgt : (usedValue >? availableOf sale) = true)
        by (rewrite Z.gtb_ltb; apply Z.ltb_lt; lia).
      rewrite Hgt. apply IH. lia.
Qed.

(** X2: called for more than the customer holds, [_useCashback] runs past
    the last record, throws the [TypeError] of reading a balance of
    [undefined], and writes nothing. *)
Theorem useCashback_exhausted (now usedValue : Z) (cpf : string)
  (key : option string) (id : nat) (st : store) :
  Forall (fun d => 0 <= availableOf d) st ->
  aggregateBalance st cpf < usedValue ->
  _useCashback now usedValue cpf key id st = (Js.Throw Js.TypeError, st).
Proof.
  intros Hst Hv. unfold _useCashback.
  rewrite <- (findWithCashback_sum st cpf Hst) in Hv.
  now rewrite (consume_exhausted now key id _ (findWithCashback_positive st cpf)
                 usedValue [] [] Hv).
Qed.

Lemma useCashback_exhausted_witness :
  _useCashback 0 1001 "11122233344" (Some "NF-R") 9
    [earned 1 Status.AVAILABLE 300 10; earned 2 Status.AVAILABLE 700 20]
  = (Js.Throw Js.TypeError,
     [earned 1 Status.AVAILABLE 300 10; earned 2 Status.AVAILABLE 700 20]).
Proof.
  apply (useCashback_exhausted 0 1001 "11122233344" (Some "NF-R") 9
           [earned 1 Status.AVAILABLE 300 10; earned 2 Status.AVAILABLE 700 20]).
  - repeat constructor; vm_compute; discriminate.
  - vm_compute. reflexivity.
Defined.

(** X1 at work: 450 redeemed against balances 300 and 700. *)
Lemma useCashback_debits_amount_witness :
  exists history st',
    _useCashback 0 450 "11122233344" (Some "NF-R") 9
      [earned 1 Status.AVAILABLE 300 10; earned 2 Status.AVAILABLE 700 20]
    = (Js.Ok history, st')
    /\ fold_right Z.add 0 (map FontEntry.usedValue history) = 450
    /\ aggregateBalance st' "11122233344"
       = aggregateBalance
           [earned 1 Status.AVAILABLE 300 10; earned 2 Status.AVAILABLE 700 20]
           "11122233344" - 450
    /\ NoDup (map FontEntry.saleId history).
Proof.
  apply (useCashback_debits_amount 0 450 "11122233344" (Some "NF-R") 9
           [earned 1 Status.AVAILABLE 300 10; earned 2 Status.AVAILABLE 700 20]).
  - repeat constructor; simpl; intuition discriminate.
  - repeat constructor; vm_compute; discriminate.
  - vm_compute. split; discriminate.
Defined.

(** *** The state after an allocation *)










(** *** Redemption through [_generateCashback] *)

Lemma freshId_fresh (st : store) : ~ In (freshId st) (map Doc._id st).
Proof.
  assert (H : forall k, In k (map Doc._id st) ->
                        (k <= fold_right Nat.max 0 (map Doc._id st))%nat).
  { induction st as [|d st IH]; intros k Hk; [contradiction|].
    cbn [map fold_right] in *. destruct Hk as [<-|Hk]; [lia|].
    specialize (IH k Hk). lia. }
  intros Hin. apply H in Hin. unfold freshId in Hin. lia.
Qed.








(** *** Cancellation after redemption *)

Lemma restoreDoc_account (id : nat) (h : FontEntry.t) (d : Doc.t) (cpf : string) :
  Doc._id (restoreDoc id h d) = Doc._id d
  /\ Doc.status (restoreDoc id h d) = Doc.status d
  /\ Account.counted cpf (restoreDoc id h d) = Account.counted cpf d.
Proof.
  unfold restoreDoc.
  destruct (Nat.eqb (Doc._id d) (FontEntry.saleId h)
            && negb (Status.eqb (Doc.status d) Status.EXPIRED));
    repeat split; reflexivity.
Qed.

Lemma restore_ids (id : nat) (st : store) (h : FontEntry.t) :
  map Doc._id (restore id st h) = map Doc._id st.
Proof.
  unfold restore. rewrite map_map. apply map_ext. intros d.
  apply (restoreDoc_account id h d EmptyString).
Qed.









End RedemptionFacts.

(** ** Cancellation: repetition and earnings *)

Module CancelFacts.

Import Ledger LedgerFacts Sample.

(** An update that keeps the [_id] commutes with [findOne]. *)
Lemma findOne_map (g : Doc.t -> Doc.t) (st : store) (id : nat) :
  (forall d, Doc._id (g d) = Doc._id d) ->
  findOne (map g st) id = option_map g (findOne st id).
Proof.
  intros Hg. unfold findOne. induction st as [|d st IH]; [reflexivity|].
  cbn [map find]. rewrite Hg. destruct (Nat.eqb (Doc._id d) id); [reflexivity | exact IH].
Qed.

Lemma restoreDoc_all_id (id : nat) (hs : list FontEntry.t) (d : Doc.t) :
  Doc._id (fold_left (fun d h => restoreDoc id h d) hs d) = Doc._id d.
Proof.
  rewrite restoreDoc_fold.
  destruct (negb (Status.eqb (Doc.status d) Status.EXPIRED)
            && existsb (fun h => Nat.eqb (Doc._id d) (FontEntry.saleId h)) hs);
    reflexivity.
Qed.

(** X5: a cancellation that has succeeded can be repeated: the second
    call succeeds as well and leaves the collection as the first one left
    it. *)
Theorem cancel_twice (id : nat) (st st' : store) :
  cancel id st = (Js.Ok tt, st') -> cancel id st' = (Js.Ok tt, st').
Proof.
  intros H. unfold cancel in H.
  destruct (findOne st id) as [sale|] eqn:Hf; [|discriminate].
  pose proof (findOne_Some _ _ _ Hf) as [_ Hid].
  destruct (Status.eqb (Doc.status sale) Status.CANCELED) eqn:Ec.
  { inversion H; subst st'. unfold cancel. now rewrite Hf, Ec. }
  destruct (Status.eqb (Doc.status sale) Status.AVAILABLE); [discriminate|].
  destruct (Status.eqb (Doc.status sale) Status.EXPIRED); [discriminate|].
  destruct (Doc.usedCashback sale).
  - inversion H as [Hst]. clear H. unfold cancel, findByIdAndUpdate.
    rewrite restore_fold, map_map, findOne_map, Hf.
    + cbn [option_map]. rewrite restoreDoc_all_id, Hid, Nat.eqb_refl. reflexivity.
    + intros d. rewrite restoreDoc_all_id.
      destruct (Nat.eqb (Doc._id d) id); cbn [Doc._id set_status];
        apply restoreDoc_all_id.
  - inversion H as [Hst]. clear H. unfold cancel, findByIdAndUpdate.
    rewrite findOne_map, Hf.
    + cbn [option_map]. rewrite Hid, Nat.eqb_refl. reflexivity.
    + intros d. destruct (Nat.eqb (Doc._id d) id); reflexivity.
Qed.

Lemma cancel_twice_witness :
  cancel 3 (snd (cancel 3 afterRedemption))
  = (Js.Ok tt, snd (cancel 3 afterRedemption)).
Proof.
  apply (cancel_twice 3 afterRedemption). reflexivity.
Defined.

Lemma findByIdAndUpdate_other (st : store) (id k : nat) (f : Doc.t -> Doc.t) :
  (forall d, Doc._id (f d) = Doc._id d) ->
  k <> id -> findOne (findByIdAndUpdate st id f) k = findOne st k.
Proof.
  intros Hf Hk. unfold findByIdAndUpdate, findOne.
  induction st as [|d st IH]; [reflexivity|]. cbn [map find].
  destruct (Nat.eqb_spec (Doc._id d) id) as [E|E].
  - rewrite Hf, E. destruct (Nat.eqb_spec id k) as [E'|_]; [congruence | exact IH].
  - destruct (Nat.eqb (Doc._id d) k); [reflexivity | exact IH].
Qed.

(** Voiding the record [id] moves no balance when the record is the only
    one of its id and is not AVAILABLE. *)
Lemma void_balance (st : store) (id : nat) (cpf : string) :
  (forall d, In d st -> Doc._id d = id -> Doc.status d <> Status.AVAILABLE) ->
  aggregateBalance (findByIdAndUpdate st id void) cpf = aggregateBalance st cpf.
Proof.
  unfold findByIdAndUpdate. induction st as [|d st IH]; intros H; [reflexivity|].
  cbn [map]. rewrite !aggregateBalance_cons, IH
    by (intros x Hx; apply H; now right).
  destruct (Nat.eqb_spec (Doc._id d) id) as [E|E]; [|reflexivity].
  specialize (H d (or_introl eq_refl) E).
  cbn [Doc.cpf Doc.status void Status.eqb]. rewrite andb_false_r.
  destruct (Doc.status d); try contradiction; now rewrite andb_false_r.
Qed.

(** X6: the cancellation of a sale that used no cashback and is neither
    CANCELED, AVAILABLE nor EXPIRED (an earning still PENDING) succeeds;
    the record becomes CANCELED and loses [creditDate], [expirateDate] and
    [availableCashback], keeping its total; every other record is found as
    before, and no customer's available balance changes. *)
Theorem cancel_earning_voids (id : nat) (st : store) (sale : Doc.t) :
  NoDup (map Doc._id st) ->
  findOne st id = Some sale ->
  Doc.status sale <> Status.CANCELED ->
  Doc.status sale <> Status.AVAILABLE ->
  Doc.status sale <> Status.EXPIRED ->
  Doc.usedCashback sale = false ->
  exists st' sale',
    cancel id st = (Js.Ok tt, st')
    /\ findOne st' id = Some sale'
    /\ Doc.status sale' = Status.CANCELED
    /\ Doc.availableCashback sale' = None
    /\ Doc.creditDate sale' = None
    /\ Doc.expirateDate sale' = None
    /\ Doc.totalCashback sale' = Doc.totalCashback sale
    /\ Doc.cpf sale' = Doc.cpf sale
    /\ (forall k, k <> id -> findOne st' k = findOne st k)
    /\ (forall cpf, aggregateBalance st' cpf = aggregateBalance st cpf).
Proof.
  intros Hnd Hf Hc Ha He Hu.
  pose proof (findOne_Some _ _ _ Hf) as [Hin Hid].
  assert (Hvoid : forall d, Doc._id (void d) = Doc._id d) by reflexivity.
  exists (findByIdAndUpdate st id void), (void sale).
  split.
  { unfold cancel. rewrite Hf, Hu.
    destruct (Doc.status sale); try contradiction; reflexivity. }
  split.
  { unfold findByIdAndUpdate.
    rewrite findOne_map by (intros d; destruct (Nat.eqb (Doc._id d) id); reflexivity).
    rewrite Hf. cbn [option_map]. now rewrite Hid, Nat.eqb_refl. }
  do 6 (split; [reflexivity|]).
  split.
  { intros k Hk. apply findByIdAndUpdate_other; assumption. }
  intros cpf. apply void_balance. intros d Hd Hdid.
  assert (d = sale) as ->; [|exact Ha].
  clear - Hnd Hd Hin Hdid Hid. rewrite <- Hid in Hdid. clear Hid.
  induction st as [|x st IH]; [destruct Hd|].
  cbn [map] in Hnd. apply NoDup_cons_iff in Hnd. destruct Hnd as [Hx Hnd].
  destruct Hd as [->|Hd], Hin as [->|Hin]; try reflexivity.
  - exfalso. apply Hx. rewrite Hdid. apply in_map, Hin.
  - exfalso. apply Hx. rewrite <- Hdid. apply in_map, Hd.
  - apply IH; assumption.
Qed.

Lemma cancel_earning_voids_witness :
  exists st' sale',
    cancel 2 [earned 1 Status.AVAILABLE 300 10; earned 2 Status.PENDING 700 20]
    = (Js.Ok tt, st')
    /\ findOne st' 2 = Some sale'
    /\ Doc.status sale' = Status.CANCELED
    /\ Doc.availableCashback sale' = None
    /\ Doc.creditDate sale' = None
    /\ Doc.expirateDate sale' = None
    /\ Doc.totalCashback sale' = Doc.totalCashback (earned 2 Status.PENDING 700 20)
    /\ Doc.cpf sale' = Doc.cpf (earned 2 Status.PENDING 700 20)
    /\ (forall k, k <> 2%nat ->
          findOne st' k
          = findOne [earned 1 Status.AVAILABLE 300 10; earned 2 Status.PENDING 700 20] k)
    /\ (forall cpf,
          aggregateBalance st' cpf
          = aggregateBalance
              [earned 1 Status.AVAILABLE 300 10; earned 2 Status.PENDING 700 20] cpf).
Proof.
  apply (cancel_earning_voids 2
           [earned 1 Status.AVAILABLE 300 10; earned 2 Status.PENDING 700 20]
           (earned 2 Status.PENDING 700 20)).
  - repeat constructor; simpl; intuition discriminate.
  - reflexivity.
  - discriminate.
  - discriminate.
  - discriminate.
  - reflexivity.
Defined.

End CancelFacts.

(** ** Evaluation of a sale against the campaigns *)

Module EvaluationFacts.

Import Matcher MatcherFacts Calculator CalculatorFacts Evaluation Sample.

(** A check leaves the identity of the sale alone, and adds the code to
    [sale.matchedCampaigns] exactly when it accepts the campaign. *)
Lemma checkSaleCampaign_frame (store : list Doc.t) (campaign : Campaign.t)
  (sale : Sale.t) (cpf : string) :
  let r := _checkSaleCampaign store campaign sale cpf in
  Sale.customerId (snd r) = Sale.customerId sale
  /\ Sale.invoiceKey (snd r) = Sale.invoiceKey sale
  /\ Sale.salesChannel (snd r) = Sale.salesChannel sale
  /\ Sale.matchedCampaigns (snd r)
     = (if Matcher.isValid (fst r)
        then Sale.matchedCampaigns sale ++ [Campaign.code campaign]
        else Sale.matchedCampaigns sale)
  /\ (Matcher.isValid (fst r) = false -> Matcher.reason (fst r) <> None).
Proof.
  unfold _checkSaleCampaign. rewrite checkItemsThatFollowRules_closed.
  repeat match goal with
         | |- context [if ?b then (_, _) else _] => destruct b
         end;
    cbn; repeat split; try reflexivity; discriminate.
Qed.

(** The loop of [_calculeCashback]: it appends to the two lists, every
    campaign goes to one of them, and the codes of the accepted campaigns
    are appended to [sale.matchedCampaigns]. *)
Lemma checkAll_partition (store : list Doc.t) (customerId : string)
  (campaigns : list Campaign.t) :
  forall (sale : Sale.t) (valid : list Campaign.t) (invalid : list rejection)
         (valid' : list Campaign.t) (invalid' : list rejection) (sale' : Sale.t),
    checkAll store campaigns sale customerId valid invalid = (valid', invalid', sale') ->
    exists vs rs,
      valid' = valid ++ vs /\ invalid' = invalid ++ rs
      /\ Permutation (map Campaign.code vs ++ map Evaluation.campaign rs)
                     (map Campaign.code campaigns)
      /\ Forall (fun r => Evaluation.reason r <> None) rs
      /\ Sale.customerId sale' = Sale.customerId sale
      /\ Sale.invoiceKey sale' = Sale.invoiceKey sale
      /\ Sale.matchedCampaigns sale' = Sale.matchedCampaigns sale ++ map Campaign.code vs.
Proof.
  induction campaigns as [|c cs IH]; intros sale valid invalid valid' invalid' sale' H.
  - cbn in H. inversion H; subst. exists [], []. rewrite !app_nil_r.
    repeat split; constructor.
  - cbn [checkAll] in H.
    pose proof (checkSaleCampaign_frame store c sale customerId) as F. cbn zeta in F.
    destruct (_checkSaleCampaign store c sale customerId) as [v s1].
    cbn [fst snd] in F. destruct F as (Fc & Fk & _ & Fm & Fr).
    destruct (Matcher.isValid v) eqn:Ev.
    + destruct (IH _ _ _ _ _ _ H) as (vs & rs & -> & -> & P & R & Hc & Hk & Hm).
      exists (c :: vs), rs. rewrite <- app_assoc. cbn [app map].
      split; [reflexivity|]. split; [reflexivity|].
      split; [now constructor|]. split; [exact R|].
      split; [congruence|]. split; [congruence|].
      rewrite Hm, Fm, <- app_assoc. reflexivity.
    + destruct (IH _ _ _ _ _ _ H) as (vs & rs & -> & -> & P & R & Hc & Hk & Hm).
      exists vs, (mkRejection (Matcher.reason v) (Campaign.code c) :: rs).
      rewrite <- app_assoc. cbn [app map Evaluation.campaign].
      split; [reflexivity|]. split; [reflexivity|].
      split; [apply Permutation_sym, Permutation_cons_app, Permutation_sym, P|].
      split; [constructor; [exact (Fr eq_refl) | exact R]|].
      split; [congruence|]. split; [congruence|].
      rewrite Hm, Fm. reflexivity.
Qed.

(** [_processSale] files the sale under the campaign and leaves its
    identity and [matchedCampaigns] alone. *)
Lemma processSale_frame (calendar : Calendar.t) (campaign : Campaign.t) (sale : Sale.t) :
  let sale' := _processSale calendar campaign sale in
  Sale.usedCampaign sale' = Some (Campaign.code campaign)
  /\ Sale.customerId sale' = Sale.customerId sale
  /\ Sale.invoiceKey sale' = Sale.invoiceKey sale
  /\ Sale.matchedCampaigns sale' = Sale.matchedCampaigns sale.
Proof.
  unfold _processSale, applyLimit, applyMode, applyDates.
  destruct (Campaign.percentCashback campaign) as [pct|].
  - destruct (Js.Number.truthyF pct).
    + rewrite percent_forEach.
      destruct (Campaign.cashbackLimit campaign) as [l|]; [|cbn; auto].
      destruct (negb (l =? 0) && (l <? _)); cbn; auto.
    + destruct (Campaign.cashbackLimit campaign) as [l|]; [|cbn; auto].
      destruct (negb (l =? 0) && (l <? 0)); cbn; auto.
  - destruct (Campaign.cashbackLimit campaign) as [l|]; [|cbn; auto].
    destruct (negb (l =? 0) && (l <? 0)); cbn; auto.
Qed.

(** The candidates of [_calculeCashback] are the accepted campaigns applied
    to one and the same checked sale. *)
Lemma calculeCashback_candidates (calendar : Calendar.t) (store : list Doc.t)
  (campaigns : list Campaign.t) (sale : Sale.t) (customerId : string)
  (candidates : list Sale.t) (rejected : list rejection) :
  _calculeCashback calendar store campaigns sale customerId
  = Js.Ok (candidates, rejected) ->
  exists accepted checked,
    candidates = map (fun c => _processSale calendar c checked) accepted
    /\ accepted <> []
    /\ Permutation (map Campaign.code accepted ++ map Evaluation.campaign rejected)
                   (map Campaign.code campaigns)
    /\ Forall (fun r => Evaluation.reason r <> None) rejected
    /\ Sale.customerId checked = Sale.customerId sale
    /\ Sale.invoiceKey checked = Sale.invoiceKey sale
    /\ Sale.matchedCampaigns checked
       = Sale.matchedCampaigns sale ++ map Campaign.code accepted.
Proof.
  unfold _calculeCashback. intros H.
  destruct (Normalizer._processItems (Sale.items sale)) as [items|x]; [|discriminate].
  cbn [Js.bind] in H.
  destruct (checkAll store campaigns (Sale.set_items sale items) customerId [] [])
    as [[valid invalid] sale'] eqn:Hall.
  destruct (checkAll_partition _ _ _ _ _ _ _ _ _ Hall)
    as (vs & rs & Hv & Hi & P & R & Hc & Hk & Hm).
  cbn [app] in Hv, Hi. subst valid invalid.
  destruct (Z.of_nat (List.length vs) <? 1) eqn:Hlen; [discriminate|].
  inversion H; subst candidates rejected. clear H.
  exists vs, sale'. split; [reflexivity|]. split.
  { destruct vs; [discriminate Hlen | discriminate]. }
  auto.
Qed.

Lemma candidates_usedCampaign (calendar : Calendar.t) (checked : Sale.t)
  (accepted : list Campaign.t) :
  map Sale.usedCampaign (map (fun c => _processSale calendar c checked) accepted)
  = map Some (map Campaign.code accepted).
Proof.
  rewrite !map_map. apply map_ext. intros c.
  apply (processSale_frame calendar c checked).
Qed.

(** X7: when [_calculeCashback] returns, at least one campaign was
    accepted; every campaign of the input is either the [usedCampaign] of
    one candidate or the [campaign] of one rejection carrying a reason; and
    every candidate keeps the customer and invoice key of the sale and lists
    in [matchedCampaigns] the codes of all the accepted campaigns. *)
Theorem calculeCashback_partition (calendar : Calendar.t) (store : list Doc.t)
  (campaigns : list Campaign.t) (sale : Sale.t) (customerId : string)
  (candidates : list Sale.t) (rejected : list rejection) :
  _calculeCashback calendar store campaigns sale customerId
  = Js.Ok (candidates, rejected) ->
  candidates <> []
  /\ Permutation
       (map Sale.usedCampaign candidates
        ++ map (fun r => Some (Evaluation.campaign r)) rejected)
       (map (fun c => Some (Campaign.code c)) campaigns)
  /\ Forall (fun r => Evaluation.reason r <> None) rejected
  /\ Forall (fun s =>
               Sale.customerId s = Sale.customerId sale
               /\ Sale.invoiceKey s = Sale.invoiceKey sale
               /\ map Some (Sale.matchedCampaigns s)
                  = map Some (Sale.matchedCampaigns sale)
                    ++ map Sale.usedCampaign candidates)
            candidates.
Proof.
  intros H.
  destruct (calculeCashback_candidates _ _ _ _ _ _ _ H)
    as (vs & sale' & -> & Hne & P & R & Hc & Hk & Hm).
  split.
  { destruct vs; [contradiction | discriminate]. }
  split.
  { rewrite candidates_usedCampaign.
    rewrite <- (map_map Evaluation.campaign Some rejected), <- map_app.
    rewrite <- (map_map Campaign.code Some campaigns).
    apply Permutation_map, P. }
  split; [exact R|].
  apply Forall_forall. intros s Hs. apply in_map_iff in Hs.
  destruct Hs as (c & <- & Hin).
  destruct (processSale_frame calendar c sale') as (_ & Fc & Fk & Fm). cbn zeta in *.
  rewrite Fc, Fk, Fm, Hc, Hk, Hm, candidates_usedCampaign, map_app. auto.
Qed.

Lemma calculeCashback_partition_witness :
  Fixture.candidatesOf Fixture.evaluated <> []
  /\ Permutation
       (map Sale.usedCampaign (Fixture.candidatesOf Fixture.evaluated)
        ++ map (fun r => Some (Evaluation.campaign r)) (Fixture.rejectedOf Fixture.evaluated))
       (map (fun c => Some (Campaign.code c)) Fixture.offers)
  /\ Forall (fun r => Evaluation.reason r <> None) (Fixture.rejectedOf Fixture.evaluated)
  /\ Forall (fun s =>
               Sale.customerId s = Sale.customerId Fixture.cart
               /\ Sale.invoiceKey s = Sale.invoiceKey Fixture.cart
               /\ map Some (Sale.matchedCampaigns s)
                  = map Some (Sale.matchedCampaigns Fixture.cart)
                    ++ map Sale.usedCampaign (Fixture.candidatesOf Fixture.evaluated))
            (Fixture.candidatesOf Fixture.evaluated).
Proof.
  apply (calculeCashback_partition utc [] Fixture.offers Fixture.cart "11122233344").
  vm_compute. reflexivity.
Defined.

(** The loop when every campaign fails one of the checks that read the
    header of the sale: nothing is accepted and the sale is left alone. *)
Lemma checkAll_header_mismatch (store : list Doc.t) (customerId : string)
  (sale : Sale.t) (campaigns : list Campaign.t) :
  Forall (fun c => _checkSalesChannelRule c sale
                   && _checkSubsidiariesChannelRule c sale
                   && _checkPaymentMethodRule c sale = false) campaigns ->
  forall rs, exists rs',
    checkAll store campaigns sale customerId [] rs = ([], rs', sale).
Proof.
  induction 1 as [|c cs Hc _ IH]; intros rs.
  - exists rs. reflexivity.
  - cbn [checkAll]. unfold _checkSaleCampaign.
    destruct (_checkSalesChannelRule c sale); cbn [negb];
      [|cbn [isValid invalid]; apply IH].
    destruct (_checkSubsidiariesChannelRule c sale); cbn [negb];
      [|cbn [isValid invalid]; apply IH].
    destruct (_checkPaymentMethodRule c sale); [discriminate Hc|].
    cbn [negb isValid invalid]. apply IH.
Qed.

(** X8: a sale whose items normalize but whose channel, origin or
    payments fit no campaign (in particular when there is no campaign at
    all) is refused with SALE_NOT_MATCH_ANY_CAMPAIGN. *)
Theorem calculeCashback_header_mismatch (calendar : Calendar.t) (store : list Doc.t)
  (campaigns : list Campaign.t) (sale : Sale.t) (customerId : string)
  (items : list Item.t) :
  Normalizer._processItems (Sale.items sale) = Js.Ok items ->
  Forall (fun c => _checkSalesChannelRule c sale
                   && _checkSubsidiariesChannelRule c sale
                   && _checkPaymentMethodRule c sale = false) campaigns ->
  _calculeCashback calendar store campaigns sale customerId
  = Js.Throw (Js.Error "SALE_NOT_MATCH_ANY_CAMPAIGN").
Proof.
  intros Hitems Hall. unfold _calculeCashback. rewrite Hitems. cbn [Js.bind].
  destruct (checkAll_header_mismatch store customerId (Sale.set_items sale items)
              campaigns Hall []) as (rs' & ->).
  reflexivity.
Qed.

Lemma calculeCashback_header_mismatch_witness :
  _calculeCashback utc [] [Fixture.storeOnly] Fixture.cart "11122233344"
  = Js.Throw (Js.Error "SALE_NOT_MATCH_ANY_CAMPAIGN").
Proof.
  apply (calculeCashback_header_mismatch utc [] [Fixture.storeOnly] Fixture.cart
           "11122233344"
           [Item.set_facets (rawItem "A1.RED.M" 1000 2) "A1" "RED" "M" 2000;
            Item.set_facets (rawItem "B2.BLUE.G" 199 1) "B2" "BLUE" "G" 199]).
  - reflexivity.
  - repeat constructor.
Defined.




End EvaluationFacts.

(** ** Intake of a received sale: [_generateCashback] *)

Module IntakeFacts.

Import Ledger LedgerFacts RedemptionFacts SelectorFacts EvaluationFacts Sample.





(** What an accepted earning stores. *)
Lemma earning_stored (e : env) (processSale : received) (st st' : store) (doc : Doc.t) :
  Sale.usedCashback (data processSale) = false ->
  _generateCashback e processSale st = (Js.Ok (Some doc), st') ->
  exists candidates rejected best,
    Evaluation._calculeCashback (calendar e) st
      (activeCampaigns e (Sale.verification (data processSale))
       ++ expiredCampaigns e (Sale.verification (data processSale)))
      (data processSale) (Sale.customerId (data processSale))
    = Js.Ok (candidates, rejected)
    /\ Selector._findSaleWithBetterCampaign candidates = Some best
    /\ doc = pendingDoc (freshId st)
               (Selector._markEligibleItemsBasedOnUsedCampaign best) candidates
               (getUserByCpf e (Sale.customerId (data processSale)))
    /\ st' = st ++ [doc]
    /\ findByInvoiceKey st (Sale.invoiceKey (data processSale)) = None
    /\ Sale.customerId best = Sale.customerId (data processSale)
    /\ Sale.invoiceKey best = Sale.invoiceKey (data processSale).
Proof.
  intros Hused. unfold _generateCashback. rewrite Hused.
  destruct (findByInvoiceKey st _) eqn:Hkey; [discriminate|].
  destruct (isUserInBannedList e _); [discriminate|].
  destruct (Evaluation._calculeCashback _ _ _ _ _) as [[candidates rejected]|x] eqn:Hcalc;
    [|discriminate].
  destruct (Selector._findSaleWithBetterCampaign candidates) as [best|] eqn:Hbest;
    [|discriminate].
  destruct (negb (Js.truthyS _)); [discriminate|].
  intros [= <- <-]. exists candidates, rejected, best.
  split; [first [exact Hcalc | reflexivity]|].
  split; [first [exact Hbest | reflexivity]|].
  split; [reflexivity|]. split; [reflexivity|].
  split; [first [exact Hkey | reflexivity]|].
  destruct (calculeCashback_candidates _ _ _ _ _ _ _ Hcalc)
    as (vs & checked & -> & _ & _ & _ & Hc & Hk & _).
  apply pop_In, In_sortBy, in_map_iff in Hbest. destruct Hbest as (c & <- & _).
  destruct (processSale_frame (calendar e) c checked) as (_ & Fc & Fk & _).
  cbn zeta in *. split; congruence.
Qed.




Lemma findByInvoiceKey_last (st : store) (doc : Doc.t) :
  findByInvoiceKey (st ++ [doc]) (Doc.invoiceKey doc) <> None.
Proof.
  unfold findByInvoiceKey. induction st as [|d st IH]; cbn [app find].
  - assert (E : optStringEqb (Doc.invoiceKey doc) (Doc.invoiceKey doc) = true).
    { destruct (Doc.invoiceKey doc); [apply String.eqb_refl | reflexivity]. }
    rewrite E. discriminate.
  - destruct (optStringEqb (Doc.invoiceKey d) (Doc.invoiceKey doc));
      [discriminate | exact IH].
Qed.

(** X12: once an earning is stored, a second earning with the same
    invoice key is refused with CONFLICT_DUPLICATE_INVOICE_KEY_ERROR,
    whatever else the submission holds, and nothing is written. *)
Theorem second_submission_conflicts (e e' : env) (processSale again : received)
  (st st' : store) (doc : Doc.t) :
  Sale.usedCashback (data processSale) = false ->
  _generateCashback e processSale st = (Js.Ok (Some doc), st') ->
  Sale.usedCashback (data again) = false ->
  Sale.invoiceKey (data again) = Sale.invoiceKey (data processSale) ->
  _generateCashback e' again st'
  = (Js.Throw (Js.Error "CONFLICT_DUPLICATE_INVOICE_KEY_ERROR"), st').
Proof.
  intros Hused H Hagain Hsame.
  destruct (earning_stored e processSale st st' doc Hused H)
    as (candidates & rejected & best & _ & _ & Hdoc & -> & _ & _ & Hk).
  assert (Hkey : Doc.invoiceKey doc = Sale.invoiceKey (data processSale)).
  { rewrite Hdoc. exact Hk. }
  unfold _generateCashback. rewrite Hagain, Hsame, <- Hkey.
  pose proof (findByInvoiceKey_last st doc) as Hlast.
  destruct (findByInvoiceKey (st ++ [doc]) (Doc.invoiceKey doc));
    [reflexivity | contradiction].
Qed.

Lemma second_submission_conflicts_witness :
  _generateCashback quiet purchase (snd (_generateCashback shop purchase []))
  = (Js.Throw (Js.Error "CONFLICT_DUPLICATE_INVOICE_KEY_ERROR"),
     snd (_generateCashback shop purchase [])).
Proof.
  apply (second_submission_conflicts shop quiet purchase purchase []
           (snd (_generateCashback shop purchase []))
           (Fixture.storedDoc (_generateCashback shop purchase []))).
  - reflexivity.
  - vm_compute. reflexivity.
  - reflexivity.
  - reflexivity.
Defined.

End IntakeFacts.

(** ** Candidates: modes of a campaign and eligibility marks *)

Module CandidateFacts.

Import Calculator CalculatorFacts Selector Sample.

(** Marking changes nothing on a sale whose items already carry the
    eligibility it computes. *)
Lemma markEligible_fixpoint (sale : Sale.t) (code : string) :
  Sale.usedCampaign sale = Some code ->
  Forall (fun item => Item.eligible item = Js.includes (Item.matchedCampaigns item) code)
         (Sale.items sale) ->
  _markEligibleItemsBasedOnUsedCampaign sale = sale.
Proof.
  destruct sale as [ch og pm items mc uc tc cid key used value ver credit expirate].
  cbn [Sale.usedCampaign Sale.items]. intros -> H.
  unfold _markEligibleItemsBasedOnUsedCampaign, Sale.set_items.
  cbn [Sale.usedCampaign Sale.items Sale.salesChannel Sale.origin Sale.paymentMethod
       Sale.matchedCampaigns Sale.totalCashback Sale.customerId Sale.invoiceKey
       Sale.usedCashback Sale.usedCashbackValue Sale.verification Sale.creditDate
       Sale.expirateDate].
  f_equal. induction H as [|item rest Hitem _ IH]; [reflexivity|].
  cbn [map]. rewrite IH. f_equal.
  destruct item. cbn in Hitem. subst. reflexivity.
Qed.

Lemma markItem_eligible (code : string) (pct : float) (item : Item.t) :
  Item.eligible (markItem code pct item)
  = Js.includes (Item.matchedCampaigns (markItem code pct item)) code
  /\ Item.eligible (Item.delete_cashback (markItem code pct item))
     = Js.includes (Item.matchedCampaigns (Item.delete_cashback (markItem code pct item)))
         code.
Proof.
  unfold markItem. destruct (Js.includes (Item.matchedCampaigns item) code) eqn:E;
    cbn; rewrite E; split; reflexivity.
Qed.

(** X13: in percentage mode [_processSale] already leaves on every item
    the eligibility that [_markEligibleItemsBasedOnUsedCampaign] computes,
    capped or not: marking the candidate changes nothing. *)
Theorem markEligible_percentage_noop (calendar : Calendar.t) (campaign : Campaign.t)
  (sale : Sale.t) (pct : float) :
  Campaign.percentCashback campaign = Some pct ->
  Js.Number.truthyF pct = true ->
  _markEligibleItemsBasedOnUsedCampaign (_processSale calendar campaign sale)
  = _processSale calendar campaign sale.
Proof.
  intros Hpct Htruthy. apply (markEligible_fixpoint _ (Campaign.code campaign)).
  - unfold _processSale. rewrite (applyMode_percent _ _ pct Hpct Htruthy).
    unfold applyLimit. destruct (Campaign.cashbackLimit campaign) as [l|]; [|reflexivity].
    destruct (negb (l =? 0) && (l <? _)); reflexivity.
  - unfold _processSale. rewrite (applyMode_percent _ _ pct Hpct Htruthy).
    unfold applyLimit.
    assert (Hmarked : Forall (fun item => Item.eligible item
                                = Js.includes (Item.matchedCampaigns item)
                                    (Campaign.code campaign))
                        (map (markItem (Campaign.code campaign) pct) (Sale.items sale))).
    { apply Forall_forall. intros item Hin. apply in_map_iff in Hin.
      destruct Hin as (i & <- & _). apply markItem_eligible. }
    destruct (Campaign.cashbackLimit campaign) as [l|]; [|exact Hmarked].
    destruct (negb (l =? 0) && (l <? _)); [|exact Hmarked].
    cbn [Sale.items Sale.set_items Sale.set_totalCashback].
    apply Forall_forall. intros item Hin. apply in_map_iff in Hin.
    destruct Hin as (j & <- & Hj). apply in_map_iff in Hj.
    destruct Hj as (i & <- & _). apply markItem_eligible.
Qed.

Lemma markEligible_percentage_noop_witness :
  _markEligibleItemsBasedOnUsedCampaign
    (_processSale utc (campaign "P10" (Some 10%float) 0 (Some 150))
       (sale [matchedItem 1000 2 ["P10"]; matchedItem 50 1 []]))
  = _processSale utc (campaign "P10" (Some 10%float) 0 (Some 150))
      (sale [matchedItem 1000 2 ["P10"]; matchedItem 50 1 []]).
Proof.
  apply (markEligible_percentage_noop utc (campaign "P10" (Some 10%float) 0 (Some 150))
           (sale [matchedItem 1000 2 ["P10"]; matchedItem 50 1 []]) 10%float).
  - reflexivity.
  - reflexivity.
Defined.

(** X14: a campaign without a percentage (absent, zero or NaN) gives
    the fixed [valueCashback] as the total whatever the items are, and
    leaves the items untouched; a cap that is absent, zero or positive never
    applies, since it is tested against the running total, which stays 0. *)
Theorem fixed_mode_total (calendar : Calendar.t) (campaign : Campaign.t) (sale : Sale.t) :
  (forall pct, Campaign.percentCashback campaign = Some pct ->
               Js.Number.truthyF pct = false) ->
  (forall limit, Campaign.cashbackLimit campaign = Some limit -> 0 <= limit) ->
  Sale.totalCashback (_processSale calendar campaign sale) = Campaign.valueCashback campaign
  /\ Sale.items (_processSale calendar campaign sale) = Sale.items sale
  /\ Sale.usedCampaign (_processSale calendar campaign sale) = Some (Campaign.code campaign).
Proof.
  intros Hpct Hlimit. unfold _processSale, applyLimit, applyMode.
  assert (Hcap : forall l, Campaign.cashbackLimit campaign = Some l ->
                           negb (l =? 0) && (l <? 0) = false).
  { intros l Hl. specialize (Hlimit l Hl).
    destruct (Z.ltb_spec l 0); [lia | apply andb_false_r]. }
  destruct (Campaign.percentCashback campaign) as [pct|].
  - rewrite (Hpct pct eq_refl).
    destruct (Campaign.cashbackLimit campaign) as [l|]; [|cbn; auto].
    rewrite (Hcap l eq_refl). cbn. auto.
  - destruct (Campaign.cashbackLimit campaign) as [l|]; [|cbn; auto].
    rewrite (Hcap l eq_refl). cbn. auto.
Qed.

Lemma fixed_mode_total_witness :
  Sale.totalCashback
    (_processSale utc (campaign "FIX" (Some 0%float) 1000 (Some 500))
       (sale [matchedItem 100 1 []]))
  = Campaign.valueCashback (campaign "FIX" (Some 0%float) 1000 (Some 500))
  /\ Sale.items
       (_processSale utc (campaign "FIX" (Some 0%float) 1000 (Some 500))
          (sale [matchedItem 100 1 []]))
     = Sale.items (sale [matchedItem 100 1 []])
  /\ Sale.usedCampaign
       (_processSale utc (campaign "FIX" (Some 0%float) 1000 (Some 500))
          (sale [matchedItem 100 1 []]))
     = Some (Campaign.code (campaign "FIX" (Some 0%float) 1000 (Some 500))).
Proof.
  apply (fixed_mode_total utc (campaign "FIX" (Some 0%float) 1000 (Some 500))
           (sale [matchedItem 100 1 []])).
  - intros pct [= <-]. reflexivity.
  - intros limit [= <-]. lia.
Defined.

End CandidateFacts.

(** ** Rules on payments and on items *)

Module RuleFacts.

Import Matcher MatcherFacts Sample.

Lemma payments_forEach (campaign : Campaign.t) (payments : list Payment.t) (result : bool) :
  fold_left (checkPayment campaign) payments result
  = result && forallb (checkPayment campaign true) payments.
Proof.
  revert result. induction payments as [|pM rest IH]; intros result; cbn [fold_left forallb].
  - now rewrite andb_true_r.
  - rewrite IH. unfold checkPayment.
    destruct (filter _ (Campaign.paymentMethod campaign)) as [|allowed others];
      [now rewrite andb_false_r|].
    destruct (Js.includes _ (AllowedPayment.type allowed)); [|reflexivity].
    destruct (AllowedPayment.flags allowed) as [flags|]; [|reflexivity].
    destruct (Payment.flag pM) as [f|]; [|now rewrite andb_false_r].
    destruct (Js.includes flags f); [reflexivity | now rewrite andb_false_r].
Qed.

(** X15: the payment rule holds exactly when every payment of the sale
    is accepted: the campaign lists its type, and when the first entry
    listed for that type is a card entry with flags, the payment carries a
    flag found among them.  Later entries of the same type are not read. *)
Theorem payment_rule_every_payment (campaign : Campaign.t) (sale : Sale.t) :
  _checkPaymentMethodRule campaign sale = true <->
  Forall
    (fun pM =>
       exists allowed others,
         filter (fun p => String.eqb (AllowedPayment.type p) (Payment.type pM))
                (Campaign.paymentMethod campaign) = allowed :: others
         /\ (forall flags,
               In (AllowedPayment.type allowed) ["CREDIT_CARD"; "DEBIT_CARD"] ->
               AllowedPayment.flags allowed = Some flags ->
               exists f, Payment.flag pM = Some f /\ In f flags))
    (Sale.paymentMethod sale).
Proof.
  unfold _checkPaymentMethodRule. rewrite payments_forEach. cbn [andb].
  rewrite forallb_forall, Forall_forall.
  split; intros H pM Hin; specialize (H pM Hin); unfold checkPayment in *.
  - destruct (filter _ (Campaign.paymentMethod campaign)) as [|allowed others];
      [discriminate|].
    exists allowed, others. split; [reflexivity|]. intros flags Hcard Hflags.
    apply includes_In in Hcard. rewrite Hcard, Hflags in H.
    destruct (Payment.flag pM) as [f|]; [|discriminate].
    exists f. split; [reflexivity|]. apply includes_In.
    destruct (Js.includes flags f); [reflexivity | discriminate].
  - destruct H as (allowed & others & -> & Hflags).
    destruct (Js.includes _ (AllowedPayment.type allowed)) eqn:Hcard; [|reflexivity].
    destruct (AllowedPayment.flags allowed) as [flags|]; [|reflexivity].
    apply includes_In in Hcard.
    destruct (Hflags flags Hcard eq_refl) as (f & -> & Hf).
    apply includes_In in Hf. now rewrite Hf.
Qed.

(** X16: the item check succeeds exactly when some item of the sale
    follows some rule of the campaign; so a campaign without rules and a
    sale without items always fail it. *)
Theorem items_rule_some_item (campaign : Campaign.t) (sale : Sale.t) :
  (fst (_checkItemsThatFollowRules campaign sale) = true <->
   exists item rule,
     In item (Sale.items sale) /\ In rule (Campaign.rules campaign)
     /\ followsRule rule item = true)
  /\ (Campaign.rules campaign = [] ->
      fst (_checkItemsThatFollowRules campaign sale) = false)
  /\ (Sale.items sale = [] ->
      fst (_checkItemsThatFollowRules campaign sale) = false).
Proof.
  rewrite checkItemsThatFollowRules_closed. cbn [fst].
  assert (Hiff : existsb (fun item => (0 <? followed campaign item)%nat) (Sale.items sale)
                 = true <->
                 exists item rule,
                   In item (Sale.items sale) /\ In rule (Campaign.rules campaign)
                   /\ followsRule rule item = true).
  { rewrite existsb_exists. unfold followed. split.
    - intros (item & Hin & Hpos). apply Nat.ltb_lt in Hpos.
      destruct (filter (fun rule => followsRule rule item) (Campaign.rules campaign))
        as [|rule others] eqn:Hf; [cbn in Hpos; lia|].
      assert (Hrule : In rule (filter (fun rule => followsRule rule item)
                                      (Campaign.rules campaign)))
        by (rewrite Hf; now left).
      apply filter_In in Hrule. exists item, rule. tauto.
    - intros (item & rule & Hin & Hrule & Hfollows). exists item. split; [exact Hin|].
      apply Nat.ltb_lt.
      assert (Hr : In rule (filter (fun rule => followsRule rule item)
                                   (Campaign.rules campaign)))
        by (apply filter_In; tauto).
      destruct (filter _ (Campaign.rules campaign)); [destruct Hr | cbn; lia]. }
  split; [exact Hiff|]. split.
  - intros Hrules. apply not_true_is_false. intros H. apply Hiff in H.
    destruct H as (item & rule & _ & Hrule & _). rewrite Hrules in Hrule. destruct Hrule.
  - intros Hitems. now rewrite Hitems.
Qed.

End RuleFacts.

(** ** Item Normalizer: a second pass *)

Module ItemFacts.

Import Normalizer NormalizerFacts Sample.

Lemma processItem_again (item item' : Item.t) :
  processItem item = Js.Ok item' -> processItem item' = Js.Ok item'.
Proof.
  unfold processItem.
  destruct (Js.trimOf (nth_error (Js.split "." (Item.partnumber item)) 0))
    as [m|] eqn:Hm; [|discriminate].
  destruct (Js.trimOf (nth_error (Js.split "." (Item.partnumber item)) 1))
    as [c|] eqn:Hc; [|discriminate].
  destruct (Js.trimOf (nth_error (Js.split "." (Item.partnumber item)) 2))
    as [s|] eqn:Hs; [|discriminate].
  cbn [Js.bind]. intros [= <-]. cbn [Item.partnumber Item.set_facets].
  rewrite Hm, Hc, Hs. reflexivity.
Qed.

(** X17: normalizing is idempotent: items that [_processItems] has
    returned pass it again without an exception and come back unchanged. *)
Theorem processItems_again (items items' : list Item.t) :
  _processItems items = Js.Ok items' -> _processItems items' = Js.Ok items'.
Proof.
  unfold _processItems. revert items'.
  induction items as [|item rest IH]; intros items' H; cbn [Js.forEach] in H.
  - now inversion H.
  - destruct (processItem item) as [item'|] eqn:Hitem; [|discriminate].
    cbn [Js.bind] in H.
    destruct (Js.forEach processItem rest) as [rest'|]; [|discriminate].
    cbn [Js.bind] in H. inversion H; subst items'. cbn [Js.forEach].
    now rewrite (processItem_again _ _ Hitem), (IH rest' eq_refl).
Qed.

Lemma processItems_again_witness :
  _processItems
    [Item.set_facets (rawItem " A1 .RED. M" 1000 2) "A1" "RED" "M" 2000]
  = Js.Ok [Item.set_facets (rawItem " A1 .RED. M" 1000 2) "A1" "RED" "M" 2000].
Proof.
  apply (processItems_again [rawItem " A1 .RED. M" 1000 2]). reflexivity.
Defined.

End ItemFacts.

(** ** Wallet *)

Module WalletFacts.

Import Ledger LedgerFacts Wallet Sample.

Lemma sum_forEach (f : Doc.t -> Z) (l : list Doc.t) (start : Z) :
  fold_left (fun sum d => sum + f d) l start = start + fold_right Z.add 0 (map f l).
Proof.
  revert start. induction l as [|d l IH]; intros start; cbn [fold_left map fold_right];
    [lia | rewrite IH; lia].
Qed.

(** [(agg && agg.value) || 0] of a [$group] with a [$sum] is the sum over
    the matched records, 0 when none matches. *)
Lemma balanceOf_group (f : Doc.t -> Z) (matched : list Doc.t) :
  balanceOf (match matched with
             | [] => None
             | d :: l => Some (fold_left (fun sum d => sum + f d) (d :: l) 0)
             end)
  = fold_right Z.add 0 (map f matched).
Proof.
  destruct matched as [|d l]; [reflexivity|]. unfold balanceOf.
  rewrite sum_forEach.
  destruct (Z.eqb_spec (0 + fold_right Z.add 0 (map f (d :: l))) 0); lia.
Qed.

Lemma expiring_part (cpf : string) (deadline : Z) (st : store) :
  Account.sound st ->
  0 <= fold_right Z.add 0 (map availableOf (filter (expiringBy cpf deadline) st))
    <= aggregateBalance st cpf.
Proof.
  unfold Account.sound, aggregateBalance, expiringBy.
  induction 1 as [|d st Hd _ IH]; cbn [filter map fold_right]; [lia|].
  destruct (String.eqb (Doc.cpf d) cpf && Status.eqb (Doc.status d) Status.AVAILABLE);
    cbn [andb]; [|exact IH].
  destruct (match Doc.expirateDate d with Some x => x <=? deadline | None => false end);
    cbn [map fold_right]; lia.
Qed.

Lemma expiring_all (cpf : string) (deadline : Z) (st : store) :
  Forall (fun d => Account.counted cpf d = true -> expiringBy cpf deadline d = true) st ->
  fold_right Z.add 0 (map availableOf (filter (expiringBy cpf deadline) st))
  = aggregateBalance st cpf.
Proof.
  unfold aggregateBalance, Account.counted, expiringBy.
  induction 1 as [|d st Hd _ IH]; cbn [filter map fold_right]; [reflexivity|].
  destruct (String.eqb (Doc.cpf d) cpf && Status.eqb (Doc.status d) Status.AVAILABLE);
    cbn [andb] in *; [|exact IH].
  rewrite (Hd eq_refl). cbn [map fold_right]. now rewrite IH.
Qed.

(** X18: in the summary [wallet] returns, [balance] is the customer's
    aggregate available balance; on a collection without negative balances
    [closeToExpire] lies between 0 and [balance], and it equals [balance]
    when every AVAILABLE record of the customer expires by the deadline. *)
Theorem wallet_close_to_expire_bounded (h : horizon) (st : store) (cpf : string)
  (now : Z) :
  Account.sound st ->
  balance (wallet h st cpf now) = aggregateBalance st cpf
  /\ 0 <= closeToExpire (wallet h st cpf now) <= balance (wallet h st cpf now)
  /\ (Forall (fun d => Account.counted cpf d = true ->
                       expiringBy cpf (expiresBy h now) d = true) st ->
      closeToExpire (wallet h st cpf now) = balance (wallet h st cpf now)).
Proof.
  intros Hsound. unfold wallet. cbn [balance closeToExpire].
  rewrite balanceOf_getBalance. unfold _getCloseToExpire.
  rewrite (balanceOf_group availableOf).
  split; [reflexivity|]. split; [apply expiring_part, Hsound|].
  apply expiring_all.
Qed.

Lemma wallet_close_to_expire_bounded_witness :
  let w := wallet (mkHorizon (fun now => now - 60) (fun now => now + 15))
             [earned 1 Status.AVAILABLE 300 10; earned 2 Status.AVAILABLE 700 20]
             "11122233344" 0 in
  (balance w = aggregateBalance
                 [earned 1 Status.AVAILABLE 300 10; earned 2 Status.AVAILABLE 700 20]
                 "11122233344"
   /\ 0 <= closeToExpire w <= balance w
   /\ (Forall (fun d => Account.counted "11122233344" d = true ->
                        expiringBy "11122233344" 15 d = true)
              [earned 1 Status.AVAILABLE 300 10; earned 2 Status.AVAILABLE 700 20] ->
       closeToExpire w = balance w))
  /\ closeToExpire w = 300 /\ balance w = 1000.
Proof.
  split; [|split; reflexivity].
  apply (wallet_close_to_expire_bounded (mkHorizon (fun now => now - 60) (fun now => now + 15))
           [earned 1 Status.AVAILABLE 300 10; earned 2 Status.AVAILABLE 700 20]
           "11122233344" 0).
  repeat constructor; cbn; lia.
Defined.

End WalletFacts.

(** ** Directory *)

Module DirectoryFacts.

Import Ledger LedgerFacts Directory Sample.

Lemma registered_count (cpf : string) (st : store) :
  List.length
    (filter (fun d => String.eqb (Doc.cpf d) cpf)
       (map (fun d =>
               if String.eqb (Doc.cpf d) cpf
               then set_history (Doc.history d) true d else d) st))
  = List.length (filter (fun d => String.eqb (Doc.cpf d) cpf) st)
  /\ filter (fun d => negb (Doc.userInMycash d))
       (filter (fun d => String.eqb (Doc.cpf d) cpf)
          (map (fun d =>
                  if String.eqb (Doc.cpf d) cpf
                  then set_history (Doc.history d) true d else d) st))
     = [].
Proof.
  induction st as [|d st [IHn IHm]]; [split; reflexivity|]. cbn [map filter].
  destruct (String.eqb (Doc.cpf d) cpf) eqn:E.
  - cbn [Doc.cpf set_history]. rewrite E. cbn [filter List.length Doc.userInMycash negb].
    rewrite IHn, IHm. split; reflexivity.
  - rewrite E. split; assumption.
Qed.

(** X19: [userRegistered] moves no balance and keeps every id; a second
    call for the same customer matches as many records as the first and
    changes none, and afterwards every record of the customer carries the
    flag. *)
Theorem userRegistered_flags_only (cpf : string) (st : store) :
  (forall c, aggregateBalance (snd (userRegistered cpf st)) c = aggregateBalance st c)
  /\ map Doc._id (snd (userRegistered cpf st)) = map Doc._id st
  /\ userRegistered cpf (snd (userRegistered cpf st))
     = (mkUpdated (matchedCount (fst (userRegistered cpf st))) 0,
        snd (userRegistered cpf st))
  /\ Forall (fun d => Doc.cpf d = cpf -> Doc.userInMycash d = true)
            (snd (userRegistered cpf st)).
Proof.
  unfold userRegistered. cbn [fst snd matchedCount].
  split; [|split; [|split]].
  - intros c. induction st as [|d st IH]; [reflexivity|]. cbn [map].
    rewrite !aggregateBalance_cons, IH.
    destruct (String.eqb (Doc.cpf d) cpf); reflexivity.
  - rewrite map_map. apply map_ext. intros d.
    destruct (String.eqb (Doc.cpf d) cpf); reflexivity.
  - destruct (registered_count cpf st) as [Hn Hm]. rewrite Hn, Hm. cbn [List.length].
    apply f_equal2; [reflexivity|]. rewrite map_map. apply map_ext. intros d.
    destruct (String.eqb (Doc.cpf d) cpf) eqn:E; [|now rewrite E].
    cbn [Doc.cpf set_history]. rewrite E. reflexivity.
  - apply Forall_forall. intros d Hin Hcpf. apply in_map_iff in Hin.
    destruct Hin as (d0 & <- & _).
    destruct (String.eqb (Doc.cpf d0) cpf) eqn:E; [reflexivity|].
    apply String.eqb_neq in E. contradiction.
Qed.

End DirectoryFacts.

(** ** Batch *)

Module BatchFacts.

Import Ledger LedgerFacts Sample Batch.










End BatchFacts.

(** ** Invariants of the collection *)

Module InvariantFacts.

Import Ledger LedgerFacts RedemptionFacts Sample.

Lemma writes_ids (usedSales : list Doc.t) (st : store) :
  map Doc._id (fold_left updateOne usedSales st) = map Doc._id st.
Proof.
  revert st. induction usedSales as [|u rest IH]; intros st; cbn [fold_left];
    [reflexivity | now rewrite IH, updateOne_ids].
Qed.

Lemma findByIdAndUpdate_ids (st : store) (id : nat) (f : Doc.t -> Doc.t) :
  (forall d, Doc._id (f d) = Doc._id d) ->
  map Doc._id (findByIdAndUpdate st id f) = map Doc._id st.
Proof.
  intros Hf. unfold findByIdAndUpdate. rewrite map_map. apply map_ext. intros d.
  destruct (Nat.eqb (Doc._id d) id); [apply Hf | reflexivity].
Qed.

Lemma restore_all_ids (id : nat) (hs : list FontEntry.t) (st : store) :
  map Doc._id (fold_left (restore id) hs st) = map Doc._id st.
Proof.
  revert st. induction hs as [|h hs IH]; intros st; cbn [fold_left];
    [reflexivity | now rewrite IH, restore_ids].
Qed.

(** The ids after [_generateCashback]: those before, and at most one new
    id, which is fresh. *)
Lemma generateCashback_ids (e : env) (processSale : received) (st : store) :
  map Doc._id (snd (_generateCashback e processSale st)) = map Doc._id st
  \/ map Doc._id (snd (_generateCashback e processSale st))
     = map Doc._id st ++ [freshId st].
Proof.
  unfold _generateCashback.
  destruct (Sale.usedCashback (data processSale)).
  - destruct (_ <? _); [now left|]. unfold _useCashback.
    destruct (consume _ _ _ _ _ _ _) as [[history usedSales]|x]; cbn [snd].
    + right. rewrite findByIdAndUpdate_ids by reflexivity.
      rewrite writes_ids, map_app. reflexivity.
    + right. rewrite map_app. reflexivity.
  - destruct (findByInvoiceKey st _); [now left|].
    destruct (isUserInBannedList e _); [now left|].
    destruct (Evaluation._calculeCashback _ _ _ _ _) as [[candidates rejected]|x];
      [|now left].
    destruct (Selector._findSaleWithBetterCampaign candidates) as [best|]; [|now left].
    destruct (negb (Js.truthyS _)); [now left|].
    right. cbn [snd]. rewrite map_app. reflexivity.
Qed.

Lemma cancel_ids (id : nat) (st : store) :
  map Doc._id (snd (cancel id st)) = map Doc._id st.
Proof.
  unfold cancel. destruct (findOne st id) as [sale|]; [|reflexivity].
  destruct (Status.eqb (Doc.status sale) Status.CANCELED); [reflexivity|].
  destruct (Status.eqb (Doc.status sale) Status.AVAILABLE); [reflexivity|].
  destruct (Status.eqb (Doc.status sale) Status.EXPIRED); [reflexivity|].
  destruct (Doc.usedCashback sale); cbn [snd].
  - rewrite findByIdAndUpdate_ids by reflexivity. apply restore_all_ids.
  - apply findByIdAndUpdate_ids. reflexivity.
Qed.

(** X21: ids stay unique: if no two records share an id, the same holds
    after [_generateCashback], whether it succeeds or fails, and after
    [cancel], which keeps the very list of ids. *)
Theorem ids_stay_unique (e : env) (processSale : received) (id : nat) (st : store) :
  NoDup (map Doc._id st) ->
  NoDup (map Doc._id (snd (_generateCashback e processSale st)))
  /\ NoDup (map Doc._id (snd (cancel id st)))
  /\ map Doc._id (snd (cancel id st)) = map Doc._id st.
Proof.
  intros Hnd. split; [|rewrite cancel_ids; auto].
  destruct (generateCashback_ids e processSale st) as [-> | ->]; [exact Hnd|].
  apply (Permutation_NoDup (Permutation_cons_append _ _)).
  constructor; [apply freshId_fresh | exact Hnd].
Qed.

Lemma ids_stay_unique_witness :
  NoDup (map Doc._id
           (snd (_generateCashback quiet (redemption 450)
                   [earned 1 Status.AVAILABLE 300 10; earned 2 Status.AVAILABLE 700 20])))
  /\ NoDup (map Doc._id
              (snd (cancel 2 [earned 1 Status.AVAILABLE 300 10;
                              earned 2 Status.AVAILABLE 700 20])))
  /\ map Doc._id
       (snd (cancel 2 [earned 1 Status.AVAILABLE 300 10;
                       earned 2 Status.AVAILABLE 700 20]))
     = map Doc._id [earned 1 Status.AVAILABLE 300 10; earned 2 Status.AVAILABLE 700 20].
Proof.
  apply (ids_stay_unique quiet (redemption 450) 2
           [earned 1 Status.AVAILABLE 300 10; earned 2 Status.AVAILABLE 700 20]).
  repeat constructor; simpl; intuition discriminate.
Defined.

(** The loop debits no record below zero. *)
Lemma consume_sound (now : Z) (key : option string) (id : nat) (sales : list Doc.t) :
  forall (usedValue : Z) (history history' : list FontEntry.t)
         (usedSales usedSales' : list Doc.t),
    Forall (fun d => 0 <= availableOf d) sales ->
    Forall (fun d => 0 <= availableOf d) usedSales ->
    consume now key id sales usedValue history usedSales = Js.Ok (history', usedSales') ->
    Forall (fun d => 0 <= availableOf d) usedSales'.
Proof.
  induction sales as [|s sales IH]; intros v h h' u u' Hs Hu H; cbn [consume] in H.
  - destruct (v =? 0); [|discriminate]. now inversion H; subst.
  - destruct (v =? 0); [now inversion H; subst|].
    inversion Hs as [|? ? Hs0 Hs']; subst.
    destruct (Doc.availableCashback s) as [a|] eqn:Ha.
    + destruct (Z.geb_spec a v).
      * apply (IH _ _ _ _ _ Hs') in H; [exact H|].
        apply Forall_app. split; [exact Hu|]. constructor; [|constructor].
        unfold availableOf. cbn [Doc.availableCashback debit]. lia.
      * destruct (v >? a).
        -- apply (IH _ _ _ _ _ Hs') in H; [exact H|].
           apply Forall_app. split; [exact Hu|]. constructor; [|constructor].
           unfold availableOf. cbn [Doc.availableCashback debit]. lia.
        -- apply (IH _ _ _ _ _ Hs') in H; [exact H|].
           apply Forall_app. split; [exact Hu|]. now constructor.
    + apply (IH _ _ _ _ _ Hs') in H; [exact H|].
      apply Forall_app. split; [exact Hu|]. now constructor.
Qed.

Lemma writes_sound (usedSales : list Doc.t) (st : store) :
  Forall (fun d => 0 <= availableOf d) usedSales ->
  Account.sound st -> Account.sound (fold_left updateOne usedSales st).
Proof.
  unfold Account.sound. intros Hu. revert st.
  induction Hu as [|u rest Hu0 _ IH]; intros st Hst; cbn [fold_left]; [exact Hst|].
  apply IH. unfold updateOne. apply Forall_forall. intros d Hd.
  apply in_map_iff in Hd. destruct Hd as (d0 & <- & Hd0).
  destruct (Nat.eqb (Doc._id d0) (Doc._id u)).
  - exact Hu0.
  - exact (proj1 (Forall_forall _ _) Hst d0 Hd0).
Qed.

Lemma useCashback_sound (now usedValue : Z) (cpf : string) (key : option string)
  (id : nat) (st : store) :
  Account.sound st -> Account.sound (snd (_useCashback now usedValue cpf key id st)).
Proof.
  intros Hst. unfold _useCashback.
  destruct (consume _ _ _ _ _ _ _) as [[history usedSales]|x] eqn:Hc; [|exact Hst].
  cbn [snd]. apply writes_sound; [|exact Hst].
  apply (consume_sound _ _ _ _ _ _ _ _ _) with (3 := Hc); [|constructor].
  unfold findWithCashback. apply Forall_sortDesc.
  apply Forall_forall. intros d Hd. apply filter_In in Hd.
  exact (proj1 (Forall_forall _ _) Hst d (proj1 Hd)).
Qed.

Lemma sound_app (st : store) (d : Doc.t) :
  Account.sound st -> 0 <= availableOf d -> Account.sound (st ++ [d]).
Proof.
  intros Hst Hd. apply Forall_app. split; [exact Hst | now constructor].
Qed.

(** X22: no balance turns negative: on a collection without negative
    balances [_generateCashback] leaves none, for every received sale and
    whether it succeeds or fails. *)
Theorem generateCashback_sound (e : env) (processSale : received) (st : store) :
  Account.sound st -> Account.sound (snd (_generateCashback e processSale st)).
Proof.
  intros Hst. unfold _generateCashback.
  destruct (Sale.usedCashback (data processSale)).
  - destruct (_ <? _); [exact Hst|].
    pose proof (useCashback_sound (now e) (Sale.usedCashbackValue (data processSale))
                  (Sale.customerId (data processSale))
                  (Sale.invoiceKey (data processSale))
                  (Doc._id (usedCashbackDoc (freshId st) (data processSale)))
                  (st ++ [usedCashbackDoc (freshId st) (data processSale)])
                  (sound_app st (usedCashbackDoc (freshId st) (data processSale))
                     Hst (Z.le_refl 0))) as Hu.
    destruct (_useCashback _ _ _ _ _ _) as [[history|x] st1]; cbn [snd] in *;
      [|exact Hu].
    unfold findByIdAndUpdate. apply Forall_forall. intros d Hd.
    apply in_map_iff in Hd. destruct Hd as (d0 & <- & Hd0).
    pose proof (proj1 (Forall_forall _ _) Hu d0 Hd0) as H0.
    destruct (Nat.eqb (Doc._id d0) _); exact H0.
  - destruct (findByInvoiceKey st _); [exact Hst|].
    destruct (isUserInBannedList e _); [exact Hst|].
    destruct (Evaluation._calculeCashback _ _ _ _ _) as [[candidates rejected]|x];
      [|exact Hst].
    destruct (Selector._findSaleWithBetterCampaign candidates) as [best|]; [|exact Hst].
    destruct (negb (Js.truthyS _)); [exact Hst|].
    cbn [snd]. apply sound_app; [exact Hst | apply Z.le_refl].
Qed.

Lemma generateCashback_sound_witness :
  Account.sound
    (snd (_generateCashback quiet (redemption 450)
            [earned 1 Status.AVAILABLE 300 10; earned 2 Status.AVAILABLE 700 20])).
Proof.
  apply (generateCashback_sound quiet (redemption 450)
           [earned 1 Status.AVAILABLE 300 10; earned 2 Status.AVAILABLE 700 20]).
  repeat constructor; cbn; lia.
Defined.

Lemma restore_sound (id : nat) (h : FontEntry.t) (st : store) :
  0 <= FontEntry.usedValue h -> Account.sound st -> Account.sound (restore id st h).
Proof.
  intros Hh Hst. unfold restore. apply Forall_forall. intros d Hd.
  apply in_map_iff in Hd. destruct Hd as (d0 & <- & Hd0).
  pose proof (proj1 (Forall_forall _ _) Hst d0 Hd0) as H0. cbn beta in H0.
  unfold restoreDoc.
  destruct (Nat.eqb (Doc._id d0) (FontEntry.saleId h)
            && negb (Status.eqb (Doc.status d0) Status.EXPIRED)); [|exact H0].
  unfold availableOf at 1. cbn [Doc.availableCashback debit]. lia.
Qed.

(** X23: cancelling a sale whose history holds no negative value
    leaves no negative balance on a collection that had none. *)
Theorem cancel_sound (id : nat) (st : store) :
  Account.sound st ->
  (forall sale, findOne st id = Some sale ->
                Forall (fun h => 0 <= FontEntry.usedValue h) (Doc.history sale)) ->
  Account.sound (snd (cancel id st)).
Proof.
  intros Hst Hhist. unfold cancel.
  destruct (findOne st id) as [sale|]; [|exact Hst].
  specialize (Hhist sale eq_refl).
  destruct (Status.eqb (Doc.status sale) Status.CANCELED); [exact Hst|].
  destruct (Status.eqb (Doc.status sale) Status.AVAILABLE); [exact Hst|].
  destruct (Status.eqb (Doc.status sale) Status.EXPIRED); [exact Hst|].
  assert (Hupd : forall (f : Doc.t -> Doc.t) (s : store),
             (forall d, 0 <= availableOf d -> 0 <= availableOf (f d)) ->
             Account.sound s -> Account.sound (findByIdAndUpdate s id f)).
  { intros f s Hf Hs. unfold findByIdAndUpdate. apply Forall_forall. intros d Hd.
    apply in_map_iff in Hd. destruct Hd as (d0 & <- & Hd0).
    pose proof (proj1 (Forall_forall _ _) Hs d0 Hd0) as H0. cbn beta in H0.
    destruct (Nat.eqb (Doc._id d0) id); [apply Hf, H0 | exact H0]. }
  destruct (Doc.usedCashback sale); cbn [snd].
  - apply Hupd; [intros d Hd; exact Hd|].
    clear Hupd. revert st Hst.
    induction Hhist as [|h hs Hh _ IH]; intros st Hst; cbn [fold_left]; [exact Hst|].
    apply IH, restore_sound; assumption.
  - apply Hupd; [|exact Hst]. intros d _. unfold availableOf. cbn. lia.
Qed.

Lemma cancel_sound_witness :
  Account.sound (snd (cancel 3 afterRedemption)).
Proof.
  apply (cancel_sound 3 afterRedemption).
  - repeat constructor; cbn; lia.
  - intros sale [= <-]. repeat constructor; cbn; lia.
Defined.

End InvariantFacts.

(** ** Dates of a candidate *)

Module DateFacts.

Import Calculator CalculatorFacts Sample.

Lemma processSale_dates (calendar : Calendar.t) (campaign : Campaign.t) (sale : Sale.t) :
  Sale.creditDate (_processSale calendar campaign sale)
  = Sale.creditDate
      (applyDates calendar campaign (Sale.set_usedCampaign sale (Campaign.code campaign)))
  /\ Sale.expirateDate (_processSale calendar campaign sale)
     = Sale.expirateDate
         (applyDates calendar campaign
            (Sale.set_usedCampaign sale (Campaign.code campaign))).
Proof.
  unfold _processSale, applyLimit, applyMode.
  destruct (Campaign.percentCashback campaign) as [pct|].
  - destruct (Js.Number.truthyF pct).
    + rewrite percent_forEach.
      destruct (Campaign.cashbackLimit campaign) as [l|]; [|split; reflexivity].
      destruct (negb (l =? 0) && (l <? _)); split; reflexivity.
    + destruct (Campaign.cashbackLimit campaign) as [l|]; [|split; reflexivity].
      destruct (negb (l =? 0) && (l <? 0)); split; reflexivity.
  - destruct (Campaign.cashbackLimit campaign) as [l|]; [|split; reflexivity].
    destruct (negb (l =? 0) && (l <? 0)); split; reflexivity.
Qed.

(** X24: whatever the mode and the cap, a candidate is credited the
    campaign's days after the start of the verification day: the store days
    for a PDV sale of a campaign that sets them to a non-zero value, the
    e-commerce days otherwise.  With a calendar in which adding days and
    going to the end of a day never move back, and a rescue period that is
    not negative, the expiration is not before the credit date. *)
Theorem candidate_dates (calendar : Calendar.t) (campaign : Campaign.t) (sale : Sale.t) :
  (forall d n, 0 <= n -> d <= Calendar.addDays calendar d n) ->
  (forall d, d <= Calendar.endOfLocalDay calendar d) ->
  0 <= Campaign.daysToRescue campaign ->
  exists credit expirate,
    Sale.creditDate (_processSale calendar campaign sale) = Some credit
    /\ Sale.expirateDate (_processSale calendar campaign sale) = Some expirate
    /\ credit <= expirate
    /\ credit
       = Calendar.addDays calendar
           (Calendar.startOfLocalDay calendar (Sale.verification sale))
           (match Campaign.daysToCreditPdv campaign with
            | Some days =>
                if String.eqb (Sale.salesChannel sale) "PDV" && negb (days =? 0)
                then days else Campaign.daysToCreditEcom campaign
            | None => Campaign.daysToCreditEcom campaign
            end).
Proof.
  intros Hadd Hend Hrescue.
  destruct (processSale_dates calendar campaign sale) as [-> ->].
  unfold applyDates. cbn [Sale.creditDate Sale.expirateDate Sale.set_dates
                            Sale.salesChannel Sale.verification Sale.set_usedCampaign].
  eexists. eexists. split; [reflexivity|]. split; [reflexivity|]. split.
  - eapply Z.le_trans; [apply (Hadd _ _ Hrescue) | apply Hend].
  - unfold Js.truthy. destruct (Campaign.daysToCreditPdv campaign) as [days|].
    + destruct (String.eqb (Sale.salesChannel sale) "PDV" && negb (days =? 0));
        reflexivity.
    + rewrite andb_false_r. reflexivity.
Qed.

Lemma candidate_dates_witness :
  exists credit expirate,
    Sale.creditDate
      (_processSale utc (campaign "P10" (Some 10%float) 0 None)
         (sale [matchedItem 1000 2 ["P10"]])) = Some credit
    /\ Sale.expirateDate
         (_processSale utc (campaign "P10" (Some 10%float) 0 None)
            (sale [matchedItem 1000 2 ["P10"]])) = Some expirate
    /\ credit <= expirate
    /\ credit
       = Calendar.addDays utc
           (Calendar.startOfLocalDay utc (Sale.verification (sale [matchedItem 1000 2 ["P10"]])))
           (match Campaign.daysToCreditPdv (campaign "P10" (Some 10%float) 0 None) with
            | Some days =>
                if String.eqb (Sale.salesChannel (sale [matchedItem 1000 2 ["P10"]])) "PDV"
                   && negb (days =? 0)
                then days
                else Campaign.daysToCreditEcom (campaign "P10" (Some 10%float) 0 None)
            | None => Campaign.daysToCreditEcom (campaign "P10" (Some 10%float) 0 None)
            end).
Proof.
  apply (candidate_dates utc (campaign "P10" (Some 10%float) 0 None)
           (sale [matchedItem 1000 2 ["P10"]])).
  - intros d n Hn. cbn. lia.
  - intros d. cbn. pose proof (Z.mod_pos_bound d 86400000 eq_refl).
    pose proof (Z.div_mod d 86400000). lia.
  - cbn. lia.
Defined.

End DateFacts.

(** ** Simulation *)

Module SimulationFacts.

Import Simulation EvaluationFacts SelectorFacts Sample.

(** X25: [simulateCashback] never returns a simulation: it ends with
    the error of the evaluation, with USER_FOUND_BANNEDLIST, or, when the
    evaluation has succeeded for a customer who is not banned, with the
    [ReferenceError] of the undeclared name [saleWithCashback]. *)
Theorem simulateCashback_never_returns (calendar : Calendar.t) (store : list Doc.t)
  (campaigns : list Campaign.t) (isUserInBannedList : string -> bool)
  (simulateData : Sale.t) :
  (forall r,
     simulateCashback calendar store campaigns isUserInBannedList simulateData
     <> Returned r)
  /\ (forall candidates rejected,
        Evaluation._calculeCashback calendar store campaigns simulateData
          (Sale.customerId simulateData) = Js.Ok (candidates, rejected) ->
        isUserInBannedList (Sale.customerId simulateData) = false ->
        simulateCashback calendar store campaigns isUserInBannedList simulateData
        = Thrown (ReferenceError "saleWithCashback")).
Proof.
  split.
  - intros r. unfold simulateCashback.
    destruct (Evaluation._calculeCashback _ _ _ _ _) as [[candidates rejected]|x];
      [|discriminate].
    destruct (isUserInBannedList _); [discriminate|].
    destruct (Selector._findSaleWithBetterCampaign candidates); discriminate.
  - intros candidates rejected Hcalc Hban. unfold simulateCashback.
    rewrite Hcalc, Hban.
    destruct (calculeCashback_candidates _ _ _ _ _ _ _ Hcalc)
      as (accepted & checked & -> & Hne & _).
    destruct (findSaleWithBetterCampaign_split
                (map (fun c => Calculator._processSale calendar c checked) accepted))
      as (best & _ & _ & -> & _); [|reflexivity].
    destruct accepted; [contradiction | discriminate].
Qed.

Lemma simulateCashback_never_returns_witness :
  simulateCashback utc [] Fixture.offers (fun _ => false) Fixture.cart
  = Thrown (ReferenceError "saleWithCashback").
Proof.
  apply (proj2 (simulateCashback_never_returns utc [] Fixture.offers (fun _ => false)
                  Fixture.cart)
           (Fixture.candidatesOf Fixture.evaluated)
           (Fixture.rejectedOf Fixture.evaluated)).
  - vm_compute. reflexivity.
  - reflexivity.
Defined.

End SimulationFacts.

(** ** Campaigns are judged independently *)

Module IndependenceFacts.

Import Matcher MatcherFacts Evaluation Independence Sample.

Lemma sameItem_refl (code : string) (i : Item.t) : sameItem code i i.
Proof. repeat split. Qed.

Lemma sameItem_trans (code : string) (a b c : Item.t) :
  sameItem code a b -> sameItem code b c -> sameItem code a c.
Proof.
  intros (F1 & U1 & Q1 & T1 & M1) (F2 & U2 & Q2 & T2 & M2).
  split; [intros k; now rewrite F2, F1 | repeat split; congruence].
Qed.

Lemma sameSale_refl (code : string) (s : Sale.t) : sameSale code s s.
Proof.
  repeat split. induction (Sale.items s); constructor; [apply sameItem_refl | assumption].
Qed.

Lemma sameSale_trans (code : string) (a b c : Sale.t) :
  sameSale code a b -> sameSale code b c -> sameSale code a c.
Proof.
  intros (C1 & O1 & P1 & I1) (C2 & O2 & P2 & I2).
  repeat split; try congruence.
  revert I2. generalize (Sale.items c). induction I1 as [|x y l l' Hxy _ IH];
    intros l'' H; inversion H; subst; constructor.
  - eapply sameItem_trans; eassumption.
  - now apply IH.
Qed.

Lemma followsRule_same (code : string) (rule : Rule.t) (i i' : Item.t) :
  sameItem code i i' -> followsRule rule i' = followsRule rule i.
Proof.
  intros (F & _). rewrite !followsRule_forallb. unfold rulesKeys.
  cbn [forallb]. now rewrite !F.
Qed.

Lemma followed_same (code : string) (campaign : Campaign.t) (i i' : Item.t) :
  sameItem code i i' -> followed campaign i' = followed campaign i.
Proof.
  intros H. unfold followed. f_equal. apply filter_ext.
  intros rule. apply (followsRule_same code), H.
Qed.

Lemma counts_same (campaign : Campaign.t) (i i' : Item.t) :
  sameItem (Campaign.code campaign) i i' -> counts campaign i' = counts campaign i.
Proof.
  intros H. unfold counts. rewrite (followed_same _ campaign _ _ H).
  destruct H as (_ & _ & _ & _ & ->). reflexivity.
Qed.

Lemma has_same (campaign : Campaign.t) (l l' : list Item.t) :
  Forall2 (sameItem (Campaign.code campaign)) l l' ->
  existsb (fun item => (0 <? followed campaign item)%nat) l'
  = existsb (fun item => (0 <? followed campaign item)%nat) l.
Proof.
  induction 1 as [|x y l l' Hxy _ IH]; [reflexivity|]. cbn [existsb].
  now rewrite IH, (followed_same _ campaign _ _ Hxy).
Qed.

Lemma sum_same (campaign : Campaign.t) (value : Item.t -> Z) (l l' : list Item.t) :
  (forall x y, sameItem (Campaign.code campaign) x y -> value y = value x) ->
  Forall2 (sameItem (Campaign.code campaign)) l l' ->
  fold_right Z.add 0 (map (fun item => if counts campaign item then value item else 0) l')
  = fold_right Z.add 0 (map (fun item => if counts campaign item then value item else 0) l).
Proof.
  intros Hvalue. induction 1 as [|x y l l' Hxy _ IH]; [reflexivity|].
  cbn [map fold_right]. now rewrite IH, (counts_same _ _ _ Hxy), (Hvalue _ _ Hxy).
Qed.

(** Sales that look the same to a campaign get the same verdict from it. *)
Lemma verdict_same (store : list Doc.t) (campaign : Campaign.t) (s s' : Sale.t)
  (cpf : string) :
  sameSale (Campaign.code campaign) s s' ->
  fst (_checkSaleCampaign store campaign s' cpf)
  = fst (_checkSaleCampaign store campaign s cpf).
Proof.
  intros (Hc & Ho & Hp & Hi).
  unfold _checkSaleCampaign, _checkSalesChannelRule, _checkSubsidiariesChannelRule,
    _checkPaymentMethodRule.
  rewrite !checkItemsThatFollowRules_closed, Hc, Ho, Hp, (has_same campaign _ _ Hi).
  unfold _checkMaxsalesCartRule, _checkMinSaleValueRule, totalItems, totalValue.
  cbn [Sale.items Sale.set_items].
  rewrite !(reduce_annotated campaign Item.quantity (fun _ => eq_refl)).
  rewrite !(reduce_annotated campaign Item.totalPrice (fun _ => eq_refl)).
  rewrite (sum_same campaign Item.quantity _ _ (fun x y H => proj1 (proj2 (proj2 H))) Hi).
  rewrite (sum_same campaign Item.totalPrice _ _
             (fun x y H => proj1 (proj2 (proj2 (proj2 H)))) Hi).
  repeat match goal with
         | |- context [if ?b then (_, _) else _] => destruct b
         end; reflexivity.
Qed.

Lemma includes_repeat_other (code other : string) (k : nat) :
  other <> code -> Js.includes (repeat other k) code = false.
Proof.
  intros Hne. induction k as [|k IH]; [reflexivity|]. cbn [repeat Js.includes].
  rewrite IH. apply String.eqb_neq in Hne. now rewrite Hne.
Qed.

Lemma annotate_same (code : string) (campaign : Campaign.t) (i : Item.t) :
  Campaign.code campaign <> code -> sameItem code i (annotate campaign i).
Proof.
  intros Hne. unfold annotate. repeat split.
  cbn [Item.matchedCampaigns Item.set_matching].
  rewrite includes_app, (includes_repeat_other _ _ _ Hne). apply orb_false_r.
Qed.

(** The check of another campaign leaves the sale looking the same. *)
Lemma check_same (store : list Doc.t) (code : string) (campaign : Campaign.t)
  (s : Sale.t) (cpf : string) :
  Campaign.code campaign <> code ->
  sameSale code s (snd (_checkSaleCampaign store campaign s cpf)).
Proof.
  intros Hne.
  assert (Hann : sameSale code s
                   (Sale.set_items s (map (annotate campaign) (Sale.items s)))).
  { repeat split. cbn [Sale.items Sale.set_items].
    induction (Sale.items s); constructor; [apply annotate_same, Hne | assumption]. }
  unfold _checkSaleCampaign. rewrite checkItemsThatFollowRules_closed.
  repeat match goal with
         | |- context [if ?b then (_, _) else _] => destruct b
         end; cbn [snd]; first [apply sameSale_refl | exact Hann].
Qed.

(** The loop of [_calculeCashback] on campaigns of distinct codes. *)
Lemma checkAll_alone (store : list Doc.t) (customerId : string) (sale0 : Sale.t)
  (campaigns : list Campaign.t) :
  forall (s : Sale.t) (valid : list Campaign.t) (rejected : list rejection),
    NoDup (map Campaign.code campaigns) ->
    (forall c, In c campaigns -> sameSale (Campaign.code c) sale0 s) ->
    exists checked,
      checkAll store campaigns s customerId valid rejected
      = (valid ++ accepted store sale0 customerId campaigns,
         rejected ++ refused store sale0 customerId campaigns,
         checked).
Proof.
  induction campaigns as [|c cs IH]; intros s valid rejected Hnd Hsame.
  - exists s. cbn. now rewrite !app_nil_r.
  - cbn [map] in Hnd. apply NoDup_cons_iff in Hnd. destruct Hnd as [Hc Hnd].
    cbn [checkAll].
    pose proof (verdict_same store c sale0 s customerId (Hsame c (or_introl eq_refl)))
      as Hv.
    assert (Hnext : forall c', In c' cs ->
              sameSale (Campaign.code c') sale0
                (snd (_checkSaleCampaign store c s customerId))).
    { intros c' Hc'. eapply sameSale_trans; [apply Hsame; now right|].
      apply check_same. intros Heq. apply Hc. rewrite Heq. apply in_map, Hc'. }
    destruct (_checkSaleCampaign store c s customerId) as [v s1]. cbn [fst snd] in *.
    assert (Ha : alone store sale0 customerId c = v) by (symmetry; exact Hv).
    unfold accepted, refused. cbn [filter]. rewrite !Ha.
    destruct (Matcher.isValid v) eqn:Ev; cbn [negb map].
    + destruct (IH s1 (valid ++ [c]) rejected Hnd Hnext) as (checked & ->).
      exists checked. unfold accepted, refused. now rewrite <- app_assoc.
    + destruct (IH s1 valid (rejected ++ [mkRejection (Matcher.reason v) (Campaign.code c)])
                  Hnd Hnext) as (checked & ->).
      exists checked. unfold accepted, refused. now rewrite Ha, <- app_assoc.
Qed.

(** X26: campaigns of distinct codes are judged independently although
    they share the sale: the candidates are the campaigns that are valid
    when checked alone on the normalized sale, in order, and every other
    campaign is rejected with the reason it gets alone; when none is valid
    alone the evaluation fails with SALE_NOT_MATCH_ANY_CAMPAIGN. *)
Theorem campaigns_judged_alone (calendar : Calendar.t) (store : list Doc.t)
  (campaigns : list Campaign.t) (sale : Sale.t) (customerId : string)
  (items : list Item.t) :
  NoDup (map Campaign.code campaigns) ->
  Normalizer._processItems (Sale.items sale) = Js.Ok items ->
  match accepted store (Sale.set_items sale items) customerId campaigns with
  | [] =>
      _calculeCashback calendar store campaigns sale customerId
      = Js.Throw (Js.Error "SALE_NOT_MATCH_ANY_CAMPAIGN")
  | valid =>
      exists checked,
        _calculeCashback calendar store campaigns sale customerId
        = Js.Ok (map (fun c => Calculator._processSale calendar c checked) valid,
                 refused store (Sale.set_items sale items) customerId campaigns)
  end.
Proof.
  intros Hnd Hitems. unfold _calculeCashback. rewrite Hitems. cbn [Js.bind].
  destruct (checkAll_alone store customerId (Sale.set_items sale items) campaigns
              (Sale.set_items sale items) [] [] Hnd) as (checked & ->).
  { intros c _. apply sameSale_refl. }
  cbn [app].
  destruct (accepted store (Sale.set_items sale items) customerId campaigns) as [|c cs].
  - reflexivity.
  - exists checked.
    destruct (Z.ltb_spec (Z.of_nat (List.length (c :: cs))) 1) as [H|_];
      [cbn [List.length] in H; lia | reflexivity].
Qed.

Lemma campaigns_judged_alone_witness :
  (exists checked,
     _calculeCashback utc [] Fixture.offers Fixture.cart "11122233344"
     = Js.Ok (map (fun c => Calculator._processSale utc c checked)
                  [campaign "P10" (Some 10%float) 0 None; campaign "FIX" None 150 None],
              [mkRejection (Some "FAIL_SALES_CHANNEL_RULE") "PDV1"]))
  /\ _calculeCashback utc [] [Fixture.storeOnly] Fixture.cart "11122233344"
     = Js.Throw (Js.Error "SALE_NOT_MATCH_ANY_CAMPAIGN").
Proof.
  split.
  - apply (campaigns_judged_alone utc [] Fixture.offers Fixture.cart "11122233344"
             [Item.set_facets (rawItem "A1.RED.M" 1000 2) "A1" "RED" "M" 2000;
              Item.set_facets (rawItem "B2.BLUE.G" 199 1) "B2" "BLUE" "G" 199]).
    + repeat constructor; simpl; intuition discriminate.
    + reflexivity.
  - apply (campaigns_judged_alone utc [] [Fixture.storeOnly] Fixture.cart "11122233344"
             [Item.set_facets (rawItem "A1.RED.M" 1000 2) "A1" "RED" "M" 2000;
              Item.set_facets (rawItem "B2.BLUE.G" 199 1) "B2" "BLUE" "G" 199]).
    + repeat constructor; simpl; intuition discriminate.
    + reflexivity.
Defined.

Lemma checkAll_same (store : list Doc.t) (customerId code : string)
  (campaigns : list Campaign.t) :
  forall (s : Sale.t) (valid valid' : list Campaign.t)
         (rejected rejected' : list rejection) (checked : Sale.t),
    (forall c, In c campaigns -> Campaign.code c <> code) ->
    checkAll store campaigns s customerId valid rejected = (valid', rejected', checked) ->
    sameSale code s checked.
Proof.
  induction campaigns as [|c cs IH]; intros s valid valid' rejected rejected' checked Hne H.
  - cbn in H. inversion H; subst. apply sameSale_refl.
  - cbn [checkAll] in H.
    pose proof (check_same store code c s customerId (Hne c (or_introl eq_refl))) as Hs.
    destruct (_checkSaleCampaign store c s customerId) as [v s1]. cbn [snd] in Hs.
    apply (sameSale_trans code s s1 checked Hs).
    destruct (Matcher.isValid v);
      apply (IH _ _ _ _ _ _ (fun c' Hc' => Hne c' (or_intror Hc')) H).
Qed.

Lemma check_valid_items (store : list Doc.t) (campaign : Campaign.t) (s : Sale.t)
  (cpf : string) :
  Matcher.isValid (fst (_checkSaleCampaign store campaign s cpf)) = true ->
  Sale.items (snd (_checkSaleCampaign store campaign s cpf))
  = map (annotate campaign) (Sale.items s).
Proof.
  unfold _checkSaleCampaign. rewrite checkItemsThatFollowRules_closed.
  repeat match goal with
         | |- context [if ?b then (_, _) else _] => destruct b
         end; cbn; intros H; first [discriminate H | reflexivity].
Qed.

Lemma marked_same (campaign : Campaign.t) (s0 s1 s2 : Sale.t) :
  marked campaign s0 s1 -> sameSale (Campaign.code campaign) s1 s2 ->
  marked campaign s0 s2.
Proof.
  unfold marked. intros H (_ & _ & _ & Hi). revert Hi. generalize (Sale.items s2).
  induction H as [|i0 i1 l0 l1 (U & Q & M) _ IH]; intros l2 Hi;
    inversion Hi as [|? i2 ? l2' (_ & U' & Q' & _ & M') Hrest]; subst; constructor.
  - repeat split; congruence.
  - apply IH, Hrest.
Qed.

(** After the loop, the items carry the code of every campaign that is
    valid alone exactly where they count for it. *)
Lemma checkAll_marks (store : list Doc.t) (customerId : string) (sale0 : Sale.t)
  (campaigns : list Campaign.t) :
  forall (s : Sale.t) (valid valid' : list Campaign.t)
         (rejected rejected' : list rejection) (checked : Sale.t),
    NoDup (map Campaign.code campaigns) ->
    (forall c, In c campaigns -> sameSale (Campaign.code c) sale0 s) ->
    checkAll store campaigns s customerId valid rejected = (valid', rejected', checked) ->
    forall c, In c campaigns ->
              Matcher.isValid (alone store sale0 customerId c) = true ->
              marked c sale0 checked.
Proof.
  induction campaigns as [|c1 cs IH];
    intros s valid valid' rejected rejected' checked Hnd Hsame H c Hin Hvalid;
    [destruct Hin|].
  cbn [map] in Hnd. apply NoDup_cons_iff in Hnd. destruct Hnd as [Hc1 Hnd].
  cbn [checkAll] in H.
  pose proof (verdict_same store c1 sale0 s customerId (Hsame c1 (or_introl eq_refl)))
    as Hv.
  pose proof (check_valid_items store c1 s customerId) as Hitems.
  assert (Hnext : forall c', In c' cs ->
            sameSale (Campaign.code c') sale0
              (snd (_checkSaleCampaign store c1 s customerId))).
  { intros c' Hc'. eapply sameSale_trans; [apply Hsame; now right|].
    apply check_same. intros Heq. apply Hc1. rewrite Heq. apply in_map, Hc'. }
  destruct (_checkSaleCampaign store c1 s customerId) as [v s1]. cbn [fst snd] in *.
  assert (Hrest : exists valid0 rejected0,
             checkAll store cs s1 customerId valid0 rejected0
             = (valid', rejected', checked)).
  { destruct (Matcher.isValid v); eauto. }
  destruct Hrest as (valid0 & rejected0 & Hrest).
  destruct Hin as [<-|Hin].
  - unfold alone in Hvalid. rewrite <- Hv in Hvalid.
    apply (marked_same c1 sale0 s1 checked).
    + unfold marked. rewrite (Hitems Hvalid).
      destruct (Hsame c1 (or_introl eq_refl)) as (_ & _ & _ & Hi).
      clear - Hi. induction Hi as [|i0 i l0 l Hxy _ IHi]; cbn [map]; constructor.
      * rewrite annotate_counts, (counts_same _ _ _ Hxy).
        destruct Hxy as (_ & U & Q & _). repeat split; assumption.
      * exact IHi.
    + apply (checkAll_same store customerId (Campaign.code c1) cs _ _ _ _ _ _) with (2 := Hrest).
      intros c' Hc' Heq. apply Hc1. rewrite <- Heq. apply in_map, Hc'.
  - exact (IH _ _ _ _ _ _ Hnd Hnext Hrest c Hin Hvalid).
Qed.

Lemma computedTotal_marked (campaign : Campaign.t) (pct : float) (s0 s : Sale.t) :
  marked campaign s0 s ->
  Calculator.computedTotal (Campaign.code campaign) pct (Sale.items s)
  = percentageTotal campaign pct (Sale.items s0).
Proof.
  unfold marked, Calculator.computedTotal, percentageTotal.
  induction 1 as [|i0 i l0 l (U & Q & M) _ IH]; [reflexivity|].
  cbn [map fold_right]. now rewrite IH, U, Q, M.
Qed.

(** X27: the total of a percentage candidate, end to end: among
    campaigns of distinct codes, a campaign in percentage mode that is valid
    alone yields a candidate filed under its code whose total is the
    percentage over the normalized items that count for it (those holding
    its code already or following one of its rules), capped by a non-zero
    limit below it; the other campaigns of the evaluation do not change
    it. *)
Theorem percentage_candidate_total (calendar : Calendar.t) (store : list Doc.t)
  (campaigns : list Campaign.t) (sale : Sale.t) (customerId : string)
  (items : list Item.t) (campaign : Campaign.t) (pct : float) :
  NoDup (map Campaign.code campaigns) ->
  Normalizer._processItems (Sale.items sale) = Js.Ok items ->
  In campaign campaigns ->
  Matcher.isValid (alone store (Sale.set_items sale items) customerId campaign) = true ->
  Campaign.percentCashback campaign = Some pct ->
  Js.Number.truthyF pct = true ->
  exists candidates rejected candidate,
    _calculeCashback calendar store campaigns sale customerId
    = Js.Ok (candidates, rejected)
    /\ In candidate candidates
    /\ Sale.usedCampaign candidate = Some (Campaign.code campaign)
    /\ Sale.totalCashback candidate
       = capped campaign (percentageTotal campaign pct items).
Proof.
  intros Hnd Hitems Hin Hvalid Hpct Htruthy.
  unfold _calculeCashback. rewrite Hitems. cbn [Js.bind].
  destruct (checkAll_alone store customerId (Sale.set_items sale items) campaigns
              (Sale.set_items sale items) [] [] Hnd) as (checked & Hall).
  { intros c _. apply sameSale_refl. }
  pose proof (checkAll_marks store customerId (Sale.set_items sale items) campaigns
                _ _ _ _ _ _ Hnd (fun c _ => sameSale_refl _ _) Hall campaign Hin Hvalid)
    as Hmarked.
  rewrite Hall. cbn [app].
  assert (Hacc : In campaign
                   (accepted store (Sale.set_items sale items) customerId campaigns)).
  { unfold accepted. apply filter_In. split; assumption. }
  destruct (accepted store (Sale.set_items sale items) customerId campaigns)
    as [|c cs] eqn:Eacc; [destruct Hacc|].
  destruct (Z.ltb_spec (Z.of_nat (List.length (c :: cs))) 1) as [H|_];
    [cbn [List.length] in H; lia|].
  eexists. eexists. exists (Calculator._processSale calendar campaign checked).
  split; [reflexivity|]. split.
  { apply in_map_iff. exists campaign. split; [reflexivity | exact Hacc]. }
  split.
  { apply (EvaluationFacts.processSale_frame calendar campaign checked). }
  unfold Calculator._processSale.
  rewrite (CalculatorFacts.applyMode_percent _ _ pct Hpct Htruthy).
  unfold Calculator.applyLimit, capped.
  cbn [Sale.items Sale.set_usedCampaign Calculator.applyDates Sale.set_dates].
  rewrite (computedTotal_marked campaign pct _ checked Hmarked).
  cbn [Sale.items Sale.set_items].
  destruct (Campaign.cashbackLimit campaign) as [l|]; [|reflexivity].
  destruct (negb (l =? 0) && (l <? _)); reflexivity.
Qed.

Lemma percentage_candidate_total_witness :
  exists candidates rejected candidate,
    _calculeCashback utc [] Fixture.offers Fixture.cart "11122233344"
    = Js.Ok (candidates, rejected)
    /\ In candidate candidates
    /\ Sale.usedCampaign candidate
       = Some (Campaign.code (campaign "P10" (Some 10%float) 0 None))
    /\ Sale.totalCashback candidate
       = capped (campaign "P10" (Some 10%float) 0 None)
           (percentageTotal (campaign "P10" (Some 10%float) 0 None) 10%float
              [Item.set_facets (rawItem "A1.RED.M" 1000 2) "A1" "RED" "M" 2000;
               Item.set_facets (rawItem "B2.BLUE.G" 199 1) "B2" "BLUE" "G" 199]).
Proof.
  apply (percentage_candidate_total utc [] Fixture.offers Fixture.cart "11122233344"
           [Item.set_facets (rawItem "A1.RED.M" 1000 2) "A1" "RED" "M" 2000;
            Item.set_facets (rawItem "B2.BLUE.G" 199 1) "B2" "BLUE" "G" 199]
           (campaign "P10" (Some 10%float) 0 None) 10%float).
  - repeat constructor; simpl; intuition discriminate.
  - reflexivity.
  - now left.
  - reflexivity.
  - reflexivity.
  - reflexivity.
Defined.

End IndependenceFacts.

(** ** The allocation is greedy in the order of the query *)

Module GreedyFacts.

Import Ledger LedgerFacts RedemptionFacts Sample.

(** The loop on records that all hold a positive balance: it drains a
    prefix and takes the remainder from the next record. *)
Lemma consume_greedy (now : Z) (key : option string) (id : nat) (sales : list Doc.t) :
  Forall (fun d => Doc.availableCashback d = Some (availableOf d) /\ 0 < availableOf d)
         sales ->
  forall (usedValue : Z) (history : list FontEntry.t) (usedSales : list Doc.t),
    0 < usedValue <= fold_right Z.add 0 (map availableOf sales) ->
    exists used lastDoc rest drained lastWritten,
      sales = used ++ lastDoc :: rest
      /\ fold_right Z.add 0 (map availableOf used) < usedValue
         <= fold_right Z.add 0 (map availableOf used) + availableOf lastDoc
      /\ consume now key id sales usedValue history usedSales
         = Js.Ok (history
                  ++ map (fun d => _createCashbackFontHistory now (availableOf d)
                                     (Doc.invoiceKey d) (Doc._id d)) used
                  ++ [_createCashbackFontHistory now
                        (usedValue - fold_right Z.add 0 (map availableOf used))
                        (Doc.invoiceKey lastDoc) (Doc._id lastDoc)],
                  usedSales ++ drained ++ [lastWritten])
      /\ Forall2 (fun d w => Doc._id w = Doc._id d /\ Doc.availableCashback w = Some 0)
                 used drained
      /\ Doc._id lastWritten = Doc._id lastDoc
      /\ Doc.availableCashback lastWritten
         = Some (availableOf lastDoc
                 - (usedValue - fold_right Z.add 0 (map availableOf used))).
Proof.
  induction 1 as [|sale sales [Hsome Hpos] _ IH]; intros v h u Hv.
  - cbn in Hv. lia.
  - cbn [map fold_right] in Hv. cbn [consume].
    destruct (Z.eqb_spec v 0) as [E|_]; [lia|]. rewrite Hsome.
    destruct (Z.geb_spec (availableOf sale) v) as [Hge|Hlt].
    + exists [], sale, sales, []. eexists. cbn [app map fold_right].
      split; [reflexivity|]. split; [lia|]. rewrite consume_zero, Z.sub_0_r.
      split; [reflexivity|]. split; [constructor|]. split; reflexivity.
    + destruct (Z.gtb_spec v (availableOf sale)) as [_|Hle]; [|lia].
      destruct (IH (v - availableOf sale)
                  (h ++ [_createCashbackFontHistory now (availableOf sale)
                           (Doc.invoiceKey sale) (Doc._id sale)])
                  (u ++ [debit sale (Some 0)
                           (_createOrAddCashbackUseHistory now (availableOf sale) key
                              (Doc.cashbackUseHistory sale) id)]))
        as (used & lastDoc & rest & drained & lastWritten
            & -> & Hbound & -> & Hdrained & Hid & Hav); [lia|].
      exists (sale :: used), lastDoc, rest. eexists (_ :: drained), lastWritten.
      cbn [app map fold_right]. split; [reflexivity|]. split; [lia|].
      rewrite <- !app_assoc. cbn [app].
      replace (v - (availableOf sale + fold_right Z.add 0 (map availableOf used)))
        with (v - availableOf sale - fold_right Z.add 0 (map availableOf used)) by lia.
      split; [reflexivity|]. split; [|split; assumption].
      constructor; [|exact Hdrained]. split; reflexivity.
Qed.

Lemma writes_other (d : Doc.t) (usedSales : list Doc.t) :
  forall st : store,
    In d st -> (forall u, In u usedSales -> Doc._id u <> Doc._id d) ->
    In d (fold_left updateOne usedSales st).
Proof.
  induction usedSales as [|u us IH]; intros st Hin Hne; cbn [fold_left]; [exact Hin|].
  apply IH.
  - apply updateOne_other; [exact Hin|]. intros E. apply (Hne u); [now left | now rewrite E].
  - intros u' Hu'. apply Hne. now right.
Qed.

(** Every record written is found in the collection with the balance
    written, when the records written are distinct records of the
    collection. *)
Lemma writes_in (usedSales : list Doc.t) :
  forall st : store,
    NoDup (map Doc._id usedSales) ->
    (forall u, In u usedSales -> In (Doc._id u) (map Doc._id st)) ->
    forall u, In u usedSales ->
      exists d, In d (fold_left updateOne usedSales st)
                /\ Doc._id d = Doc._id u
                /\ Doc.availableCashback d = Doc.availableCashback u.
Proof.
  induction usedSales as [|u1 us IH]; intros st Hnd Hids u Hu; [destruct Hu|].
  cbn [map] in Hnd. apply NoDup_cons_iff in Hnd. destruct Hnd as [Hu1 Hnd].
  cbn [fold_left]. destruct Hu as [<-|Hu].
  - destruct (proj1 (in_map_iff _ _ _) (Hids u1 (or_introl eq_refl))) as (s & Hs & Hin).
    exists (debit s (Doc.availableCashback u1) (Doc.cashbackUseHistory u1)).
    split; [|split; reflexivity || exact Hs].
    apply writes_other.
    + unfold updateOne. apply in_map_iff. exists s. split; [|exact Hin].
      apply Nat.eqb_eq in Hs. now rewrite Hs.
    + intros u' Hu' E. apply Hu1. cbn [Doc._id debit] in E. rewrite <- Hs, <- E.
      apply in_map, Hu'.
  - apply IH; [exact Hnd | | exact Hu].
    intros u' Hu'. rewrite updateOne_ids. apply Hids. now right.
Qed.

Lemma findWithCashback_ids (st : store) (cpf : string) :
  NoDup (map Doc._id st) -> NoDup (map Doc._id (findWithCashback st cpf)).
Proof.
  intros Hnd. unfold findWithCashback.
  apply (Permutation_NoDup (Permutation_map Doc._id
           (Permutation_sym (sortDesc_Permutation _)))).
  now apply hasCashback_ids.
Qed.

(** X28: the allocation is greedy in the order of the query: for an
    amount above 0 and within the balance, [_useCashback] splits the records
    found into a prefix, one record and a rest; the prefix is drained, each
    record giving a history entry of all it held and being left at 0; the
    one record gives the remainder, which it can cover, and keeps the
    difference; the rest and every other record of the collection are left
    as they are. *)
Theorem useCashback_greedy (now usedValue : Z) (cpf : string)
  (key : option string) (id : nat) (st : store) :
  NoDup (map Doc._id st) ->
  Account.sound st ->
  0 < usedValue <= aggregateBalance st cpf ->
  exists used lastDoc rest st',
    findWithCashback st cpf = used ++ lastDoc :: rest
    /\ fold_right Z.add 0 (map availableOf used) < usedValue
       <= fold_right Z.add 0 (map availableOf used) + availableOf lastDoc
    /\ _useCashback now usedValue cpf key id st
       = (Js.Ok (map (fun d => _createCashbackFontHistory now (availableOf d)
                                 (Doc.invoiceKey d) (Doc._id d)) used
                 ++ [_createCashbackFontHistory now
                       (usedValue - fold_right Z.add 0 (map availableOf used))
                       (Doc.invoiceKey lastDoc) (Doc._id lastDoc)]),
          st')
    /\ (forall d, In d used ->
          exists d', In d' st' /\ Doc._id d' = Doc._id d
                     /\ Doc.availableCashback d' = Some 0)
    /\ (exists d', In d' st' /\ Doc._id d' = Doc._id lastDoc
                   /\ Doc.availableCashback d'
                      = Some (availableOf lastDoc
                              - (usedValue - fold_right Z.add 0 (map availableOf used))))
    /\ (forall d, In d st ->
          (forall u, In u (used ++ [lastDoc]) -> Doc._id u <> Doc._id d) ->
          In d st').
Proof.
  intros Hnd Hst Hv. unfold _useCashback.
  rewrite <- (findWithCashback_sum st cpf Hst) in Hv.
  destruct (consume_greedy now key id _ (findWithCashback_positive st cpf)
              usedValue [] [] Hv)
    as (used & lastDoc & rest & drained & lastWritten
        & Hsplit & Hbound & -> & Hdrained & Hid & Hav).
  cbn [app].
  exists used, lastDoc, rest, (fold_left updateOne (drained ++ [lastWritten]) st).
  split; [exact Hsplit|]. split; [exact Hbound|]. split; [reflexivity|].
  assert (Hids : map Doc._id (drained ++ [lastWritten]) = map Doc._id (used ++ [lastDoc])).
  { rewrite !map_app. cbn [map]. rewrite Hid. f_equal.
    clear - Hdrained. induction Hdrained as [|d w l l' [Hw _] _ IH]; [reflexivity|].
    cbn [map]. now rewrite Hw, IH. }
  assert (Hfound : forall u, In u (used ++ [lastDoc]) -> In u (findWithCashback st cpf)).
  { intros u Hu. rewrite Hsplit. apply in_app_or in Hu. apply in_or_app.
    destruct Hu as [Hu|[<-|[]]]; [now left | right; now left]. }
  assert (Hwnd : NoDup (map Doc._id (drained ++ [lastWritten]))).
  { rewrite Hids. pose proof (findWithCashback_ids st cpf Hnd) as Hall.
    rewrite Hsplit in Hall.
    replace (used ++ lastDoc :: rest) with ((used ++ [lastDoc]) ++ rest) in Hall
      by (rewrite <- app_assoc; reflexivity).
    rewrite map_app in Hall. exact (NoDup_app_remove_r _ _ Hall). }
  assert (Hwin : forall w, In w (drained ++ [lastWritten]) ->
                           In (Doc._id w) (map Doc._id st)).
  { intros w Hw. apply (in_map Doc._id) in Hw. rewrite Hids in Hw.
    apply in_map_iff in Hw. destruct Hw as (u & <- & Hu).
    apply in_map. apply Hfound in Hu. now apply findWithCashback_in in Hu. }
  pose proof (writes_in (drained ++ [lastWritten]) st Hwnd Hwin) as Hwritten.
  split; [|split].
  - intros d Hd.
    assert (Hw : exists w, In w drained /\ Doc._id w = Doc._id d
                           /\ Doc.availableCashback w = Some 0).
    { clear - Hdrained Hd. induction Hdrained as [|x w l l' [Hw Ha] _ IH];
        [destruct Hd|].
      destruct Hd as [<-|Hd]; [exists w; split; [now left | auto]|].
      destruct (IH Hd) as (w' & Hin & H). exists w'. split; [now right | exact H]. }
    destruct Hw as (w & Hw & Hwid & Hwa).
    destruct (Hwritten w (in_or_app _ _ _ (or_introl Hw))) as (d' & Hin & Hd'id & Hd'a).
    exists d'. split; [exact Hin|]. split; congruence.
  - assert (Hlast : In lastWritten (drained ++ [lastWritten]))
      by (apply in_or_app; right; now left).
    destruct (Hwritten lastWritten Hlast) as (d' & Hin & Hd'id & Hd'a).
    exists d'. split; [exact Hin|]. split; congruence.
  - intros d Hd Hne. apply writes_other; [exact Hd|].
    intros w Hw. apply (in_map Doc._id) in Hw. rewrite Hids in Hw.
    apply in_map_iff in Hw. destruct Hw as (u & Hu & Hin). rewrite <- Hu.
    apply Hne, Hin.
Qed.

Lemma useCashback_greedy_witness :
  exists used lastDoc rest st',
    findWithCashback
      [earned 1 Status.AVAILABLE 300 10; earned 2 Status.AVAILABLE 700 20] "11122233344"
    = used ++ lastDoc :: rest
    /\ fold_right Z.add 0 (map availableOf used) < 800
       <= fold_right Z.add 0 (map availableOf used) + availableOf lastDoc
    /\ _useCashback 0 800 "11122233344" (Some "NF-R") 9
         [earned 1 Status.AVAILABLE 300 10; earned 2 Status.AVAILABLE 700 20]
       = (Js.Ok (map (fun d => _createCashbackFontHistory 0 (availableOf d)
                                 (Doc.invoiceKey d) (Doc._id d)) used
                 ++ [_createCashbackFontHistory 0
                       (800 - fold_right Z.add 0 (map availableOf used))
                       (Doc.invoiceKey lastDoc) (Doc._id lastDoc)]),
          st')
    /\ (forall d, In d used ->
          exists d', In d' st' /\ Doc._id d' = Doc._id d
                     /\ Doc.availableCashback d' = Some 0)
    /\ (exists d', In d' st' /\ Doc._id d' = Doc._id lastDoc
                   /\ Doc.availableCashback d'
                      = Some (availableOf lastDoc
                              - (800 - fold_right Z.add 0 (map availableOf used))))
    /\ (forall d,
          In d [earned 1 Status.AVAILABLE 300 10; earned 2 Status.AVAILABLE 700 20] ->
          (forall u, In u (used ++ [lastDoc]) -> Doc._id u <> Doc._id d) ->
          In d st').
Proof.
  apply (useCashback_greedy 0 800 "11122233344" (Some "NF-R") 9
           [earned 1 Status.AVAILABLE 300 10; earned 2 Status.AVAILABLE 700 20]).
  - repeat constructor; simpl; intuition discriminate.
  - repeat constructor; cbn; lia.
  - vm_compute. split; [reflexivity | discriminate].
Defined.

End GreedyFacts.

(** ** Redemption and cancellation: the collection comes back *)

Module RoundTripFacts.

Import Ledger LedgerFacts RedemptionFacts GreedyFacts Sample.















End RoundTripFacts.

(** ** What the wallet reports as last rescues *)

Module RescueFacts.

Import Ledger LedgerFacts Wallet WalletFacts Sample.

Lemma lastRescues_sum (h : horizon) (st : store) (cpf : string) (now : Z) :
  lastRescues (wallet h st cpf now)
  = fold_right Z.add 0
      (map totalOf (filter (creditedSince cpf (rescuesFrom h now)) st)).
Proof.
  unfold wallet. cbn [lastRescues]. unfold _getLastRescues.
  apply (balanceOf_group totalOf).
Qed.

(** The sum reads the customer, the credit date and the total of a
    record, and nothing else. *)
Lemma credited_frame (cpf : string) (since : Z) (st st' : store) :
  map (fun d => (Doc.cpf d, Doc.creditDate d, Doc.totalCashback d)) st'
  = map (fun d => (Doc.cpf d, Doc.creditDate d, Doc.totalCashback d)) st ->
  fold_right Z.add 0 (map totalOf (filter (creditedSince cpf since) st'))
  = fold_right Z.add 0 (map totalOf (filter (creditedSince cpf since) st)).
Proof.
  revert st'. induction st as [|d st IH]; intros [|d' st'] H; try discriminate;
    [reflexivity|].
  cbn [map] in H. injection H as Hc Hd Ht Hrest. cbn [filter].
  assert (E : creditedSince cpf since d' = creditedSince cpf since d)
    by (unfold creditedSince; now rewrite Hc, Hd).
  rewrite E. destruct (creditedSince cpf since d);
    cbn [map fold_right]; rewrite (IH st' Hrest); [|reflexivity].
  unfold totalOf. now rewrite Ht.
Qed.

Lemma undated_tail (cpf : string) (since : Z) (st : store) (d : Doc.t) :
  Doc.creditDate d = None ->
  fold_right Z.add 0 (map totalOf (filter (creditedSince cpf since) (st ++ [d])))
  = fold_right Z.add 0 (map totalOf (filter (creditedSince cpf since) st)).
Proof.
  intros Hd. rewrite filter_app. cbn [filter]. unfold creditedSince at 2.
  rewrite Hd, andb_false_r. now rewrite app_nil_r.
Qed.

Lemma writes_frame (usedSales : list Doc.t) (st : store) :
  map (fun d => (Doc.cpf d, Doc.creditDate d, Doc.totalCashback d))
      (fold_left updateOne usedSales st)
  = map (fun d => (Doc.cpf d, Doc.creditDate d, Doc.totalCashback d)) st.
Proof.
  revert st. induction usedSales as [|u us IH]; intros st; cbn [fold_left]; [reflexivity|].
  rewrite IH. unfold updateOne. rewrite map_map. apply map_ext. intros d.
  destruct (Nat.eqb (Doc._id d) (Doc._id u)); reflexivity.
Qed.

Lemma restores_frame (id : nat) (hs : list FontEntry.t) (st : store) :
  map (fun d => (Doc.cpf d, Doc.creditDate d, Doc.totalCashback d))
      (fold_left (restore id) hs st)
  = map (fun d => (Doc.cpf d, Doc.creditDate d, Doc.totalCashback d)) st.
Proof.
  revert st. induction hs as [|h hs IH]; intros st; cbn [fold_left]; [reflexivity|].
  rewrite IH. unfold restore. rewrite map_map. apply map_ext. intros d.
  unfold restoreDoc.
  destruct (Nat.eqb (Doc._id d) (FontEntry.saleId h)
            && negb (Status.eqb (Doc.status d) Status.EXPIRED)); reflexivity.
Qed.

Lemma update_frame (st : store) (id : nat) (f : Doc.t -> Doc.t) :
  (forall d, (Doc.cpf (f d), Doc.creditDate (f d), Doc.totalCashback (f d))
             = (Doc.cpf d, Doc.creditDate d, Doc.totalCashback d)) ->
  map (fun d => (Doc.cpf d, Doc.creditDate d, Doc.totalCashback d))
      (findByIdAndUpdate st id f)
  = map (fun d => (Doc.cpf d, Doc.creditDate d, Doc.totalCashback d)) st.
Proof.
  intros Hf. unfold findByIdAndUpdate. rewrite map_map. apply map_ext. intros d.
  destruct (Nat.eqb (Doc._id d) id); [apply Hf | reflexivity].
Qed.

(** X30: what [wallet] reports as [lastRescues] is moved by earnings
    only: a redemption, whether [_generateCashback] succeeds or fails, and
    the cancellation of a redemption leave it as it is for every customer
    and every date. *)
Theorem lastRescues_ignores_redemptions (h : horizon) (cpf : string) (now : Z)
  (e : env) (processSale : received) (id : nat) (st : store) :
  (Sale.usedCashback (data processSale) = true ->
   lastRescues (wallet h (snd (_generateCashback e processSale st)) cpf now)
   = lastRescues (wallet h st cpf now))
  /\ ((forall sale, findOne st id = Some sale -> Doc.usedCashback sale = true) ->
      lastRescues (wallet h (snd (cancel id st)) cpf now)
      = lastRescues (wallet h st cpf now)).
Proof.
  rewrite !lastRescues_sum. split.
  - intros Hused. unfold _generateCashback. rewrite Hused.
    destruct (_ <? _); [reflexivity|]. unfold _useCashback.
    destruct (consume _ _ _ _ _ _ _) as [[history usedSales]|x]; cbn [snd].
    + rewrite (credited_frame _ _ (st ++ [usedCashbackDoc (freshId st) (data processSale)])).
      * now apply undated_tail.
      * rewrite update_frame by reflexivity. apply writes_frame.
    + now apply undated_tail.
  - intros Hredeemed. unfold cancel.
    destruct (findOne st id) as [sale|]; [|reflexivity].
    specialize (Hredeemed sale eq_refl). rewrite Hredeemed.
    destruct (Status.eqb (Doc.status sale) Status.CANCELED); [reflexivity|].
    destruct (Status.eqb (Doc.status sale) Status.AVAILABLE); [reflexivity|].
    destruct (Status.eqb (Doc.status sale) Status.EXPIRED); [reflexivity|].
    cbn [snd]. apply credited_frame.
    rewrite update_frame by reflexivity. apply restores_frame.
Qed.

End RescueFacts.
